(** * PDFCraft: processing orchestration, caches and stores

    A shallow embedding of
    - [src/lib/storage/recent-files.ts]   (modules [RecentFiles], [RecentFilesDisplay]),
    - [src/lib/storage/project-db.ts]     (module [ProjectDB]),
    - [src/lib/pdf/processors/text-to-pdf.ts] (modules [FontCache], [TextToPDF],
      [HexColor], [TextLayout]), [crop.ts] and [sanitize.ts]
    together with the properties the specification states about them, and
    with further properties of the code.

    JavaScript code that can throw, or that mutates a store, is written in
    a state-and-exception monad [Eff W]: [W] is the mutable world a function
    touches (localStorage, an object store, the processor instance), and a
    computation either returns a value or throws.

    A string is held as the bytes of its UTF-8 encoding. A number is a
    rational, or an integer where the source only counts: the model
    computes exactly where the source rounds to the nearest double. *)

From Stdlib Require Import ZArith QArith Lia Lqa List String Ascii DecimalString Sorted.
From stdpp Require Import base option list gmap strings.

Set Warnings "-register-all".
Local Open Scope string_scope.
Local Open Scope list_scope.

(** ** Exceptions and effects *)

Module JS.

(** A thrown value: an [Error] object with its message, or anything else
    ([error instanceof Error ? error.message : 'Unknown error']). *)
Inductive Thrown : Type :=
| ErrorObject (message : string)
| OtherValue.

Inductive Res (A : Type) : Type :=
| Ret (a : A)
| Throw (e : Thrown).
Arguments Ret {A} a.
Arguments Throw {A} e.

(** A computation over a mutable world [W]. *)
Definition Eff (W A : Type) : Type := W -> Res A * W.

Definition ret {W A} (a : A) : Eff W A := fun w => (Ret a, w).
Definition throw {W A} (e : Thrown) : Eff W A := fun w => (Throw e, w).

Definition bind {W A B} (m : Eff W A) (k : A -> Eff W B) : Eff W B :=
  fun w => match m w with
           | (Ret a, w') => k a w'
           | (Throw e, w') => (Throw e, w')
           end.

(** [try { m } catch (e) { h e }]: the world keeps the mutations made
    before the throw. *)
Definition try_catch {W A} (m : Eff W A) (h : Thrown -> Eff W A) : Eff W A :=
  fun w => match m w with
           | (Ret a, w') => (Ret a, w')
           | (Throw e, w') => h e w'
           end.

Definition get {W} : Eff W W := fun w => (Ret w, w).
Definition put {W} (w : W) : Eff W unit := fun _ => (Ret tt, w).
Definition lift {W A} (r : Res A) : Eff W A := fun w => (r, w).

(** [error instanceof Error ? error.message : 'Unknown error'] *)
Definition messageOf (e : Thrown) : string :=
  match e with
  | ErrorObject m => m
  | OtherValue => "Unknown error"
  end.

End JS.
Import JS.

Declare Scope eff_scope.
Delimit Scope eff_scope with eff.
Notation "'let*' x ':=' m 'in' k" := (bind m (fun x => k))
  (at level 10, x pattern, m at level 100, k at level 200) : eff_scope.
Local Open Scope eff_scope.

(** ** JSON values, as [JSON.parse] builds them *)

(** Numbers are integers: the ones this code writes are file sizes. *)
Inductive JsonValue : Type :=
| JNull
| JBool (b : bool)
| JNum (n : Z)
| JStr (s : string)
| JArr (items : list JsonValue)
| JObj (fields : list (string * JsonValue)).

(** Own-property lookup in an object literal. *)
Fixpoint assoc {A} (k : string) (l : list (string * A)) : option A :=
  match l with
  | [] => None
  | (k', v) :: l' => if String.eqb k k' then Some v else assoc k l'
  end.

(** [v.k] on a parsed JSON value: reading a property of [null] throws a
    TypeError, a missing property reads as [undefined] ([None]). *)
Definition getProp (v : JsonValue) (k : string) : Res (option JsonValue) :=
  match v with
  | JNull => Throw (ErrorObject "Cannot read properties of null")
  | JObj fields => Ret (assoc k fields)
  | _ => Ret None
  end.

(** [x === s] for a string [s]. *)
Definition strictEqString (x : option JsonValue) (s : string) : bool :=
  match x with
  | Some (JStr s') => String.eqb s' s
  | _ => false
  end.

(** ** Recent files ([src/lib/storage/recent-files.ts]) *)

Module RecentFiles.

Record RecentFile : Type := {
  id : string;
  name : string;
  size : Z;
  processedAt : string;
  toolUsed : string;
  toolName : option string
}.

Definition STORAGE_KEY : string := "PDFRose_recent_files".
Definition MAX_RECENT_FILES : nat := 10.
Definition testKey : string := "__storage_test__".

(** A string held by localStorage. The module writes two kinds of strings:
    the literal test key, and [JSON.stringify] of an array; the latter is
    represented by the value it serialises, which is what [JSON.parse]
    makes of it. Any other text is a [Literal]. *)
Inductive StoredText : Type :=
| Literal (s : string)
| Serialized (j : JsonValue).

(** The browser's storage as the module sees it. *)
Record Storage : Type := {
  window_defined : bool;                      (* typeof window !== 'undefined' *)
  access_denied : bool;                       (* every access throws SecurityError *)
  writable : string -> StoredText -> bool;    (* false: setItem throws QuotaExceededError *)
  items : gmap string StoredText
}.

Definition with_items (st : Storage) (m : gmap string StoredText) : Storage :=
  {| window_defined := window_defined st; access_denied := access_denied st;
     writable := writable st; items := m |}.

Definition setItem (k : string) (v : StoredText) : Eff Storage unit :=
  fun st =>
    if access_denied st then (Throw (ErrorObject "SecurityError"), st)
    else if writable st k v then (Ret tt, with_items st (<[k := v]> (items st)))
    else (Throw (ErrorObject "QuotaExceededError"), st).

Definition removeItem (k : string) : Eff Storage unit :=
  fun st =>
    if access_denied st then (Throw (ErrorObject "SecurityError"), st)
    else (Ret tt, with_items st (delete k (items st))).

Definition getItem (k : string) : Eff Storage (option StoredText) :=
  fun st =>
    if access_denied st then (Throw (ErrorObject "SecurityError"), st)
    else (Ret (items st !! k), st).

Section Parser.

(** [JSON.parse] on arbitrary text is the host's; [None] is a SyntaxError. *)
Variable JSON_parse_text : string -> option JsonValue.

Definition JSON_parse (t : StoredText) : Res JsonValue :=
  match t with
  | Serialized j => Ret j
  | Literal s =>
      match JSON_parse_text s with
      | Some j => Ret j
      | None => Throw (ErrorObject "SyntaxError")
      end
  end.

(** [!stored] for a string: only the empty string is falsy. *)
Definition falsy (t : StoredText) : bool :=
  match t with
  | Literal "" => true
  | _ => false
  end.

Definition isLocalStorageAvailable : Eff Storage bool :=
  fun st =>
    if negb (window_defined st) then (Ret false, st)
    else try_catch
           (let* _ := setItem testKey (Literal testKey) in
            let* _ := removeItem testKey in
            ret true)
           (fun _ => ret false) st.

Definition getRecentFiles : Eff Storage (list JsonValue) :=
  let* ok := isLocalStorageAvailable in
  if negb ok then ret []
  else try_catch
         (let* stored := getItem STORAGE_KEY in
          match stored with
          | None => ret []
          | Some t =>
              if falsy t then ret []
              else let* files := lift (JSON_parse t) in
                   ret (match files with JArr l => l | _ => [] end)
          end)
         (fun _ => ret []).

(** What the caller passes, and what [generateId()] and
    [new Date().toISOString()] yield during the call. *)
Record AddCall : Type := {
  arg_name : string;
  arg_size : Z;
  arg_toolUsed : string;
  arg_toolName : option string;
  generatedId : string;
  isoNow : string
}.

Definition newFileOf (c : AddCall) : RecentFile :=
  {| id := generatedId c; name := arg_name c; size := arg_size c;
     processedAt := isoNow c; toolUsed := arg_toolUsed c;
     toolName := arg_toolName c |}.

(** The object [JSON.stringify] writes for a [RecentFile]: an [undefined]
    [toolName] is left out. *)
Definition toJson (f : RecentFile) : JsonValue :=
  JObj ([("id", JStr (id f)); ("name", JStr (name f)); ("size", JNum (size f));
         ("processedAt", JStr (processedAt f)); ("toolUsed", JStr (toolUsed f))]
        ++ match toolName f with
           | Some t => [("toolName", JStr t)]
           | None => []
           end).

(** [f.name === name && f.toolUsed === toolUsed] *)
Definition sameNameAndTool (nm tool : string) (f : JsonValue) : Res bool :=
  match getProp f "name" with
  | Throw e => Throw e
  | Ret n =>
      if strictEqString n nm then
        match getProp f "toolUsed" with
        | Throw e => Throw e
        | Ret t => Ret (strictEqString t tool)
        end
      else Ret false
  end.

(** [files.filter((f) => !(...))] with a callback that may throw. *)
Fixpoint filterOut (nm tool : string) (files : list JsonValue) : Res (list JsonValue) :=
  match files with
  | [] => Ret []
  | f :: rest =>
      match sameNameAndTool nm tool f with
      | Throw e => Throw e
      | Ret same =>
          match filterOut nm tool rest with
          | Throw e => Throw e
          | Ret kept => Ret (if same then kept else f :: kept)
          end
      end
  end.

Definition addRecentFile (c : AddCall) : Eff Storage RecentFile :=
  let newFile := newFileOf c in
  let* ok := isLocalStorageAvailable in
  if negb ok then ret newFile
  else try_catch
         (let* files := getRecentFiles in
          let* filtered := lift (filterOut (arg_name c) (arg_toolUsed c) files) in
          let updated := take MAX_RECENT_FILES (toJson newFile :: filtered) in
          let* _ := setItem STORAGE_KEY (Serialized (JArr updated)) in
          ret newFile)
         (fun _ => ret newFile).

(** A sequence of calls, oldest first. *)
Fixpoint addAll (calls : list AddCall) (st : Storage) : Storage :=
  match calls with
  | [] => st
  | c :: rest => addAll rest (snd (addRecentFile c st))
  end.

(** [f.id !== id] *)
Definition hasOtherId (ident : string) (f : JsonValue) : Res bool :=
  match getProp f "id" with
  | Throw e => Throw e
  | Ret i => Ret (negb (strictEqString i ident))
  end.

(** [files.filter((f) => f.id !== id)] *)
Fixpoint filterOtherIds (ident : string) (files : list JsonValue) : Res (list JsonValue) :=
  match files with
  | [] => Ret []
  | f :: rest =>
      match hasOtherId ident f with
      | Throw e => Throw e
      | Ret keep =>
          match filterOtherIds ident rest with
          | Throw e => Throw e
          | Ret kept => Ret (if keep then f :: kept else kept)
          end
      end
  end.

Definition removeRecentFile (ident : string) : Eff Storage unit :=
  let* ok := isLocalStorageAvailable in
  if negb ok then ret tt
  else try_catch
         (let* files := getRecentFiles in
          let* updated := lift (filterOtherIds ident files) in
          setItem STORAGE_KEY (Serialized (JArr updated)))
         (fun _ => ret tt).

Definition clearRecentFiles : Eff Storage unit :=
  let* ok := isLocalStorageAvailable in
  if negb ok then ret tt
  else try_catch (removeItem STORAGE_KEY) (fun _ => ret tt).

End Parser.

End RecentFiles.

(** ** Resumable project store ([src/lib/storage/project-db.ts]) *)

Module ProjectDB.

Inductive Status : Type := in_progress | paused | completed.

Record ProjectFileMetadata : Type := {
  fm_name : string;
  fm_size : Z;
  fm_type : string;
  fm_lastModified : Z
}.

(** [createdAt] and [updatedAt] hold [Date.prototype.toISOString()]
    strings; a timestamp is represented by the instant it denotes, in
    milliseconds since the epoch (the resolution of [new Date()]). *)
Definition Timestamp : Type := Z.

Record ProjectState : Type := {
  id : string;
  name : string;
  toolId : string;
  toolName : option string;
  createdAt : Timestamp;
  updatedAt : Timestamp;
  status : Status;
  options : list (string * JsonValue);
  fileMetadata : list ProjectFileMetadata;
  progress : Q
}.

(** [Partial<Omit<ProjectState, 'id' | 'createdAt'>>]: [None] is a key the
    update does not carry. *)
Record ProjectUpdate : Type := {
  u_name : option string;
  u_toolId : option string;
  u_toolName : option (option string);
  u_updatedAt : option Timestamp;
  u_status : option Status;
  u_options : option (list (string * JsonValue));
  u_fileMetadata : option (list ProjectFileMetadata);
  u_progress : option Q
}.

Definition noUpdate : ProjectUpdate :=
  {| u_name := None; u_toolId := None; u_toolName := None; u_updatedAt := None;
     u_status := None; u_options := None; u_fileMetadata := None;
     u_progress := None |}.

Inductive OpenOutcome : Type :=
| Opened
| NoIndexedDB       (* typeof window === 'undefined' || !window.indexedDB *)
| OpenFailed.       (* request.onerror *)

(** The IndexedDB database: whether it opens, which requests succeed, and
    the object store 'projects' keyed by [id]. *)
Record Database : Type := {
  opening : OpenOutcome;
  get_succeeds : string -> bool;
  put_succeeds : ProjectState -> bool;
  projects : gmap string ProjectState
}.

Definition with_projects (db : Database) (m : gmap string ProjectState) : Database :=
  {| opening := opening db; get_succeeds := get_succeeds db;
     put_succeeds := put_succeeds db; projects := m |}.

Definition openDatabase : Eff Database unit :=
  fun db => match opening db with
            | Opened => (Ret tt, db)
            | NoIndexedDB => (Throw (ErrorObject "IndexedDB not available"), db)
            | OpenFailed => (Throw (ErrorObject "Failed to open database"), db)
            end.

(** [{ ...existing, ...updates, updatedAt: new Date().toISOString() }] *)
Definition merge (existing : ProjectState) (updates : ProjectUpdate)
    (now : Timestamp) : ProjectState :=
  {| id := id existing;
     name := default (name existing) (u_name updates);
     toolId := default (toolId existing) (u_toolId updates);
     toolName := default (toolName existing) (u_toolName updates);
     createdAt := createdAt existing;
     updatedAt := now;
     status := default (status existing) (u_status updates);
     options := default (options existing) (u_options updates);
     fileMetadata := default (fileMetadata existing) (u_fileMetadata updates);
     progress := default (progress existing) (u_progress updates) |}.

(** [now] is what [new Date()] reads when the get request succeeds. *)
Definition updateProject (pid : string) (updates : ProjectUpdate)
    (now : Timestamp) : Eff Database (option ProjectState) :=
  let* _ := openDatabase in
  let* db := get in
  if negb (get_succeeds db pid) then throw (ErrorObject "Failed to get project")
  else match projects db !! pid with
       | None => ret None
       | Some existing =>
           let updated := merge existing updates now in
           if put_succeeds db updated then
             let* _ := put (with_projects db (<[id updated := updated]> (projects db))) in
             ret (Some updated)
           else throw (ErrorObject "Failed to update project")
       end.

Definition getProject (pid : string) : Eff Database (option ProjectState) :=
  let* _ := openDatabase in
  let* db := get in
  if negb (get_succeeds db pid) then throw (ErrorObject "Failed to get project")
  else ret (projects db !! pid).

(** *** The other operations of the store *)

(** [Array.prototype.sort(compare)] is stable: [before a b] tells that
    [compare(a, b) <= 0], and an element is put in front of the first one
    it may stand before. *)
Fixpoint insertSorted {A} (before : A -> A -> bool) (a : A) (l : list A) : list A :=
  match l with
  | [] => [a]
  | b :: rest => if before a b then a :: l else b :: insertSorted before a rest
  end.

Definition sortBy {A} (before : A -> A -> bool) (l : list A) : list A :=
  foldr (insertSorted before) [] l.

(** What [store.getAll()] yields: the records in ascending order of their
    key (ids are compared character by character). *)
Definition allRecords (db : Database) : list ProjectState :=
  map snd (sortBy (fun a b => String.leb (fst a) (fst b)) (map_to_list (projects db))).

(** [new Date(b.updatedAt).getTime() - new Date(a.updatedAt).getTime() <= 0] *)
Definition newerFirst (a b : ProjectState) : bool := (updatedAt b <=? updatedAt a)%Z.

(** [Omit<ProjectState, 'id' | 'createdAt' | 'updatedAt'>] *)
Record NewProject : Type := {
  n_name : string;
  n_toolId : string;
  n_toolName : option string;
  n_status : Status;
  n_options : list (string * JsonValue);
  n_fileMetadata : list ProjectFileMetadata;
  n_progress : Q
}.

(** [generatedId] is what [generateProjectId()] yields and [now] what
    [new Date()] reads; [store.add] fails on a key that is in the store, and
    otherwise as [requestSucceeds] tells. *)
Definition saveProject (project : NewProject) (generatedId : string)
    (now : Timestamp) (requestSucceeds : bool) : Eff Database ProjectState :=
  let* _ := openDatabase in
  let fullProject :=
    {| id := generatedId; name := n_name project; toolId := n_toolId project;
       toolName := n_toolName project; createdAt := now; updatedAt := now;
       status := n_status project; options := n_options project;
       fileMetadata := n_fileMetadata project; progress := n_progress project |} in
  let* db := get in
  match projects db !! generatedId with
  | Some _ => throw (ErrorObject "Failed to save project")
  | None =>
      if requestSucceeds then
        let* _ := put (with_projects db (<[generatedId := fullProject]> (projects db))) in
        ret fullProject
      else throw (ErrorObject "Failed to save project")
  end.

Definition getAllProjects (requestSucceeds : bool) : Eff Database (list ProjectState) :=
  let* _ := openDatabase in
  let* db := get in
  if requestSucceeds then ret (sortBy newerFirst (allRecords db))
  else throw (ErrorObject "Failed to get projects").

(** [store.index('toolId').getAll(toolId)]: the records with that tool id,
    in ascending order of their key. *)
Definition getProjectsByTool (tool : string) (requestSucceeds : bool)
  : Eff Database (list ProjectState) :=
  let* _ := openDatabase in
  let* db := get in
  if requestSucceeds then
    ret (sortBy newerFirst
           (List.filter (fun p => String.eqb (toolId p) tool) (allRecords db)))
  else throw (ErrorObject "Failed to get projects").

Definition isInProgress (p : ProjectState) : bool :=
  match status p with
  | in_progress => true
  | _ => false
  end.

(** [store.index('status').getAll('in_progress')] *)
Definition getInProgressProjects (requestSucceeds : bool)
  : Eff Database (list ProjectState) :=
  let* _ := openDatabase in
  let* db := get in
  if requestSucceeds then ret (sortBy newerFirst (List.filter isInProgress (allRecords db)))
  else throw (ErrorObject "Failed to get projects").

Definition deleteProject (pid : string) (requestSucceeds : bool) : Eff Database unit :=
  let* _ := openDatabase in
  let* db := get in
  if requestSucceeds then put (with_projects db (delete pid (projects db)))
  else throw (ErrorObject "Failed to delete project").

Definition clearAllProjects (requestSucceeds : bool) : Eff Database unit :=
  let* _ := openDatabase in
  let* db := get in
  if requestSucceeds then put (with_projects db ∅)
  else throw (ErrorObject "Failed to clear projects").

(** [typeof window !== 'undefined' && !!window.indexedDB] *)
Definition isIndexedDBAvailable (db : Database) : bool :=
  match opening db with
  | NoIndexedDB => false
  | _ => true
  end.

End ProjectDB.

(** ** Binary data *)

Definition ArrayBuffer : Type := list Byte.byte.

(** ** Font cache ([src/lib/pdf/processors/text-to-pdf.ts], lines 124-210) *)

Module FontCache.

Inductive FetchOutcome : Type :=
| NetworkError                                   (* fetch() rejects *)
| Response (ok : bool) (body : Res ArrayBuffer). (* body: response.arrayBuffer() *)

(** The module-level [fontCache] map, the IndexedDB store 'fonts', and how
    the database and the network answer. *)
Record FontWorld : Type := {
  fontCache : gmap string ArrayBuffer;
  fontDB : gmap string ArrayBuffer;
  db_opens : bool;
  get_succeeds : string -> bool;
  put_succeeds : string -> ArrayBuffer -> bool;
  fetch : string -> FetchOutcome
}.

Definition with_fontCache (w : FontWorld) (m : gmap string ArrayBuffer) : FontWorld :=
  {| fontCache := m; fontDB := fontDB w; db_opens := db_opens w;
     get_succeeds := get_succeeds w; put_succeeds := put_succeeds w;
     fetch := fetch w |}.

Definition with_fontDB (w : FontWorld) (m : gmap string ArrayBuffer) : FontWorld :=
  {| fontCache := fontCache w; fontDB := m; db_opens := db_opens w;
     get_succeeds := get_succeeds w; put_succeeds := put_succeeds w;
     fetch := fetch w |}.

Definition openFontDB : Eff FontWorld unit :=
  fun w => if db_opens w then (Ret tt, w)
           else (Throw (ErrorObject "open request failed"), w).

(** The promise around [store.get(fontId)]: resolves with
    [request.result || null], rejects with [request.error]. *)
Definition storeGet (fontId : string) : Eff FontWorld (option ArrayBuffer) :=
  fun w => if get_succeeds w fontId then (Ret (fontDB w !! fontId), w)
           else (Throw (ErrorObject "get request failed"), w).

(** The promise around [store.put(fontBuffer, fontId)]. *)
Definition storePut (fontId : string) (fontBuffer : ArrayBuffer) : Eff FontWorld unit :=
  fun w => if put_succeeds w fontId fontBuffer
           then (Ret tt, with_fontDB w (<[fontId := fontBuffer]> (fontDB w)))
           else (Throw (ErrorObject "put request failed"), w).

(** [try { const db = await open; return new Promise(request) } catch { fallback }]
    in an async function. Only [await open] is evaluated inside the [try]
    block: the promise is returned without being awaited, so the function's
    result settles as that promise does after the block has been left, and
    its rejection does not reach the [catch] clause. *)
Definition tryOpenThenReturn {A} (open : Eff FontWorld unit)
    (request : Eff FontWorld A) (fallback : A) : Eff FontWorld A :=
  let* opened := try_catch (let* _ := open in ret true) (fun _ => ret false) in
  if opened : bool then request else ret fallback.

Definition getCachedFontFromDB (fontId : string) : Eff FontWorld (option ArrayBuffer) :=
  tryOpenThenReturn openFontDB (storeGet fontId) None.

Definition saveFontToDB (fontId : string) (fontBuffer : ArrayBuffer) : Eff FontWorld unit :=
  tryOpenThenReturn openFontDB (storePut fontId fontBuffer) tt.

Definition cacheSet (fontId : string) (buffer : ArrayBuffer) : Eff FontWorld unit :=
  fun w => (Ret tt, with_fontCache w (<[fontId := buffer]> (fontCache w))).

(** Lines 205-207: [fontCache.set(fontId, buffer); await saveFontToDB(fontId, buffer)]. *)
Definition cachePut (fontId : string) (buffer : ArrayBuffer) : Eff FontWorld unit :=
  let* _ := cacheSet fontId buffer in
  saveFontToDB fontId buffer.

Definition fetchFont (fontId url : string) : Eff FontWorld ArrayBuffer :=
  let* w := get in
  match fetch w url with
  | NetworkError => throw (ErrorObject "Failed to fetch")
  | Response ok body =>
      if negb ok then throw (ErrorObject ("Failed to load font: " ++ fontId))
      else lift body
  end.

Definition loadFont (fontId url : string) : Eff FontWorld ArrayBuffer :=
  let* w := get in
  match fontCache w !! fontId with
  | Some buffer => ret buffer
  | None =>
      let* cachedFont := getCachedFontFromDB fontId in
      match cachedFont with
      | Some buffer =>
          let* _ := cacheSet fontId buffer in
          ret buffer
      | None =>
          let* buffer := fetchFont fontId url in
          let* _ := cachePut fontId buffer in
          ret buffer
      end
  end.

End FontCache.

(** ** Strings as the processors use them *)

Module Str.

(** [hay.includes(needle)] *)
Definition includes (hay needle : string) : bool :=
  match String.index 0 needle hay with
  | Some _ => true
  | None => false
  end.

(** [s.replace(pattern, replacement)] with a string pattern: the first
    occurrence only. The replacements used here contain no [$]. *)
Definition replaceFirst (s pattern replacement : string) : string :=
  match String.index 0 pattern s with
  | Some i =>
      String.substring 0 i s ++ replacement ++
      String.substring (i + String.length pattern)
        (String.length s - (i + String.length pattern)) s
  | None => s
  end.

(** A string is held as the bytes of its UTF-8 encoding: an ASCII character
    is one byte, any other character two to four bytes, all of them above
    127. The characters the processors search for and split on (space,
    line feed, dot, slash, [#], the hexadecimal digits) are ASCII, so their
    bytes occur in a string only as themselves. *)

(** The white space and line terminators of one byte that [trim()] strips:
    TAB, LF, VT, FF, CR and SPACE. *)
Definition isSpace (c : ascii) : bool :=
  match nat_of_ascii c with
  | 9 | 10 | 11 | 12 | 13 | 32 => true
  | _ => false
  end.

(** Those of two bytes: U+00A0 NO-BREAK SPACE, [C2 A0]. *)
Definition isSpace2 (c0 c1 : ascii) : bool :=
  ((N_of_ascii c0 =? 194) && (N_of_ascii c1 =? 160))%N.

(** Those of three bytes: U+1680 [E1 9A 80]; U+2000 to U+200A
    [E2 80 80] to [E2 80 8A]; the line and paragraph separators U+2028 and
    U+2029 [E2 80 A8], [E2 80 A9]; U+202F [E2 80 AF]; U+205F [E2 81 9F];
    U+3000 [E3 80 80]; and U+FEFF [EF BB BF]. *)
Definition isSpace3 (c0 c1 c2 : ascii) : bool :=
  let b0 := N_of_ascii c0 in
  let b1 := N_of_ascii c1 in
  let b2 := N_of_ascii c2 in
  (((b0 =? 225) && (b1 =? 154) && (b2 =? 128))
   || ((b0 =? 226) && (b1 =? 128)
       && (((128 <=? b2) && (b2 <=? 138)) || (b2 =? 168) || (b2 =? 169) || (b2 =? 175)))
   || ((b0 =? 226) && (b1 =? 129) && (b2 =? 159))
   || ((b0 =? 227) && (b1 =? 128) && (b2 =? 128))
   || ((b0 =? 239) && (b1 =? 187) && (b2 =? 191)))%N.

(** [s.trim().length > 0]: some character of [s] is not one that [trim()]
    strips. The string is read from its start, one white-space character
    at a time, up to the first character that is none. *)
Fixpoint hasInk (s : string) : bool :=
  match s with
  | EmptyString => false
  | String c0 rest0 =>
      if isSpace c0 then hasInk rest0
      else
        match rest0 with
        | EmptyString => true
        | String c1 rest1 =>
            if isSpace2 c0 c1 then hasInk rest1
            else
              match rest1 with
              | EmptyString => true
              | String c2 rest2 =>
                  if isSpace3 c0 c1 c2 then hasInk rest2 else true
              end
        end
  end.

(** [name.replace(/\.[^/.]+$/, '')]: drops a last extension, that is a
    final dot followed by at least one character, none of them a slash. *)
Fixpoint extensionSplit (rev_chars : list ascii) (ext : list ascii)
  : option (list ascii) :=
  match rev_chars with
  | [] => None
  | c :: before =>
      if Ascii.eqb c "." then
        match ext with
        | [] => None
        | _ => Some before
        end
      else if Ascii.eqb c "/" then None
      else extensionSplit before (c :: ext)
  end.

Definition stripExtension (s : string) : string :=
  match extensionSplit (rev (list_ascii_of_string s)) [] with
  | Some before => string_of_list_ascii (rev before)
  | None => s
  end.

(** [`${n}`] for an integer. *)
Definition ofZ (n : Z) : string := NilZero.string_of_int (Z.to_int n).
Definition ofNat (n : nat) : string := ofZ (Z.of_nat n).

End Str.

(** ** Display helpers of [src/lib/storage/recent-files.ts] *)

Module RecentFilesDisplay.

(** [formatDate]. [parseDate] is [new Date(isoString).getTime()], [None] for
    an invalid date (NaN); [now] is [new Date().getTime()];
    [toLocaleDateString] is the host's. With NaN every comparison is false,
    and [toLocaleDateString()] of an invalid date is ["Invalid Date"]; the
    [catch] clause is never entered. *)
Definition formatDate (parseDate : string -> option Z)
    (toLocaleDateString : Z -> string) (now : Z) (isoString : string) : string :=
  match parseDate isoString with
  | None => "Invalid Date"
  | Some date =>
      let diffMs := (now - date)%Z in
      let diffMins := (diffMs / 60000)%Z in
      let diffHours := (diffMs / 3600000)%Z in
      let diffDays := (diffMs / 86400000)%Z in
      if (diffMins <? 1)%Z then "Just now"
      else if (diffMins <? 60)%Z then Str.ofZ diffMins ++ "m ago"
      else if (diffHours <? 24)%Z then Str.ofZ diffHours ++ "h ago"
      else if (diffDays <? 7)%Z then Str.ofZ diffDays ++ "d ago"
      else toLocaleDateString date
  end.

End RecentFilesDisplay.

(** ** The processor contract *)

Module Processor.

(** Modelled from the spec: the error codes of '@/types/pdf', which is not
    among the sources; section 7 lists the five kinds. *)
Inductive PDFErrorCode : Type :=
| INVALID_OPTIONS
| PDF_ENCRYPTED
| PDF_MALFORMED
| PROCESSING_CANCELLED
| PROCESSING_FAILED.

Record Blob : Type := { blobBytes : ArrayBuffer; blobType : string }.

Inductive MetaValue : Type :=
| MNum (n : Z)
| MBool (b : bool)
| MStrings (l : list string).

(** Modelled from the spec: [ProcessOutput] of '@/types/pdf' (section 3),
    [Success{ blob, filename, metadata }] or
    [Failure{ code, message, details? }]. *)
Inductive ProcessOutput : Type :=
| Success (result : Blob) (filename : string) (metadata : list (string * MetaValue))
| Failure (code : PDFErrorCode) (message : string) (details : option string).

(** A [File]: its name, and what [arrayBuffer()] and [text()] settle to. *)
Record File : Type := {
  fileName : string;
  fileArrayBuffer : Res ArrayBuffer;
  fileText : Res string
}.

(** The processor instance during one invocation. [cancelled], [progress]
    and [observer] are the fields of the instance; [observed] and [polls]
    log what the progress observer was called with and what
    [checkCancelled] returned; [cancelDuring n] tells whether the caller
    invokes [cancel()] while the [n]-th [await] of the invocation is
    pending, the only moments at which other code runs; [ext] is the
    module-level state the processor reaches. *)
Record Proc (E : Type) : Type := {
  cancelled : bool;
  progress : Q;
  observer : bool;
  observed : list (Q * string);
  polls : list bool;
  suspensions : nat;
  cancelDuring : nat -> bool;
  ext : E
}.
Arguments cancelled {E} _.
Arguments progress {E} _.
Arguments observer {E} _.
Arguments observed {E} _.
Arguments polls {E} _.
Arguments suspensions {E} _.
Arguments cancelDuring {E} _.
Arguments ext {E} _.

Section Base.

Context {E : Type}.

(** Modelled from the spec: [BasePDFProcessor.reset()] ('../processor' is
    not among the sources). "On invocation start the internal progress
    counter resets to 0." *)
Definition reset : Eff (Proc E) unit :=
  fun w => (Ret tt,
            {| cancelled := cancelled w; progress := 0; observer := observer w;
               observed := observed w; polls := polls w;
               suspensions := suspensions w; cancelDuring := cancelDuring w;
               ext := ext w |}).

(** [this.onProgress = onProgress]; the logs of the invocation start empty. *)
Definition setOnProgress (supplied : bool) : Eff (Proc E) unit :=
  fun w => (Ret tt,
            {| cancelled := cancelled w; progress := progress w; observer := supplied;
               observed := []; polls := []; suspensions := 0;
               cancelDuring := cancelDuring w; ext := ext w |}).

(** Modelled from the spec: [BasePDFProcessor.updateProgress(percent, message)].
    "The observer callback, if supplied, is invoked synchronously at each
    update", with the percentage and the phase label. *)
Definition updateProgress (percent : Q) (message : string) : Eff (Proc E) unit :=
  fun w => (Ret tt,
            {| cancelled := cancelled w; progress := percent; observer := observer w;
               observed := if observer w then observed w ++ [(percent, message)]
                           else observed w;
               polls := polls w; suspensions := suspensions w;
               cancelDuring := cancelDuring w; ext := ext w |}).

(** Modelled from the spec: [BasePDFProcessor.checkCancelled()], the poll
    of the cancellation flag at a checkpoint. *)
Definition checkCancelled : Eff (Proc E) bool :=
  fun w => (Ret (cancelled w),
            {| cancelled := cancelled w; progress := progress w; observer := observer w;
               observed := observed w; polls := polls w ++ [cancelled w];
               suspensions := suspensions w; cancelDuring := cancelDuring w;
               ext := ext w |}).

(** The processor is suspended: the caller may invoke [cancel()], which
    raises the flag (modelled from the spec: cancellation is cooperative,
    a flag the processor polls). *)
Definition suspend (w : Proc E) (e : E) : Proc E :=
  {| cancelled := cancelled w || cancelDuring w (suspensions w);
     progress := progress w; observer := observer w; observed := observed w;
     polls := polls w; suspensions := S (suspensions w);
     cancelDuring := cancelDuring w; ext := e |}.

(** [await p] for a promise that settles as [r]. *)
Definition await {A} (r : Res A) : Eff (Proc E) A :=
  fun w => (r, suspend w (ext w)).

(** [await f()] for an async function of the module working on [ext]. *)
Definition awaitCall {A} (m : Eff E A) : Eff (Proc E) A :=
  fun w => let '(r, e) := m (ext w) in (r, suspend w e).

(** [await obj.method()] for a method working on the object [h]: the
    result comes with the object as the call left it. *)
Definition awaitOn {H A} (h : H) (m : Eff H A) : Eff (Proc E) (A * H) :=
  fun w => match m h with
           | (Ret a, h') => (Ret (a, h'), suspend w (ext w))
           | (Throw e, _) => (Throw e, suspend w (ext w))
           end.

(** Synchronous code working on the object [h]. *)
Definition locally {H A} (h : H) (m : Eff H A) : Eff (Proc E) (A * H) :=
  fun w => match m h with
           | (Ret a, h') => (Ret (a, h'), w)
           | (Throw e, _) => (Throw e, w)
           end.

End Base.

(** Modelled from the spec: [createErrorOutput] and [createSuccessOutput]
    of [BasePDFProcessor] build the two variants of the output. *)
Definition createErrorOutput (code : PDFErrorCode) (message : string)
    (details : option string) : ProcessOutput :=
  Failure code message details.

Definition createSuccessOutput (blob : Blob) (filename : string)
    (metadata : list (string * MetaValue)) : ProcessOutput :=
  Success blob filename metadata.

Definition pdfBlob (bytes : ArrayBuffer) : Blob :=
  {| blobBytes := bytes; blobType := "application/pdf" |}.

End Processor.

(** ** Crop ([src/lib/pdf/processors/crop.ts]) *)

Module Crop.
Import Processor.

Record CropData : Type := { x : Q; y : Q; width : Q; height : Q }.

Inductive CropMode : Type := destructive | metadata.

(** [cropData] is an object keyed by page number; it is listed in the order
    of [Object.keys]. The options arrive through a cast, so [cropData] may
    be missing. *)
Record CropOptions : Type := {
  cropData : option (list (Z * CropData));
  mode : option CropMode
}.

Record ProcessInput : Type := { files : list File; options : CropOptions }.

(** The part of pdf-lib the processor calls, on documents of type [Doc].
    [getSize d i] is [d.getPage(i).getSize()], and [setCropBox d i ..] is
    [d.getPage(i).setCropBox(..)]. *)
Class PdfLib (Doc : Type) : Type := {
  PDFDocument_load : ArrayBuffer -> Res Doc;     (* { ignoreEncryption: true } *)
  getPageCount : Doc -> nat;
  getSize : Doc -> nat -> Res (Q * Q);
  setCropBox : Doc -> nat -> Q -> Q -> Q -> Q -> Res Doc;
  save : Doc -> Res ArrayBuffer                  (* { useObjectStreams: true } *)
}.

Section WithLibrary.

Context {E Doc : Type}.

(** [cropData[pageNum]] *)
Fixpoint lookupCrop (pageNum : Z) (cd : list (Z * CropData)) : option CropData :=
  match cd with
  | [] => None
  | (k, c) :: rest => if Z.eqb k pageNum then Some c else lookupCrop pageNum rest
  end.

(** [30 + (60 * (i + 1) / totalToProcess)] *)
Definition cropProgress (i totalToProcess : nat) : Q :=
  (30 + 60 * inject_Z (Z.of_nat (i + 1)) / inject_Z (Z.of_nat totalToProcess))%Q.

(** The loop of [performMetadataCrop], from index [i] on. *)
Fixpoint cropPages (lib : PdfLib Doc) (cd : list (Z * CropData))
    (totalToProcess : nat) (pageNumbers : list Z) (i : nat) (pdf : Doc)
  : Eff (Proc E) Doc :=
  match pageNumbers with
  | [] => ret pdf
  | pageNum :: rest =>
      let* stop := checkCancelled in
      if stop : bool then throw (ErrorObject "Processing cancelled")
      else
        let crop := lookupCrop pageNum cd in
        let pageIndex := (pageNum - 1)%Z in
        if (pageIndex <? 0)%Z || (Z.of_nat (getPageCount pdf) <=? pageIndex)%Z
        then cropPages lib cd totalToProcess rest (S i) pdf
        else
          let page := Z.to_nat pageIndex in
          let* (w, h) := lift (getSize pdf page) in
          match crop with
          | None => throw (ErrorObject "Cannot read properties of undefined")
          | Some crop =>
              let cropW := (width crop * w)%Q in
              let cropH := (height crop * h)%Q in
              let cropX := (x crop * w)%Q in
              let cropY := (h - (y crop * h) - cropH)%Q in
              let* pdf' := lift (setCropBox pdf page cropX cropY cropW cropH) in
              let* _ := updateProgress (cropProgress i totalToProcess)
                          ("Cropping page " ++ Str.ofZ pageNum ++ "...") in
              cropPages lib cd totalToProcess rest (S i) pdf'
          end
  end.

Definition performMetadataCrop (lib : PdfLib Doc) (arrayBuffer : ArrayBuffer)
    (cd : list (Z * CropData)) : Eff (Proc E) ArrayBuffer :=
  let* pdf := await (PDFDocument_load arrayBuffer) in
  let pageNumbers := map fst cd in
  let totalToProcess := length pageNumbers in
  let* pdf' := cropPages lib cd totalToProcess pageNumbers 0 pdf in
  await (save pdf').

Definition performDestructiveCrop (lib : PdfLib Doc) (arrayBuffer : ArrayBuffer)
    (cd : list (Z * CropData)) : Eff (Proc E) ArrayBuffer :=
  performMetadataCrop lib arrayBuffer cd.

Definition isDestructive (o : CropOptions) : bool :=
  match mode o with
  | Some destructive => true
  | _ => false
  end.

Definition suffixFor (destr : bool) : string :=
  if destr then "_cropped_flattened.pdf" else "_cropped.pdf".

(** [loadPdfLib] is what the dynamic import of pdf-lib settles to. *)
Definition process (loadPdfLib : Res (PdfLib Doc)) (input : ProcessInput)
    (onProgress : bool) : Eff (Proc E) ProcessOutput :=
  let* _ := reset in
  let* _ := setOnProgress onProgress in
  let cropOptions := options input in
  match files input with
  | [file] =>
      match cropData cropOptions with
      | None | Some [] =>
          ret (createErrorOutput INVALID_OPTIONS "Crop data is required." None)
      | Some cd =>
          try_catch
            (let* _ := updateProgress 10 "Loading PDF library..." in
             let* pdfLib := await loadPdfLib in
             let* _ := updateProgress 20 "Loading PDF..." in
             let* arrayBuffer := await (fileArrayBuffer file) in
             let* pdfBytes :=
               if isDestructive cropOptions
               then performDestructiveCrop pdfLib arrayBuffer cd
               else performMetadataCrop pdfLib arrayBuffer cd in
             let* _ := updateProgress 100 "Complete!" in
             let suffix := suffixFor (isDestructive cropOptions) in
             ret (createSuccessOutput (pdfBlob pdfBytes)
                    (Str.replaceFirst (fileName file) ".pdf" suffix)
                    [("pagesCropped", MNum (Z.of_nat (length cd)))]))
            (fun error =>
               ret (createErrorOutput PROCESSING_FAILED "Failed to crop PDF."
                      (Some (messageOf error))))
      end
  | _ =>
      ret (createErrorOutput INVALID_OPTIONS "Exactly 1 PDF file is required." None)
  end.

End WithLibrary.

End Crop.

(** ** Text to PDF ([src/lib/pdf/processors/text-to-pdf.ts]) *)

Module TextToPDF.
Import Processor FontCache.

Inductive TextPageSizeType : Type := A4 | LETTER | LEGAL | A5 | A3 | CUSTOM.
Inductive PageOrientation : Type := portrait | landscape.

Record TextColor : Type := { r : Q; g : Q; b : Q }.
Record Margin : Type := { top : Q; right : Q; bottom : Q; left : Q }.

(** What the caller's map holds under [directText]. The map is cast to
    [Partial<TextToPDFOptions>] and not checked, so the value need not be a
    string: [NotText truthy] is any other value, one without a [trim]
    method (a number, a boolean, [null], a plain object, an array), with
    its truthiness. A [String] object is taken with the strings. *)
Inductive DirectText : Type :=
| Text (t : string)
| NotText (truthy : bool).

Record TextToPDFOptions : Type := {
  pageSize : TextPageSizeType;
  customWidth : option Q;
  customHeight : option Q;
  orientation : PageOrientation;
  fontId : string;
  fontSize : Q;
  lineHeight : Q;
  textColor : TextColor;
  margin : Margin;
  preserveLineBreaks : bool;
  wrapLines : bool;
  directText : option DirectText
}.

(** [Partial<TextToPDFOptions>] *)
Record PartialOptions : Type := {
  p_pageSize : option TextPageSizeType;
  p_customWidth : option Q;
  p_customHeight : option Q;
  p_orientation : option PageOrientation;
  p_fontId : option string;
  p_fontSize : option Q;
  p_lineHeight : option Q;
  p_textColor : option TextColor;
  p_margin : option Margin;
  p_preserveLineBreaks : option bool;
  p_wrapLines : option bool;
  p_directText : option DirectText
}.

Definition DEFAULT_OPTIONS : TextToPDFOptions :=
  {| pageSize := A4; customWidth := None; customHeight := None;
     orientation := portrait; fontId := "helvetica"; fontSize := 12;
     lineHeight := 3 # 2; textColor := {| r := 0; g := 0; b := 0 |};
     margin := {| top := 72; right := 72; bottom := 72; left := 72 |};
     preserveLineBreaks := true; wrapLines := true; directText := None |}.

(** [{ ...defaults, ...options }] *)
Definition mergeOptions (d : TextToPDFOptions) (o : PartialOptions) : TextToPDFOptions :=
  {| pageSize := default (pageSize d) (p_pageSize o);
     customWidth := match p_customWidth o with Some v => Some v | None => customWidth d end;
     customHeight := match p_customHeight o with Some v => Some v | None => customHeight d end;
     orientation := default (orientation d) (p_orientation o);
     fontId := default (fontId d) (p_fontId o);
     fontSize := default (fontSize d) (p_fontSize o);
     lineHeight := default (lineHeight d) (p_lineHeight o);
     textColor := default (textColor d) (p_textColor o);
     margin := default (margin d) (p_margin o);
     preserveLineBreaks := default (preserveLineBreaks d) (p_preserveLineBreaks o);
     wrapLines := default (wrapLines d) (p_wrapLines o);
     directText := match p_directText o with Some v => Some v | None => directText d end |}.

(** An entry of [AVAILABLE_FONTS]: standard fonts carry no url. The display
    names are left out. *)
Inductive FontKind : Type := standard | noto (url : string).
Record FontConfig : Type := { font_id : string; font_kind : FontKind }.

Definition helvetica : FontConfig := {| font_id := "helvetica"; font_kind := standard |}.

Definition AVAILABLE_FONTS : list FontConfig :=
  [ helvetica;
    {| font_id := "times"; font_kind := standard |};
    {| font_id := "courier"; font_kind := standard |};
    {| font_id := "noto-sans"; font_kind := noto "https://raw.githack.com/googlefonts/noto-fonts/main/hinted/ttf/NotoSans/NotoSans-Regular.ttf" |};
    {| font_id := "noto-sans-sc"; font_kind := noto "https://raw.githack.com/googlefonts/noto-cjk/main/Sans/OTF/SimplifiedChinese/NotoSansCJKsc-Regular.otf" |};
    {| font_id := "noto-sans-tc"; font_kind := noto "https://raw.githack.com/googlefonts/noto-cjk/main/Sans/OTF/TraditionalChinese/NotoSansCJKtc-Regular.otf" |};
    {| font_id := "noto-sans-jp"; font_kind := noto "https://raw.githack.com/googlefonts/noto-cjk/main/Sans/OTF/Japanese/NotoSansCJKjp-Regular.otf" |};
    {| font_id := "noto-sans-kr"; font_kind := noto "https://raw.githack.com/googlefonts/noto-cjk/main/Sans/OTF/Korean/NotoSansCJKkr-Regular.otf" |};
    {| font_id := "noto-sans-arabic"; font_kind := noto "https://raw.githack.com/googlefonts/noto-fonts/main/hinted/ttf/NotoSansArabic/NotoSansArabic-Regular.ttf" |};
    {| font_id := "noto-sans-hebrew"; font_kind := noto "https://raw.githack.com/googlefonts/noto-fonts/main/hinted/ttf/NotoSansHebrew/NotoSansHebrew-Regular.ttf" |};
    {| font_id := "noto-sans-thai"; font_kind := noto "https://raw.githack.com/googlefonts/noto-fonts/main/hinted/ttf/NotoSansThai/NotoSansThai-Regular.ttf" |};
    {| font_id := "noto-sans-devanagari"; font_kind := noto "https://raw.githack.com/googlefonts/noto-fonts/main/unhinted/ttf/NotoSansDevanagari/NotoSansDevanagari-Regular.ttf" |} ].

(** [AVAILABLE_FONTS.find(f => f.id === fontId) || AVAILABLE_FONTS[0]] *)
Definition fontConfigFor (fid : string) : FontConfig :=
  default helvetica (List.find (fun f => String.eqb (font_id f) fid) AVAILABLE_FONTS).

(** [standardFontMap[fontConfig.id] || 'Helvetica'] *)
Definition standardFontName (fid : string) : string :=
  default "Helvetica"
    (assoc fid [("helvetica", "Helvetica"); ("times", "TimesRoman"); ("courier", "Courier")]).

Record ProcessInput : Type := { files : list File; options : PartialOptions }.

(** The part of pdf-lib the processor calls. *)
Class PdfLib (Doc Font : Type) : Type := {
  PDFDocument_create : Res Doc;
  embedStandardFont : string -> Eff Doc Font;     (* embedFont(StandardFonts[name]) *)
  registerFontkit : Eff Doc unit;
  embedFont : ArrayBuffer -> Eff Doc Font;        (* { subset: false } *)
  save : Doc -> Res ArrayBuffer;                  (* { useObjectStreams: true } *)
  getPageCount : Doc -> nat
}.

(** What the processor awaits besides the files: the dynamic imports, and
    the page layout. [createPdfFromText] (lines 334-441) draws the text on
    the document; it reports no progress and polls no cancellation, and is
    taken here as a step on the document that completes or throws. *)
Record Collaborators (Doc Font : Type) : Type := {
  loadPdfLib : Res (PdfLib Doc Font);
  importFontkit : Res unit;
  createPdfFromText : string -> TextToPDFOptions -> Font -> Eff Doc unit
}.
Arguments loadPdfLib {Doc Font} _.
Arguments importFontkit {Doc Font} _.
Arguments createPdfFromText {Doc Font} _.

Definition newline : string := String (ascii_of_nat 10) EmptyString.

Section WithLibrary.

Context {Doc Font : Type}.

(** [for (const file of files) combinedText += (await file.text()) + '\n\n'] *)
Fixpoint readAll (fs : list File) (combinedText : string)
  : Eff (Proc FontWorld) string :=
  match fs with
  | [] => ret combinedText
  | file :: rest =>
      let* text := await (fileText file) in
      readAll rest (combinedText ++ text ++ newline ++ newline)
  end.

Definition generateOutputFilename (fs : list File) : string :=
  match fs with
  | [file] => (Str.stripExtension (fileName file) ++ ".pdf")%string
  | _ => ("text_" ++ Str.ofNat (length fs) ++ "_files.pdf")%string
  end.

(** [pdfOptions.directText && pdfOptions.directText.trim().length > 0]:
    a missing, empty or otherwise falsy value is no direct text; on a truthy
    value that is not a string the call of [trim] throws a [TypeError],
    whose message is the engine's (here that of V8). *)
Definition hasDirectText (o : TextToPDFOptions) : Res bool :=
  match directText o with
  | Some (Text t) => Ret (Str.hasInk t)
  | Some (NotText true) =>
      Throw (ErrorObject "pdfOptions.directText.trim is not a function")
  | Some (NotText false) | None => Ret false
  end.

(** [pdfOptions.directText!], read once [hasDirectText] holds. *)
Definition directTextOf (o : TextToPDFOptions) : string :=
  match directText o with
  | Some (Text t) => t
  | _ => ""
  end.

(** [hasDirectText] is computed before the [try] block is entered: what it
    throws is not caught, and the promise [process] returns rejects. *)
Definition process (env : Collaborators Doc Font) (input : ProcessInput)
    (onProgress : bool) : Eff (Proc FontWorld) ProcessOutput :=
  let* _ := reset in
  let* _ := setOnProgress onProgress in
  let fs := files input in
  let pdfOptions := mergeOptions DEFAULT_OPTIONS (options input) in
  let* direct := lift (hasDirectText pdfOptions) in
  if (length fs <? 1)%nat && negb direct then
    ret (createErrorOutput INVALID_OPTIONS
           "At least 1 text file or direct text input is required."
           (Some ("Received " ++ Str.ofNat (length fs) ++ " file(s) and no direct text.")%string))
  else
    try_catch
      (let* _ := updateProgress 5 "Loading PDF library..." in
       let* pdfLib := await (loadPdfLib env) in
       let* stop := checkCancelled in
       if stop : bool then
         ret (createErrorOutput PROCESSING_CANCELLED "Processing was cancelled." None)
       else
         let* _ := updateProgress 10 "Reading text..." in
         let* combinedText :=
           if direct then ret (directTextOf pdfOptions)
           else readAll fs "" in
         let* _ := updateProgress 20 "Loading font..." in
         let* pdfDoc := await PDFDocument_create in
         let fontConfig := fontConfigFor (fontId pdfOptions) in
         let* (font, pdfDoc) :=
           match font_kind fontConfig with
           | standard =>
               awaitOn pdfDoc (embedStandardFont (standardFontName (font_id fontConfig)))
           | noto url =>
               let* _ := await (importFontkit env) in
               let* (_, pdfDoc) := locally pdfDoc registerFontkit in
               let* _ := updateProgress 30 "Downloading font..." in
               let* fontBytes := awaitCall (loadFont (font_id fontConfig) url) in
               let* _ := updateProgress 40 "Embedding font..." in
               awaitOn pdfDoc (embedFont fontBytes)
           end in
         let* _ := updateProgress 50 "Creating PDF pages..." in
         let* (_, pdfDoc) :=
           awaitOn pdfDoc (createPdfFromText env combinedText pdfOptions font) in
         let* _ := updateProgress 90 "Saving PDF..." in
         let* pdfBytes := await (save pdfDoc) in
         let* _ := updateProgress 100 "Complete!" in
         let outputFilename :=
           if direct then "from_text.pdf" else generateOutputFilename fs in
         ret (createSuccessOutput (pdfBlob pdfBytes) outputFilename
                [("pageCount", MNum (Z.of_nat (getPageCount pdfDoc)));
                 ("fileCount", MNum (if direct then 0 else Z.of_nat (length fs)))]))
      (fun error =>
         ret (createErrorOutput PROCESSING_FAILED "Failed to convert text to PDF."
                (Some (messageOf error)))).

End WithLibrary.

End TextToPDF.

(** ** Colours of [src/lib/pdf/processors/text-to-pdf.ts] *)

Module HexColor.
Import TextToPDF.

(** A character of the class [[a-f\d]] under the [i] flag, with the value
    [parseInt(_, 16)] gives it. *)
Definition hexDigit (c : ascii) : option Z :=
  let n := Z.of_nat (nat_of_ascii c) in
  if (48 <=? n)%Z && (n <=? 57)%Z then Some (n - 48)%Z
  else if (97 <=? n)%Z && (n <=? 102)%Z then Some (n - 87)%Z
  else if (65 <=? n)%Z && (n <=? 70)%Z then Some (n - 55)%Z
  else None.

(** A group [([a-f\d]{2})] and its [parseInt(_, 16)]. *)
Definition hexPair (hi lo : ascii) : option Z :=
  match hexDigit hi, hexDigit lo with
  | Some h, Some l => Some (16 * h + l)%Z
  | _, _ => None
  end.

(** [/^#?([a-f\d]{2})([a-f\d]{2})([a-f\d]{2})$/i.exec(hex)], the three
    groups parsed. *)
Definition matchHex (hex : string) : option (Z * Z * Z) :=
  let digits := match hex with
                | String "#"%char rest => rest
                | _ => hex
                end in
  match list_ascii_of_string digits with
  | [r1; r2; g1; g2; b1; b2] =>
      match hexPair r1 r2, hexPair g1 g2, hexPair b1 b2 with
      | Some r, Some g, Some b => Some (r, g, b)
      | _, _, _ => None
      end
  | _ => None
  end.

Definition hexToRgb (hex : string) : TextColor :=
  match matchHex hex with
  | Some (red, green, blue) =>
      {| r := inject_Z red / 255; g := inject_Z green / 255; b := inject_Z blue / 255 |}
  | None => {| r := 0; g := 0; b := 0 |}
  end.

End HexColor.

(** ** Page layout of [src/lib/pdf/processors/text-to-pdf.ts], lines 334-441 *)

Module TextLayout.
Import TextToPDF.

Local Open Scope Q_scope.

(** [s.split(sep)] for a separator of one character. *)
Fixpoint splitOn (sep : ascii) (s : string) : list string :=
  match s with
  | EmptyString => [EmptyString]
  | String c rest =>
      if Ascii.eqb c sep then EmptyString :: splitOn sep rest
      else match splitOn sep rest with
           | piece :: pieces => String c piece :: pieces
           | [] => [String c EmptyString]
           end
  end.

(** A string that is truthy. *)
Definition nonEmpty (s : string) : bool :=
  match s with
  | EmptyString => false
  | String _ _ => true
  end.

(** [TEXT_PAGE_SIZES], in points. *)
Definition TEXT_PAGE_SIZES (size : TextPageSizeType) : Q * Q :=
  match size with
  | A4 => (59528 # 100, 84189 # 100)
  | LETTER => (612, 792)
  | LEGAL => (612, 1008)
  | A5 => (41953 # 100, 59528 # 100)
  | A3 => (84189 # 100, 119055 # 100)
  | CUSTOM => (59528 # 100, 84189 # 100)
  end.

(** A number that is truthy. *)
Definition nonZero (q : Q) : bool := negb (Qeq_bool q 0).

(** Lines 341-355: the page size, turned for landscape. *)
Definition pageDimensions (options : TextToPDFOptions) : Q * Q :=
  let (pageWidth, pageHeight) :=
    match pageSize options, customWidth options, customHeight options with
    | CUSTOM, Some cw, Some ch =>
        if nonZero cw && nonZero ch then (cw, ch) else TEXT_PAGE_SIZES CUSTOM
    | size, _, _ => TEXT_PAGE_SIZES size
    end in
  match orientation options with
  | landscape => (pageHeight, pageWidth)
  | portrait => (pageWidth, pageHeight)
  end.

(** The part of pdf-lib the layout calls. [page] is always the page added
    last, so [drawText] draws on that one. The colour is built by
    [pdfLib.rgb] inside the [try] block of the call. *)
Class Canvas (Doc Font : Type) : Type := {
  addPage : Q -> Q -> Eff Doc unit;                (* pdfDoc.addPage([w, h]) *)
  drawText : string -> Q -> Q -> Q -> Font -> TextColor -> Eff Doc unit;
                                                   (* page.drawText(text, { x, y, size, font, color }) *)
  widthOfTextAtSize : Font -> string -> Q -> Res Q (* font.widthOfTextAtSize(text, size) *)
}.

Section Layout.

Context {Doc Font : Type} (canvas : Canvas Doc Font).
Variable options : TextToPDFOptions.
Variable font : Font.

Definition pageWidth : Q := fst (pageDimensions options).
Definition pageHeight : Q := snd (pageDimensions options).
Definition lineAdvance : Q := fontSize options * lineHeight options.
Definition textWidth : Q := pageWidth - left (margin options) - right (margin options).
Definition firstLine : Q := pageHeight - top (margin options).

(** [try { page.drawText(currentLine, ..) } catch { }] *)
Definition drawLine (currentLine : string) (y : Q) : Eff Doc unit :=
  try_catch
    (drawText currentLine (left (margin options)) y (fontSize options) font
       (textColor options))
    (fun _ => ret tt).

(** [y -= lineHeight; if (y < margin.bottom) { page = pdfDoc.addPage(..); y = pageHeight - margin.top }] *)
Definition nextLine (y : Q) : Eff Doc Q :=
  let y := y - lineAdvance in
  if negb (Qle_bool (bottom (margin options)) y) then
    let* _ := addPage pageWidth pageHeight in
    ret firstLine
  else ret y.

(** The loop over the words of a paragraph, lines 382-418. *)
Fixpoint wrapWords (words : list string) (currentLine : string) (y : Q)
  : Eff Doc (string * Q) :=
  match words with
  | [] => ret (currentLine, y)
  | word :: rest =>
      if negb (nonEmpty word) then wrapWords rest currentLine y
      else
        let testLine :=
          if nonEmpty currentLine then (currentLine ++ " " ++ word)%string else word in
        match widthOfTextAtSize font testLine (fontSize options) with
        | Throw _ => wrapWords rest currentLine y
        | Ret testWidth =>
            if negb (Qle_bool testWidth textWidth) && nonEmpty currentLine then
              let* _ := drawLine currentLine y in
              let* y := nextLine y in
              wrapWords rest word y
            else wrapWords rest testLine y
        end
  end.

(** The loop over the paragraphs, lines 368-440. *)
Fixpoint drawParagraphs (paragraphs : list string) (y : Q) : Eff Doc unit :=
  match paragraphs with
  | [] => ret tt
  | paragraph :: rest =>
      if negb (Str.hasInk paragraph) then
        let* y := nextLine y in
        drawParagraphs rest y
      else
        let* (currentLine, y) := wrapWords (splitOn " " paragraph) "" y in
        let* y :=
          if nonEmpty currentLine then
            let* _ := drawLine currentLine y in
            nextLine y
          else ret y in
        drawParagraphs rest y
  end.

Definition createPdfFromText (text : string) : Eff Doc unit :=
  let* _ := addPage pageWidth pageHeight in
  drawParagraphs (splitOn (ascii_of_nat 10) text) firstLine.

End Layout.

End TextLayout.

(** ** Sanitize ([src/lib/pdf/processors/sanitize.ts]) *)

Module Sanitize.
Import Processor.

Record SanitizePDFOptions : Type := {
  removeJavaScript : bool;
  removeAttachments : bool;
  removeLinks : bool;
  flattenForms : bool;
  removeMetadata : bool;
  removeAnnotations : bool
}.

(** [Partial<SanitizePDFOptions>] *)
Record PartialOptions : Type := {
  p_removeJavaScript : option bool;
  p_removeAttachments : option bool;
  p_removeLinks : option bool;
  p_flattenForms : option bool;
  p_removeMetadata : option bool;
  p_removeAnnotations : option bool
}.

Definition DEFAULT_SANITIZE_OPTIONS : SanitizePDFOptions :=
  {| removeJavaScript := true; removeAttachments := true; removeLinks := true;
     flattenForms := true; removeMetadata := true; removeAnnotations := false |}.

Definition mergeOptions (d : SanitizePDFOptions) (o : PartialOptions) : SanitizePDFOptions :=
  {| removeJavaScript := default (removeJavaScript d) (p_removeJavaScript o);
     removeAttachments := default (removeAttachments d) (p_removeAttachments o);
     removeLinks := default (removeLinks d) (p_removeLinks o);
     flattenForms := default (flattenForms d) (p_flattenForms o);
     removeMetadata := default (removeMetadata d) (p_removeMetadata o);
     removeAnnotations := default (removeAnnotations d) (p_removeAnnotations o) |}.

Record ProcessInput : Type := { files : list File; options : PartialOptions }.

(** An indirect reference; the object it denotes is reached through
    [pdfDoc.context.lookup], which is part of each operation on it. *)
Definition Ref : Type := nat.

(** The part of pdf-lib the processor calls. The pages that [getPages()]
    returns are addressed by their index; [PDFName.of(k)] is written [k].
    Every call on the document may throw and may change the document. *)
Class PdfLib (Doc : Type) : Type := {
  PDFDocument_load : ArrayBuffer -> Res Doc;      (* { ignoreEncryption: true } *)
  save : Doc -> Res ArrayBuffer;                  (* { useObjectStreams: true } *)
  getPageCount : Doc -> nat;
  getFormFields : Eff Doc nat;                    (* getForm().getFields().length *)
  flatten : Eff Doc unit;                         (* form.flatten() *)
  catalogHas : string -> Eff Doc bool;            (* catalog.dict.has *)
  catalogGet : string -> Eff Doc (option Ref);    (* catalog.dict.get *)
  catalogDelete : string -> Eff Doc unit;         (* catalog.dict.delete *)
  infoKeys : Eff Doc (list string);               (* getInfoDict().keys() *)
  infoDelete : string -> Eff Doc unit;
  setTitle : string -> Eff Doc unit;
  setAuthor : string -> Eff Doc unit;
  setSubject : string -> Eff Doc unit;
  setKeywords : list string -> Eff Doc unit;
  setCreator : string -> Eff Doc unit;
  setProducer : string -> Eff Doc unit;
  getPages : Eff Doc nat;                         (* getPages().length *)
  pageHas : nat -> string -> Eff Doc bool;        (* page.node.has *)
  pageGet : nat -> string -> Eff Doc (option Ref);
  pageDelete : nat -> string -> Eff Doc unit;
  pageSetAnnots : nat -> list Ref -> Eff Doc unit; (* node.set(Annots, context.obj(refs)) *)
  objHas : Ref -> string -> Eff Doc bool;         (* lookup(ref).has *)
  objDelete : Ref -> string -> Eff Doc unit;
  asArray : Ref -> Eff Doc (list Ref);            (* lookup(ref).asArray() *)
  subtypeOf : Ref -> Eff Doc (option string)      (* lookup(ref).get(Subtype)?.toString().substring(1) *)
}.

(** The document being sanitized and the [removedItems] array. *)
Record Work (Doc : Type) : Type := { pdfDoc : Doc; removedItems : list string }.
Arguments pdfDoc {Doc} _.
Arguments removedItems {Doc} _.

Section WithLibrary.

Context {E Doc : Type} (lib : PdfLib Doc).

Definition onDoc {A} (m : Eff Doc A) : Eff (Work Doc) A :=
  fun h => let '(r, d) := m (pdfDoc h) in
           (r, {| pdfDoc := d; removedItems := removedItems h |}).

(** [removedItems.push(item)] *)
Definition push (item : string) : Eff (Work Doc) unit :=
  fun h => (Ret tt, {| pdfDoc := pdfDoc h; removedItems := removedItems h ++ [item] |}).

Fixpoint forEach {W A} (l : list A) (body : A -> Eff W unit) : Eff W unit :=
  match l with
  | [] => ret tt
  | a :: rest => let* _ := body a in forEach rest body
  end.

(** [console.warn(..)] in a [catch] clause: nothing else happens. *)
Definition warn {W} (_ : Thrown) : Eff W unit := ret tt.

(** [if (dict.has(k)) dict.delete(k)] on the catalog. *)
Definition dropFromCatalog (k : string) : Eff (Work Doc) unit :=
  let* has := onDoc (catalogHas k) in
  if has : bool then onDoc (catalogDelete k) else ret tt.

(** Lines 150-170. *)
Definition flattenFormsStep : Eff (Work Doc) unit :=
  try_catch
    (let* fields := onDoc getFormFields in
     if (0 <? fields)%nat then
       let* _ := onDoc flatten in
       push "form fields (flattened)"
     else ret tt)
    (fun _ =>
       try_catch
         (let* has := onDoc (catalogHas "AcroForm") in
          if has : bool then
            let* _ := onDoc (catalogDelete "AcroForm") in
            push "form fields"
          else ret tt)
         warn).

(** Lines 175-205. *)
Definition removeMetadataStep : Eff (Work Doc) unit :=
  try_catch
    (let* allKeys := onDoc infoKeys in
     let* _ := forEach allKeys (fun key => onDoc (infoDelete key)) in
     let* _ := onDoc (setTitle "") in
     let* _ := onDoc (setAuthor "") in
     let* _ := onDoc (setSubject "") in
     let* _ := onDoc (setKeywords []) in
     let* _ := onDoc (setCreator "") in
     let* _ := onDoc (setProducer "PDFRose") in
     let* _ := try_catch (dropFromCatalog "Metadata") warn in
     push "metadata")
    warn.

(** Lines 210-220; [getPages()] is outside the [try]. *)
Definition removeAnnotationsStep : Eff (Work Doc) unit :=
  let* pages := onDoc getPages in
  let* _ := forEach (seq 0 pages)
              (fun page => try_catch (onDoc (pageDelete page "Annots")) (fun _ => ret tt)) in
  push "annotations".

(** [Names] sub-dictionary: [if (namesRef) try { if has(k) delete(k) } catch {}] *)
Definition dropFromNames (k : string) : Eff (Work Doc) unit :=
  let* namesRef := onDoc (catalogGet "Names") in
  match namesRef with
  | Some ref =>
      try_catch
        (let* has := onDoc (objHas ref k) in
         if has : bool then onDoc (objDelete ref k) else ret tt)
        (fun _ => ret tt)
  | None => ret tt
  end.

(** Lines 225-269. *)
Definition removeJavaScriptStep : Eff (Work Doc) unit :=
  try_catch
    (let* _ := dropFromNames "JavaScript" in
     let* _ := dropFromCatalog "OpenAction" in
     let* _ := dropFromCatalog "AA" in
     let* pages := onDoc getPages in
     let* _ := forEach (seq 0 pages)
                 (fun page =>
                    try_catch
                      (let* has := onDoc (pageHas page "AA") in
                       if has : bool then onDoc (pageDelete page "AA") else ret tt)
                      (fun _ => ret tt)) in
     push "JavaScript")
    warn.

(** Lines 274-300. *)
Definition removeAttachmentsStep : Eff (Work Doc) unit :=
  try_catch
    (let* _ := dropFromNames "EmbeddedFiles" in
     let* _ := dropFromCatalog "Collection" in
     push "embedded files")
    warn.

(** Lines 316-328: the annotations that are not links, or cannot be read. *)
Fixpoint annotsToKeep (annotRefs : list Ref) : Eff (Work Doc) (list Ref) :=
  match annotRefs with
  | [] => ret []
  | ref :: rest =>
      let* keep :=
        try_catch
          (let* subtype := onDoc (subtypeOf ref) in
           ret (negb (match subtype with
                      | Some s => String.eqb s "Link"
                      | None => false
                      end)))
          (fun _ => ret true) in
      let* kept := annotsToKeep rest in
      ret (if keep : bool then ref :: kept else kept)
  end.

(** Lines 303-346. *)
Definition removeLinksStep : Eff (Work Doc) unit :=
  try_catch
    (let* pages := onDoc getPages in
     let* _ := forEach (seq 0 pages)
                 (fun page =>
                    try_catch
                      (let* annotsRef := onDoc (pageGet page "Annots") in
                       match annotsRef with
                       | None => ret tt
                       | Some aref =>
                           let* annotRefs := onDoc (asArray aref) in
                           let* kept := annotsToKeep annotRefs in
                           if negb (length kept =? length annotRefs)%nat then
                             if (0 <? length kept)%nat
                             then onDoc (pageSetAnnots page kept)
                             else onDoc (pageDelete page "Annots")
                           else ret tt
                       end)
                      (fun _ => ret tt)) in
     push "links")
    warn.

Definition when (enabled : bool) (step : Eff (Work Doc) unit) : Eff (Work Doc) unit :=
  if enabled then step else ret tt.

End WithLibrary.

(** [originalName.slice(0, lastDot)], or the whole name without a dot. *)
Fixpoint beforeLastDot (rev_chars : list ascii) : option (list ascii) :=
  match rev_chars with
  | [] => None
  | c :: before => if Ascii.eqb c "." then Some before else beforeLastDot before
  end.

Definition generateSanitizedFilename (originalName : string) : string :=
  let baseName :=
    match beforeLastDot (rev (list_ascii_of_string originalName)) with
    | Some before => string_of_list_ascii (rev before)
    | None => originalName
    end in
  (baseName ++ "_sanitized.pdf")%string.

Definition cancelledOutput : ProcessOutput :=
  createErrorOutput PROCESSING_CANCELLED "Processing was cancelled." None.

Section Process.

Context {E Doc : Type}.

(** The body of the [try] block once the document is loaded. *)
Definition sanitizeLoaded (lib : PdfLib Doc) (o : SanitizePDFOptions)
    (name : string) (originalSize : nat) (doc : Doc) : Eff (Proc E) ProcessOutput :=
  let* stop := checkCancelled in
  if stop : bool then ret cancelledOutput
  else
    let* _ := updateProgress 30 "Analyzing PDF content..." in
    let pageCount := getPageCount doc in
    if (pageCount =? 0)%nat then
      ret (createErrorOutput PDF_MALFORMED "The PDF file contains no pages."
             (Some "Cannot sanitize an empty PDF."))
    else
      let work := {| pdfDoc := doc; removedItems := [] |} in
      let* _ := updateProgress 40 "Sanitizing PDF content..." in
      let* (_, work) := locally work (when (flattenForms o) (flattenFormsStep lib)) in
      let* _ := updateProgress 50 "Removing metadata..." in
      let* (_, work) := locally work (when (removeMetadata o) (removeMetadataStep lib)) in
      let* _ := updateProgress 60 "Removing annotations..." in
      let* (_, work) := locally work (when (removeAnnotations o) (removeAnnotationsStep lib)) in
      let* _ := updateProgress 70 "Removing JavaScript..." in
      let* (_, work) := locally work (when (removeJavaScript o) (removeJavaScriptStep lib)) in
      let* _ := updateProgress 80 "Removing embedded files..." in
      let* (_, work) := locally work (when (removeAttachments o) (removeAttachmentsStep lib)) in
      let* (_, work) := locally work (when (removeLinks o) (removeLinksStep lib)) in
      let* stop := checkCancelled in
      if stop : bool then ret cancelledOutput
      else
        let* _ := updateProgress 90 "Saving sanitized PDF..." in
        let* sanitizedPdfBytes := await (save (pdfDoc work)) in
        let newSize := length sanitizedPdfBytes in
        let* _ := updateProgress 100 "Complete!" in
        ret (createSuccessOutput (pdfBlob sanitizedPdfBytes)
               (generateSanitizedFilename name)
               [("pageCount", MNum (Z.of_nat pageCount));
                ("originalSize", MNum (Z.of_nat originalSize));
                ("newSize", MNum (Z.of_nat newSize));
                ("removedItems", MStrings (removedItems work));
                ("sanitized", MBool true)]).

(** Lines 110-123: the load, whose [catch] clause returns from [process]
    ([inr]) or rethrows. *)
Definition loadDocument (lib : PdfLib Doc) (arrayBuffer : ArrayBuffer)
  : Eff (Proc E) (Doc + ProcessOutput) :=
  try_catch
    (let* doc := await (PDFDocument_load arrayBuffer) in ret (inl doc))
    (fun error =>
       match error with
       | ErrorObject message =>
           if Str.includes message "encrypt" then
             ret (inr (createErrorOutput PDF_ENCRYPTED "The PDF file is encrypted."
                         (Some "Please decrypt the file before sanitizing.")))
           else throw error
       | OtherValue => throw error
       end).

Definition process (loadPdfLib : Res (PdfLib Doc)) (input : ProcessInput)
    (onProgress : bool) : Eff (Proc E) ProcessOutput :=
  let* _ := reset in
  let* _ := setOnProgress onProgress in
  let sanitizeOptions := mergeOptions DEFAULT_SANITIZE_OPTIONS (options input) in
  match files input with
  | [file] =>
      try_catch
        (let* _ := updateProgress 5 "Loading PDF library..." in
         let* pdfLib := await loadPdfLib in
         let* stop := checkCancelled in
         if stop : bool then ret cancelledOutput
         else
           let* _ := updateProgress 10 "Reading PDF file..." in
           let* arrayBuffer := await (fileArrayBuffer file) in
           let originalSize := length arrayBuffer in
           let* _ := updateProgress 20 "Loading PDF document..." in
           let* loaded := loadDocument pdfLib arrayBuffer in
           match loaded with
           | inr output => ret output
           | inl doc =>
               sanitizeLoaded pdfLib sanitizeOptions (fileName file) originalSize doc
           end)
        (fun error =>
           ret (createErrorOutput PROCESSING_FAILED "Failed to sanitize PDF file."
                  (Some (messageOf error))))
  | fs =>
      ret (createErrorOutput INVALID_OPTIONS
             "Please provide exactly one PDF file to sanitize."
             (Some ("Received " ++ Str.ofNat (length fs) ++ " file(s).")%string))
  end.

End Process.

End Sanitize.

(** * Properties *)

(** ** Recent files *)

Module RecentFilesProps.
Import RecentFiles.

Section WithParser.

Variable JSON_parse_text : string -> option JsonValue.

#[local] Abbreviation getRecentFiles := (getRecentFiles JSON_parse_text).
#[local] Abbreviation addRecentFile := (addRecentFile JSON_parse_text).
#[local] Abbreviation addAll := (addAll JSON_parse_text).
#[local] Abbreviation JSON_parse := (JSON_parse JSON_parse_text).

(** The backing-store states the specification tells apart. *)
Inductive BackingState : Type :=
| Unavailable
| KeyAbsent
| NotJson
| NotAnArray (j : JsonValue)
| StoredArray (l : list JsonValue).

Definition storageUsable (st : Storage) : bool :=
  window_defined st && negb (access_denied st) && writable st testKey (Literal testKey).

Definition backingState (st : Storage) : BackingState :=
  if storageUsable st then
    match items st !! STORAGE_KEY with
    | None => KeyAbsent
    | Some t =>
        match JSON_parse t with
        | Throw _ => NotJson
        | Ret (JArr l) => StoredArray l
        | Ret j => NotAnArray j
        end
    end
  else Unavailable.

(** The array a read finds under [STORAGE_KEY]. *)
Definition storedList (st : Storage) : list JsonValue :=
  match backingState st with
  | StoredArray l => l
  | _ => []
  end.

(** Storage that is present and takes every write. *)
Definition accepting (st : Storage) : Prop :=
  window_defined st = true /\ access_denied st = false /\
  forall k v, writable st k v = true.

Definition keyOf (c : AddCall) : string * string := (arg_name c, arg_toolUsed c).

(** [f.name === nm && f.toolUsed === tool] where it does not throw. *)
Definition matchesKey (nm tool : string) (f : JsonValue) : bool :=
  match f with
  | JObj fields =>
      strictEqString (assoc "name" fields) nm &&
      strictEqString (assoc "toolUsed" fields) tool
  | _ => false
  end.

Definition entryOf (c : AddCall) : JsonValue := toJson (newFileOf c).

Lemma testKey_ne_STORAGE_KEY : testKey <> STORAGE_KEY.
Proof. discriminate. Qed.

Lemma isLocalStorageAvailable_usable st :
  fst (isLocalStorageAvailable st) = Ret (storageUsable st) /\
  items (snd (isLocalStorageAvailable st)) !! STORAGE_KEY = items st !! STORAGE_KEY /\
  window_defined (snd (isLocalStorageAvailable st)) = window_defined st /\
  access_denied (snd (isLocalStorageAvailable st)) = access_denied st /\
  writable (snd (isLocalStorageAvailable st)) = writable st.
Proof.
  destruct st as [wd ad wr it].
  unfold isLocalStorageAvailable, storageUsable, try_catch, bind, setItem, removeItem, ret.
  simpl. destruct wd, ad; simpl; auto.
  destruct (wr testKey (Literal testKey)); simpl; auto.
  repeat split.
  rewrite lookup_delete_ne by apply testKey_ne_STORAGE_KEY.
  rewrite lookup_insert_ne by apply testKey_ne_STORAGE_KEY. reflexivity.
Qed.

Lemma getRecentFiles_backingState st :
  JSON_parse_text "" = None ->
  fst (getRecentFiles st) = Ret (storedList st).
Proof.
  intros Hempty.
  destruct (isLocalStorageAvailable_usable st) as (Hr & Hi & _ & Ha & _).
  unfold getRecentFiles, storedList, backingState, bind.
  destruct (isLocalStorageAvailable st) as [r st1]. simpl in *. subst r.
  destruct (storageUsable st) eqn:Hu; simpl; [|reflexivity].
  unfold try_catch, bind, getItem.
  assert (access_denied st = false) as Had.
  { unfold storageUsable in Hu. destruct (access_denied st); [|reflexivity].
    rewrite andb_false_r in Hu. discriminate. }
  rewrite Ha, Had, Hi.
  destruct (items st !! STORAGE_KEY) as [t|]; simpl; [|reflexivity].
  destruct (falsy t) eqn:Hf.
  - simpl. destruct t as [s|j]; [|discriminate].
    destruct s as [|a s]; [|discriminate]. simpl. rewrite Hempty. reflexivity.
  - unfold lift, ret. destruct (JSON_parse t) as [j|e]; simpl; [|reflexivity].
    destruct j; reflexivity.
Qed.

(** C10. [getRecentFiles] never throws: it returns the empty list when the
    storage is unavailable, the key is absent, the stored text is not JSON
    or the JSON is not an array, and the parsed array otherwise. *)
Theorem getRecentFiles_total (st : Storage) :
  JSON_parse_text "" = None ->
  fst (getRecentFiles st) =
    Ret (match backingState st with
         | Unavailable | KeyAbsent | NotJson | NotAnArray _ => []
         | StoredArray l => l
         end).
Proof.
  intros Hempty. rewrite getRecentFiles_backingState by assumption.
  unfold storedList. destruct (backingState st); reflexivity.
Qed.

Lemma sameNameAndTool_matchesKey nm tool f :
  f <> JNull -> sameNameAndTool nm tool f = Ret (matchesKey nm tool f).
Proof.
  intros Hf. unfold sameNameAndTool, matchesKey, getProp.
  destruct f; try congruence; simpl; try reflexivity.
  destruct (strictEqString (assoc "name" fields) nm); reflexivity.
Qed.

Lemma filterOut_filter nm tool l :
  Forall (fun f => f <> JNull) l ->
  filterOut nm tool l = Ret (List.filter (fun f => negb (matchesKey nm tool f)) l).
Proof.
  induction 1 as [|f l Hf Hl IH]; simpl; [reflexivity|].
  rewrite sameNameAndTool_matchesKey by assumption. rewrite IH.
  destruct (matchesKey nm tool f); reflexivity.
Qed.

Lemma matchesKey_toJson nm tool f :
  matchesKey nm tool (toJson f) = String.eqb (name f) nm && String.eqb (toolUsed f) tool.
Proof. destruct f as [i n sz p t tn]; destruct tn; reflexivity. Qed.

Lemma toJson_not_null f : toJson f <> JNull.
Proof. discriminate. Qed.

(** One insertion, on the stored array. *)
Definition inserted (c : AddCall) (l : list JsonValue) : list JsonValue :=
  take MAX_RECENT_FILES
    (entryOf c ::
     List.filter (fun f => negb (matchesKey (arg_name c) (arg_toolUsed c) f)) l).

Lemma accepting_usable st : accepting st -> storageUsable st = true.
Proof.
  intros (Hw & Ha & Hq). unfold storageUsable. rewrite Hw, Ha, Hq. reflexivity.
Qed.

Lemma accepting_with_items st m : accepting st -> accepting (with_items st m).
Proof. intros (Hw & Ha & Hq). repeat split; assumption. Qed.

Lemma storedList_with_items st m :
  accepting st -> m !! STORAGE_KEY = items st !! STORAGE_KEY ->
  storedList (with_items st m) = storedList st.
Proof.
  intros Hacc Hm. unfold storedList, backingState.
  rewrite (accepting_usable _ Hacc), (accepting_usable _ (accepting_with_items st m Hacc)).
  simpl. rewrite Hm. reflexivity.
Qed.

Lemma isLocalStorageAvailable_accepting st :
  accepting st ->
  isLocalStorageAvailable st = (Ret true, with_items st (delete testKey (items st))).
Proof.
  intros (Hw & Ha & Hq).
  unfold isLocalStorageAvailable, try_catch, bind, setItem, removeItem, ret.
  rewrite Hw, Ha, Hq. cbn. rewrite Ha. cbn. rewrite delete_insert_eq. reflexivity.
Qed.

Lemma getRecentFiles_accepting st :
  JSON_parse_text "" = None ->
  accepting st ->
  getRecentFiles st = (Ret (storedList st), with_items st (delete testKey (items st))).
Proof.
  intros Hempty Hacc.
  pose proof (getRecentFiles_backingState st Hempty) as Hfst.
  rewrite (surjective_pairing (getRecentFiles st)), Hfst. f_equal.
  unfold RecentFiles.getRecentFiles, bind.
  rewrite (isLocalStorageAvailable_accepting st Hacc). cbn [negb].
  unfold try_catch, bind, getItem. destruct Hacc as (Hw & Ha & Hq). cbn.
  rewrite Ha. destruct (delete testKey (items st) !! STORAGE_KEY) as [t|]; [|reflexivity].
  destruct (falsy t); [reflexivity|].
  unfold lift. destruct (JSON_parse t); reflexivity.
Qed.

Lemma addRecentFile_accepting c st :
  JSON_parse_text "" = None ->
  accepting st ->
  Forall (fun f => f <> JNull) (storedList st) ->
  addRecentFile c st =
    (Ret (newFileOf c),
     with_items st (<[STORAGE_KEY := Serialized (JArr (inserted c (storedList st)))]>
                      (delete testKey (items st)))).
Proof.
  intros Hempty Hacc Hnn.
  set (st1 := with_items st (delete testKey (items st))).
  assert (accepting st1) as Hacc1 by (apply accepting_with_items; assumption).
  assert (storedList st1 = storedList st) as Hsl.
  { apply storedList_with_items; [assumption|].
    apply lookup_delete_ne, testKey_ne_STORAGE_KEY. }
  unfold RecentFiles.addRecentFile, bind.
  rewrite (isLocalStorageAvailable_accepting st Hacc). fold st1. cbn [negb].
  unfold try_catch, bind.
  rewrite (getRecentFiles_accepting st1 Hempty Hacc1), Hsl.
  unfold lift. rewrite filterOut_filter by assumption.
  unfold setItem, ret. destruct Hacc as (Hw & Ha & Hq). cbn [access_denied writable with_items st1].
  rewrite Ha, Hq. unfold st1. cbn [items with_items window_defined access_denied writable].
  rewrite delete_delete_eq. reflexivity.
Qed.

Lemma addRecentFile_stored c st :
  JSON_parse_text "" = None ->
  accepting st ->
  Forall (fun f => f <> JNull) (storedList st) ->
  fst (addRecentFile c st) = Ret (newFileOf c) /\
  accepting (snd (addRecentFile c st)) /\
  storedList (snd (addRecentFile c st)) = inserted c (storedList st).
Proof.
  intros Hempty Hacc Hnn.
  rewrite (addRecentFile_accepting c st Hempty Hacc Hnn). cbn [fst snd].
  split; [reflexivity|]. split; [apply accepting_with_items; assumption|].
  unfold storedList at 1, backingState.
  rewrite (accepting_usable _ (accepting_with_items st _ Hacc)).
  cbn [items with_items]. rewrite lookup_insert_eq. reflexivity.
Qed.

(** The stored array after a run of insertions, oldest call first. *)
Fixpoint insertedAll (calls : list AddCall) (l : list JsonValue) : list JsonValue :=
  match calls with
  | [] => l
  | c :: rest => insertedAll rest (inserted c l)
  end.

Lemma inserted_not_null c l :
  Forall (fun f => f <> JNull) l -> Forall (fun f => f <> JNull) (inserted c l).
Proof.
  intros Hl. unfold inserted. apply Forall_take. constructor.
  - apply toJson_not_null.
  - rewrite Forall_forall in *. intros f Hf. apply Hl.
    apply list_elem_of_In. apply list_elem_of_In in Hf.
    apply filter_In in Hf. tauto.
Qed.

Lemma addAll_stored calls : forall st,
  JSON_parse_text "" = None ->
  accepting st ->
  Forall (fun f => f <> JNull) (storedList st) ->
  storedList (addAll calls st) = insertedAll calls (storedList st).
Proof.
  induction calls as [|c rest IH]; intros st Hempty Hacc Hnn; simpl; [reflexivity|].
  destruct (addRecentFile_stored c st Hempty Hacc Hnn) as (_ & Hacc' & Hs).
  rewrite IH; try assumption.
  - rewrite Hs. reflexivity.
  - rewrite Hs. apply inserted_not_null. assumption.
Qed.

Lemma insertedAll_app cs c l :
  insertedAll (cs ++ [c]) l = inserted c (insertedAll cs l).
Proof. revert l. induction cs as [|c' cs IH]; intros l; simpl; [reflexivity|apply IH]. Qed.

Lemma filter_keeps_distinct c (cs : list AddCall) :
  keyOf c ∉ map keyOf cs ->
  List.filter (fun f => negb (matchesKey (arg_name c) (arg_toolUsed c) f))
    (map entryOf cs) = map entryOf cs.
Proof.
  induction cs as [|c' cs IH]; intros Hnot; [reflexivity|].
  cbn [map] in *. apply not_elem_of_cons in Hnot as [Hne Hnot].
  change (List.filter ?p (entryOf c' :: ?l))
    with (if p (entryOf c') then entryOf c' :: List.filter p l else List.filter p l).
  cbv beta. unfold entryOf at 1. rewrite matchesKey_toJson. cbn [name toolUsed newFileOf].
  destruct (String.eqb (arg_name c') (arg_name c)) eqn:E1;
    destruct (String.eqb (arg_toolUsed c') (arg_toolUsed c)) eqn:E2; cbn [andb negb];
    try (rewrite IH by assumption; reflexivity).
  apply String.eqb_eq in E1, E2. exfalso. apply Hne. unfold keyOf. congruence.
Qed.

(** After a run of insertions with pairwise distinct keys, the stored array
    starts with the (at most ten) latest entries, newest first, and is at
    most ten long. *)
Lemma insertedAll_prefix cs : forall l,
  NoDup (map keyOf cs) ->
  exists r, insertedAll cs l = map entryOf (take MAX_RECENT_FILES (rev cs)) ++ r /\
            (cs <> [] -> length (insertedAll cs l) <= MAX_RECENT_FILES).
Proof.
  induction cs as [|c cs IH] using rev_ind; intros l Hnd.
  - exists l. split; [reflexivity|congruence].
  - rewrite map_app in Hnd. apply NoDup_app in Hnd as (Hnd & Hdisj & _).
    destruct (IH l Hnd) as (r & Hr & _).
    rewrite insertedAll_app, Hr. unfold inserted.
    assert (keyOf c ∉ map keyOf (take MAX_RECENT_FILES (rev cs))) as Hfresh.
    { intros Hin. apply (Hdisj (keyOf c)); [|simpl; left].
      apply list_elem_of_fmap in Hin as (c' & Hk & Hc').
      apply list_elem_of_fmap. exists c'. split; [assumption|].
      apply elem_of_take in Hc' as (i & Hc' & _).
      apply list_elem_of_lookup_2, list_elem_of_In, in_rev in Hc'.
      apply list_elem_of_In. exact Hc'. }
    rewrite List.filter_app, (filter_keeps_distinct c _ Hfresh).
    rewrite rev_app_distr. simpl rev. simpl app at 2.
    set (A := map entryOf (take MAX_RECENT_FILES (rev cs))).
    set (R := List.filter _ r).
    exists (take (MAX_RECENT_FILES - length (entryOf c :: A)) R). split.
    + change (entryOf c :: A ++ R) with ((entryOf c :: A) ++ R).
      rewrite take_app. f_equal.
      unfold A, MAX_RECENT_FILES. simpl. f_equal.
      rewrite <- fmap_take. change (@fmap list _ _ _ entryOf) with (map entryOf).
      rewrite take_take. reflexivity.
    + intros _. rewrite length_take. unfold MAX_RECENT_FILES. lia.
Qed.

(** C6. With storage that takes the writes: eleven insertions with pairwise
    distinct [(name, toolUsed)] leave exactly the ten latest entries, newest
    first; and inserting a pair that already occurs puts the new entry in
    front, removes every entry with that pair behind it and does not
    lengthen the list. *)
Theorem addRecentFile_cap_and_dedup :
  JSON_parse_text "" = None ->
  (forall (st : Storage) (calls : list AddCall),
      accepting st ->
      Forall (fun f => f <> JNull) (storedList st) ->
      length calls = 11 ->
      NoDup (map keyOf calls) ->
      storedList (addAll calls st) = map entryOf (take 10 (rev calls)) /\
      length (storedList (addAll calls st)) = 10) /\
  (forall (st : Storage) (c : AddCall) (old : JsonValue),
      accepting st ->
      Forall (fun f => f <> JNull) (storedList st) ->
      old ∈ storedList st ->
      matchesKey (arg_name c) (arg_toolUsed c) old = true ->
      let after := storedList (snd (addRecentFile c st)) in
      head after = Some (entryOf c) /\
      Forall (fun f => matchesKey (arg_name c) (arg_toolUsed c) f = false) (tail after) /\
      length after <= length (storedList st)).
Proof.
  intros Hempty. split.
  - intros st calls Hacc Hnn Hlen Hnd.
    rewrite addAll_stored by assumption.
    destruct (insertedAll_prefix calls (storedList st) Hnd) as (r & Hr & Hle).
    assert (calls <> []) as Hne by (intros ->; discriminate).
    specialize (Hle Hne). rewrite Hr in Hle.
    assert (length (map entryOf (take MAX_RECENT_FILES (rev calls))) = 10) as HlenA.
    { rewrite length_map, length_take, length_rev, Hlen. reflexivity. }
    rewrite length_app, HlenA in Hle. unfold MAX_RECENT_FILES in *.
    destruct r; [|simpl in Hle; lia].
    rewrite Hr, app_nil_r. auto.
  - intros st c old Hacc Hnn Hin Hmatch after.
    destruct (addRecentFile_stored c st Hempty Hacc Hnn) as (_ & _ & Hs).
    subst after. rewrite Hs. unfold inserted, MAX_RECENT_FILES. simpl.
    split; [reflexivity|]. split.
    + apply Forall_take. rewrite Forall_forall. intros f Hf.
      apply list_elem_of_In, filter_In in Hf as [_ Hf].
      destruct (matchesKey (arg_name c) (arg_toolUsed c) f); [discriminate|reflexivity].
    + rewrite length_take.
      set (p := fun f => negb (matchesKey (arg_name c) (arg_toolUsed c) f)).
      assert (length (List.filter p (storedList st)) < length (storedList st)); [|lia].
      clear Hs Hnn. induction (storedList st) as [|f l IH]; [inversion Hin|].
      simpl. apply elem_of_cons in Hin as [<-|Hin].
      * unfold p at 1. rewrite Hmatch. simpl.
        pose proof (List.filter_length_le p l). lia.
      * specialize (IH Hin). destruct (p f); simpl; lia.
Qed.

End WithParser.

(** *** A concrete storage *)

(** A parser that knows two texts; every other text is a SyntaxError. *)
Definition sampleParser (s : string) : option JsonValue :=
  if String.eqb s "[]" then Some (JArr [])
  else if String.eqb s "null" then Some JNull
  else None.

Definition sampleStorage (m : gmap string StoredText) : Storage :=
  {| window_defined := true; access_denied := false;
     writable := fun _ _ => true; items := m |}.

Definition sampleCall (nm tool ident : string) : AddCall :=
  {| arg_name := nm; arg_size := 1024; arg_toolUsed := tool; arg_toolName := None;
     generatedId := ident; isoNow := "2024-01-01T00:00:00.000Z" |}.

Definition elevenCalls : list AddCall :=
  map (fun n => sampleCall n "merge" ("id-" ++ n))
      ["a.pdf"; "b.pdf"; "c.pdf"; "d.pdf"; "e.pdf"; "f.pdf";
       "g.pdf"; "h.pdf"; "i.pdf"; "j.pdf"; "k.pdf"].

Definition twoStored : Storage :=
  sampleStorage {[ STORAGE_KEY :=
    Serialized (JArr [entryOf (sampleCall "a.pdf" "merge" "id-1");
                      entryOf (sampleCall "b.pdf" "crop" "id-2")]) ]}.

Lemma sampleStorage_accepting m : accepting (sampleStorage m).
Proof. repeat split. Qed.

Lemma getRecentFiles_total_witness :
  fst (getRecentFiles sampleParser (sampleStorage {[ STORAGE_KEY := Literal "[]" ]})) = Ret [] /\
  fst (getRecentFiles sampleParser (sampleStorage {[ STORAGE_KEY := Literal "null" ]})) = Ret [] /\
  fst (getRecentFiles sampleParser (sampleStorage {[ STORAGE_KEY := Literal "{oops" ]})) = Ret [] /\
  fst (getRecentFiles sampleParser (sampleStorage ∅)) = Ret [] /\
  fst (getRecentFiles sampleParser twoStored) =
    Ret [entryOf (sampleCall "a.pdf" "merge" "id-1");
         entryOf (sampleCall "b.pdf" "crop" "id-2")].
Proof.
  refine (conj _ (conj _ (conj _ (conj _ _))));
    exact (getRecentFiles_total sampleParser _ eq_refl).
Defined.

Lemma addRecentFile_cap_and_dedup_witness :
  (storedList sampleParser (addAll sampleParser elevenCalls twoStored) =
     map entryOf (take 10 (rev elevenCalls)) /\
   length (storedList sampleParser (addAll sampleParser elevenCalls twoStored)) = 10) /\
  (let c := sampleCall "a.pdf" "merge" "id-3" in
   let after := storedList sampleParser (snd (addRecentFile sampleParser c twoStored)) in
   head after = Some (entryOf c) /\
   Forall (fun f => matchesKey "a.pdf" "merge" f = false) (tail after) /\
   length after <= 2).
Proof.
  destruct (addRecentFile_cap_and_dedup sampleParser eq_refl) as [Hcap Hdup].
  split.
  - apply Hcap.
    + apply sampleStorage_accepting.
    + repeat constructor; discriminate.
    + reflexivity.
    + apply (bool_decide_unpack _). vm_compute. exact I.
  - apply (Hdup twoStored (sampleCall "a.pdf" "merge" "id-3")
                (entryOf (sampleCall "a.pdf" "merge" "id-1"))).
    + apply sampleStorage_accepting.
    + repeat constructor; discriminate.
    + left.
    + reflexivity.
Defined.

End RecentFilesProps.

(** ** Resumable project store *)

Module ProjectDBProps.
Import ProjectDB.

(** Every field the update carries, [updatedAt] aside, is the field of [r]. *)
Definition reflected (u : ProjectUpdate) (r : ProjectState) : Prop :=
  (forall v, u_name u = Some v -> name r = v) /\
  (forall v, u_toolId u = Some v -> toolId r = v) /\
  (forall v, u_toolName u = Some v -> toolName r = v) /\
  (forall v, u_status u = Some v -> status r = v) /\
  (forall v, u_options u = Some v -> options r = v) /\
  (forall v, u_fileMetadata u = Some v -> fileMetadata r = v) /\
  (forall v, u_progress u = Some v -> progress r = v).

Lemma merge_reflected p u now : reflected u (merge p u now).
Proof.
  unfold reflected, merge; cbn.
  repeat split; intros v Hv; rewrite Hv; reflexivity.
Qed.

Lemma updateProject_existing db pid p u now :
  opening db = Opened ->
  get_succeeds db pid = true ->
  projects db !! pid = Some p ->
  put_succeeds db (merge p u now) = true ->
  updateProject pid u now db =
    (Ret (Some (merge p u now)),
     with_projects db (<[id p := merge p u now]> (projects db))).
Proof.
  intros Ho Hg Hp Hput.
  unfold updateProject, bind, openDatabase, get, put, ret.
  rewrite Ho, Hg. cbn [negb]. rewrite Hp, Hput. reflexivity.
Qed.

Lemma updateProject_unknown db pid u now :
  opening db = Opened ->
  get_succeeds db pid = true ->
  projects db !! pid = None ->
  updateProject pid u now db = (Ret None, db).
Proof.
  intros Ho Hg Hp.
  unfold updateProject, bind, openDatabase, get, ret.
  rewrite Ho, Hg. cbn [negb]. rewrite Hp. reflexivity.
Qed.

(** *** A store with one completed project *)

Definition doneProject : ProjectState :=
  {| id := "project_1"; name := "Merge report"; toolId := "merge-pdf";
     toolName := Some "Merge PDF"; createdAt := 1000%Z; updatedAt := 2000%Z;
     status := completed; options := []; fileMetadata := []; progress := 100%Q |}.

Definition doneDB : Database :=
  {| opening := Opened; get_succeeds := fun _ => true; put_succeeds := fun _ => true;
     projects := {[ "project_1" := doneProject ]} |}.

Definition reopen : ProjectUpdate :=
  {| u_name := None; u_toolId := None; u_toolName := None; u_updatedAt := None;
     u_status := Some in_progress; u_options := None; u_fileMetadata := None;
     u_progress := None |}.

Definition halfway : ProjectUpdate :=
  {| u_name := None; u_toolId := None; u_toolName := None; u_updatedAt := None;
     u_status := None; u_options := None; u_fileMetadata := None;
     u_progress := Some 50%Q |}.

Definition backdated : ProjectUpdate :=
  {| u_name := None; u_toolId := None; u_toolName := None; u_updatedAt := Some 1500%Z;
     u_status := None; u_options := None; u_fileMetadata := None;
     u_progress := None |}.

Definition offlineDB : Database :=
  {| opening := NoIndexedDB; get_succeeds := fun _ => true; put_succeeds := fun _ => true;
     projects := ∅ |}.

(** C2, as stated, fails: on a stored project whose status is [completed],
    an update carrying [status: 'in_progress'] is applied; the call
    resolves with the reopened record and the store holds it. *)
Lemma completed_project_reopened :
  status <$> projects doneDB !! "project_1" = Some completed /\
  status <$> projects (snd (updateProject "project_1" reopen 3000%Z doneDB)) !! "project_1"
    = Some in_progress /\
  fst (updateProject "project_1" reopen 3000%Z doneDB)
    = Ret (Some (merge doneProject reopen 3000%Z)).
Proof. vm_compute. auto. Qed.

(** C2, amended. [updateProject] checks no transition: when the update goes
    through, the stored status is the one the update carries, whatever the
    status was, and the old status is kept only when the update carries
    none. *)
Theorem updateProject_status_overwritten
    (db : Database) (p : ProjectState) (u : ProjectUpdate) (now : Timestamp) :
  opening db = Opened ->
  get_succeeds db (id p) = true ->
  projects db !! id p = Some p ->
  put_succeeds db (merge p u now) = true ->
  exists r,
    fst (updateProject (id p) u now db) = Ret (Some r) /\
    projects (snd (updateProject (id p) u now db)) !! id p = Some r /\
    status r = match u_status u with
               | Some s => s
               | None => status p
               end.
Proof.
  intros Ho Hg Hp Hput. exists (merge p u now).
  rewrite (updateProject_existing db (id p) p u now Ho Hg Hp Hput). cbn [fst snd].
  split; [reflexivity|]. split.
  - cbn [projects with_projects]. apply lookup_insert_eq.
  - cbn. destruct (u_status u); reflexivity.
Qed.

Lemma updateProject_status_overwritten_witness :
  exists r,
    fst (updateProject "project_1" reopen 3000%Z doneDB) = Ret (Some r) /\
    projects (snd (updateProject "project_1" reopen 3000%Z doneDB)) !! "project_1" = Some r /\
    status r = in_progress.
Proof.
  exact (updateProject_status_overwritten doneDB doneProject reopen 3000%Z
           eq_refl eq_refl eq_refl eq_refl).
Defined.

(** C5, as stated, fails in three ways: an update made in the millisecond
    the record was last written returns an [updatedAt] that is not greater;
    an [updatedAt] carried by the update is not reflected; and with
    IndexedDB unavailable the call on an unknown id throws. *)
Lemma updatedAt_not_strictly_greater :
  (exists r, fst (updateProject "project_1" halfway 2000%Z doneDB) = Ret (Some r) /\
             ~ (updatedAt doneProject < updatedAt r)%Z) /\
  (exists r, fst (updateProject "project_1" backdated 3000%Z doneDB) = Ret (Some r) /\
             u_updatedAt backdated = Some 1500%Z /\ updatedAt r <> 1500%Z) /\
  (projects offlineDB !! "project_9" = None /\
   fst (updateProject "project_9" halfway 3000%Z offlineDB)
     = Throw (ErrorObject "IndexedDB not available")).
Proof.
  split; [|split].
  - eexists. split; [vm_compute; reflexivity|]. cbn. lia.
  - eexists. split; [vm_compute; reflexivity|]. split; [reflexivity|]. cbn. lia.
  - split; reflexivity.
Qed.

(** C5, amended. When the database opens and its requests succeed:
    [updateProject] on a stored project returns the record with every field
    of the update other than [updatedAt] reflected, [id] and [createdAt]
    kept, and [updatedAt] set to the time of the call, which is greater than
    the previous one when the clock has advanced past it; on an id that is
    not stored it returns [null] and leaves the store as it was. *)
Theorem updateProject_merges
    (db : Database) (pid : string) (u : ProjectUpdate) (now : Timestamp) :
  opening db = Opened ->
  get_succeeds db pid = true ->
  match projects db !! pid with
  | None => updateProject pid u now db = (Ret None, db)
  | Some p =>
      put_succeeds db (merge p u now) = true ->
      exists r,
        fst (updateProject pid u now db) = Ret (Some r) /\
        reflected u r /\
        id r = id p /\ createdAt r = createdAt p /\
        updatedAt r = now /\
        ((updatedAt p < now)%Z -> (updatedAt p < updatedAt r)%Z)
  end.
Proof.
  intros Ho Hg. destruct (projects db !! pid) as [p|] eqn:Hp.
  - intros Hput. exists (merge p u now).
    rewrite (updateProject_existing db pid p u now Ho Hg Hp Hput). cbn [fst].
    split; [reflexivity|]. split; [apply merge_reflected|].
    cbn. auto.
  - apply updateProject_unknown; assumption.
Qed.

Lemma updateProject_merges_witness :
  (exists r,
     fst (updateProject "project_1" halfway 3000%Z doneDB) = Ret (Some r) /\
     reflected halfway r /\
     id r = "project_1" /\ createdAt r = 1000%Z /\ updatedAt r = 3000%Z /\
     ((2000 < 3000)%Z -> (2000 < updatedAt r)%Z)) /\
  updateProject "project_9" halfway 3000%Z doneDB = (Ret None, doneDB).
Proof.
  split.
  - exact (updateProject_merges doneDB "project_1" halfway 3000%Z eq_refl eq_refl eq_refl).
  - exact (updateProject_merges doneDB "project_9" halfway 3000%Z eq_refl eq_refl).
Defined.

End ProjectDBProps.

(** ** Font cache *)

Module FontCacheProps.
Import FontCache.

Lemma tryOpenThenReturn_opens {A} (request : Eff FontWorld A) (fallback : A) w :
  db_opens w = true ->
  tryOpenThenReturn openFontDB request fallback w = request w.
Proof.
  intros Ho. unfold tryOpenThenReturn, bind, try_catch, openFontDB, ret.
  rewrite Ho. reflexivity.
Qed.

(** A database that does not open is the failure the [catch] clause sees. *)
Lemma tryOpenThenReturn_closed {A} (request : Eff FontWorld A) (fallback : A) w :
  db_opens w = false ->
  tryOpenThenReturn openFontDB request fallback w = (Ret fallback, w).
Proof.
  intros Ho. unfold tryOpenThenReturn, bind, try_catch, openFontDB, ret.
  rewrite Ho. reflexivity.
Qed.

Lemma loadFont_memory_hit k url b w :
  fontCache w !! k = Some b -> loadFont k url w = (Ret b, w).
Proof.
  intros Hm. unfold loadFont, bind, get, ret. rewrite Hm. reflexivity.
Qed.

Lemma cachePut_unfold k b w :
  cachePut k b w = saveFontToDB k b (with_fontCache w (<[k := b]> (fontCache w))).
Proof. reflexivity. Qed.

Lemma saveFontToDB_fontCache k b w :
  fontCache (snd (saveFontToDB k b w)) = fontCache w.
Proof.
  unfold saveFontToDB. destruct (db_opens w) eqn:Ho.
  - rewrite tryOpenThenReturn_opens by assumption. unfold storePut.
    destruct (put_succeeds w k b); reflexivity.
  - rewrite tryOpenThenReturn_closed by assumption. reflexivity.
Qed.

Lemma cachePut_memory k b w : fontCache (snd (cachePut k b w)) !! k = Some b.
Proof.
  rewrite cachePut_unfold, saveFontToDB_fontCache. apply lookup_insert_eq.
Qed.

Lemma cachePut_durable k b w :
  db_opens w = true -> put_succeeds w k b = true ->
  fst (cachePut k b w) = Ret tt /\ fontDB (snd (cachePut k b w)) !! k = Some b.
Proof.
  intros Ho Hp. rewrite cachePut_unfold. unfold saveFontToDB.
  rewrite tryOpenThenReturn_opens by exact Ho.
  unfold storePut. cbn [put_succeeds with_fontCache]. rewrite Hp. cbn [fst snd].
  split; [reflexivity|apply lookup_insert_eq].
Qed.

(** The put is what [loadFont] does once both tiers have missed and the
    fetch has answered. *)
Lemma loadFont_fetch_then_put k url b w :
  fontCache w !! k = None ->
  getCachedFontFromDB k w = (Ret None, w) ->
  fetch w url = Response true (Ret b) ->
  loadFont k url w =
    (match fst (cachePut k b w) with
     | Ret _ => Ret b
     | Throw e => Throw e
     end, snd (cachePut k b w)).
Proof.
  intros Hmem Hdb Hfetch. unfold loadFont, bind, get. rewrite Hmem, Hdb.
  unfold fetchFont, bind, get. rewrite Hfetch. cbn [negb]. unfold lift.
  destruct (cachePut k b w) as [[[]|e] w1]; reflexivity.
Qed.

(** The durable store is only read by a lookup. *)
Lemma getCachedFontFromDB_reads k w : snd (getCachedFontFromDB k w) = w.
Proof.
  unfold getCachedFontFromDB. destruct (db_opens w) eqn:Ho.
  - rewrite tryOpenThenReturn_opens by assumption. unfold storeGet.
    destruct (get_succeeds w k); reflexivity.
  - rewrite tryOpenThenReturn_closed by assumption. reflexivity.
Qed.

(** The durable tier answers with what the store holds under [k], and the
    memory tier is filled with it. *)
Lemma loadFont_durable_hit k url b w :
  fontCache w !! k = None ->
  db_opens w = true -> get_succeeds w k = true ->
  fontDB w !! k = Some b ->
  loadFont k url w = (Ret b, with_fontCache w (<[k := b]> (fontCache w))).
Proof.
  intros Hmiss Ho Hg Hdb. unfold loadFont, bind, get. rewrite Hmiss.
  unfold getCachedFontFromDB. rewrite tryOpenThenReturn_opens by assumption.
  unfold storeGet. rewrite Hg, Hdb. reflexivity.
Qed.

(** C3. A call of [loadFont k url] that finds [k] in neither tier and
    fetches [b] puts [b] under [k]. In the world [w1] it leaves, the memory
    tier holds [b] under [k]: a lookup of [k] in any world with that memory
    tier returns [b] and changes nothing, whatever the database and the
    network do there, and whether or not the database took the put. When
    the database opened and took the put, the call resolves with [b] and
    the durable store of [w1] holds [b] under [k]: a lookup of [k] in any
    world with that durable store whose memory tier has lost [k] still
    returns [b], read from the durable store whatever the network does, and
    puts it back into the memory tier. *)
Theorem font_cache_round_trip (w : FontWorld) (k url : string) (b : ArrayBuffer) :
  fontCache w !! k = None ->
  fst (getCachedFontFromDB k w) = Ret None ->
  fetch w url = Response true (Ret b) ->
  let w1 := snd (loadFont k url w) in
  fontCache w1 !! k = Some b /\
  (forall (w' : FontWorld) (url' : string),
     fontCache w' = fontCache w1 ->
     loadFont k url' w' = (Ret b, w')) /\
  (db_opens w = true -> put_succeeds w k b = true ->
   fst (loadFont k url w) = Ret b /\
   fontDB w1 !! k = Some b /\
   forall (w2 : FontWorld) (url' : string),
     fontDB w2 = fontDB w1 ->
     fontCache w2 !! k = None ->
     db_opens w2 = true -> get_succeeds w2 k = true ->
     loadFont k url' w2 = (Ret b, with_fontCache w2 (<[k := b]> (fontCache w2)))).
Proof.
  intros Hmiss Hdb Hfetch w1.
  assert (getCachedFontFromDB k w = (Ret None, w)) as Hdb'.
  { pose proof (getCachedFontFromDB_reads k w) as Hread.
    destruct (getCachedFontFromDB k w) as [r w0]. cbn [fst snd] in *. congruence. }
  pose proof (loadFont_fetch_then_put k url b w Hmiss Hdb' Hfetch) as Hload.
  assert (w1 = snd (cachePut k b w)) as Hw1 by (unfold w1; rewrite Hload; reflexivity).
  split; [rewrite Hw1; apply cachePut_memory|]. split.
  - intros w' url' Hmem. apply loadFont_memory_hit.
    rewrite Hmem, Hw1. apply cachePut_memory.
  - intros Ho Hp. destruct (cachePut_durable k b w Ho Hp) as [Hput Hdur].
    split; [rewrite Hload, Hput; reflexivity|].
    split; [rewrite Hw1; exact Hdur|].
    intros w2 url' Hstore Hmiss2 Ho2 Hg2.
    apply loadFont_durable_hit; try assumption.
    rewrite Hstore, Hw1. exact Hdur.
Qed.

(** *** A font fetched once *)

Definition fontBytes : ArrayBuffer := [Byte.x00; Byte.x01; Byte.x00; Byte.x00].

Definition notoUrl : string :=
  "https://raw.githack.com/googlefonts/noto-fonts/main/hinted/ttf/NotoSans/NotoSans-Regular.ttf".

Definition coldWorld (putOk : bool) : FontWorld :=
  {| fontCache := ∅; fontDB := ∅; db_opens := true;
     get_succeeds := fun _ => true; put_succeeds := fun _ _ => putOk;
     fetch := fun _ => Response true (Ret fontBytes) |}.

(** The world [w] with its network down. *)
Definition offline (w : FontWorld) : FontWorld :=
  {| fontCache := fontCache w; fontDB := fontDB w; db_opens := db_opens w;
     get_succeeds := get_succeeds w; put_succeeds := put_succeeds w;
     fetch := fun _ => NetworkError |}.

Lemma font_cache_round_trip_witness :
  let w1 := snd (loadFont "noto-sans" notoUrl (coldWorld true)) in
  fst (loadFont "noto-sans" notoUrl (coldWorld true)) = Ret fontBytes /\
  loadFont "noto-sans" notoUrl (offline w1) = (Ret fontBytes, offline w1) /\
  loadFont "noto-sans" notoUrl (offline (with_fontCache w1 ∅)) =
    (Ret fontBytes,
     with_fontCache (offline (with_fontCache w1 ∅)) {[ "noto-sans" := fontBytes ]}).
Proof.
  destruct (font_cache_round_trip (coldWorld true) "noto-sans" notoUrl fontBytes
              eq_refl eq_refl eq_refl) as (_ & Hmem & Hdur).
  destruct (Hdur eq_refl eq_refl) as (Hret & _ & Hback).
  split; [exact Hret|]. split.
  - apply Hmem. reflexivity.
  - apply (Hback (offline (with_fontCache
                    (snd (loadFont "noto-sans" notoUrl (coldWorld true))) ∅)));
      reflexivity.
Defined.

(** A database that cannot be opened is swallowed: the put resolves and
    [loadFont] resolves with the fetched bytes. *)
Lemma saveFontToDB_open_failure_swallowed k b w :
  db_opens w = false -> saveFontToDB k b w = (Ret tt, w).
Proof. apply tryOpenThenReturn_closed. Qed.

(** A put request that fails is not: the promise [saveFontToDB] returns
    rejects, and so does [loadFont]. *)
Lemma saveFontToDB_put_failure_rejects k b w :
  db_opens w = true -> put_succeeds w k b = false ->
  saveFontToDB k b w = (Throw (ErrorObject "put request failed"), w).
Proof.
  intros Ho Hp. unfold saveFontToDB. rewrite tryOpenThenReturn_opens by assumption.
  unfold storePut. rewrite Hp. reflexivity.
Qed.

(** C4 fails on the code: with the database open and the put request
    failing, [saveFontToDB] rejects, and [loadFont], which had fetched the
    bytes and filled the memory tier, rejects with the same error. *)
Lemma loadFont_rejects_on_failed_put :
  saveFontToDB "noto-sans" fontBytes (coldWorld false)
    = (Throw (ErrorObject "put request failed"), coldWorld false) /\
  fst (loadFont "noto-sans" notoUrl (coldWorld false))
    = Throw (ErrorObject "put request failed") /\
  fontCache (snd (loadFont "noto-sans" notoUrl (coldWorld false))) !! "noto-sans"
    = Some fontBytes.
Proof.
  split; [apply saveFontToDB_put_failure_rejects; reflexivity|].
  split; vm_compute; reflexivity.
Qed.

End FontCacheProps.

(** ** The processor contract *)

Module ProcessorProps.
Import Processor.

Local Open Scope Q_scope.

(** The percentages the observer was called with, in order. *)
Definition percentages {E} (w : Proc E) : list Q := map fst (observed w).

(** The progress reports of an invocation so far never decrease and lie
    between 0 and [b]. *)
Definition upTo {E} (b : Q) (w : Proc E) : Prop :=
  0 <= b /\
  StronglySorted Qle (percentages w) /\
  Forall (fun p => 0 <= p /\ p <= b) (percentages w).

(** Running [m] keeps the reports in order and takes their bound from [lo]
    to [hi], whether it returns or throws. *)
Definition climbs {E A} (lo hi : Q) (m : Eff (Proc E) A) : Prop :=
  forall w, upTo lo w -> upTo hi (snd (m w)).

(** [m] reports no progress. *)
Definition silent {E A} (m : Eff (Proc E) A) : Prop :=
  forall w, observed (snd (m w)) = observed w.

(** [m] polls no cancellation. *)
Definition nopoll {E A} (m : Eff (Proc E) A) : Prop :=
  forall w, polls (snd (m w)) = polls w.

Ltac qle := first [ apply Qle_refl | assumption | (unfold Qle; simpl; lia) ].

Section Rules.

Context {E : Type}.
Implicit Types w : Proc E.

Lemma StronglySorted_snoc (l : list Q) (p : Q) :
  StronglySorted Qle l -> Forall (fun q => q <= p) l ->
  StronglySorted Qle (l ++ [p]).
Proof.
  induction 1 as [|q l Hl IH Hq]; intros Hall; simpl.
  - repeat constructor.
  - inversion Hall; subst. constructor; [apply IH; assumption|].
    apply Forall_app. split; [assumption|]. repeat constructor. assumption.
Qed.

Lemma upTo_mono b b' w : upTo b w -> b <= b' -> upTo b' w.
Proof.
  intros (H0 & Hs & Hb) Hle. split; [eapply Qle_trans; eassumption|].
  split; [assumption|]. eapply Forall_impl; [exact Hb|].
  intros p [Hp0 Hpb]. split; [assumption|eapply Qle_trans; eassumption].
Qed.

Lemma upTo_updateProgress b p msg w :
  upTo b w -> b <= p -> upTo p (snd (updateProgress p msg w)).
Proof.
  intros (H0 & Hs & Hb) Hle.
  assert (0 <= p) as Hp by (eapply Qle_trans; eassumption).
  unfold updateProgress, upTo, percentages in *. cbn [snd observed].
  split; [assumption|]. destruct (observer w).
  - rewrite map_app. cbn [map fst]. split.
    + apply StronglySorted_snoc; [assumption|].
      eapply Forall_impl; [exact Hb|]. intros q [_ Hq]. cbv beta.
      eapply Qle_trans; eassumption.
    + apply Forall_app. split.
      * eapply Forall_impl; [exact Hb|]. intros q [Hq0 Hq]. cbv beta.
        split; [assumption|eapply Qle_trans; eassumption].
      * repeat constructor; [assumption|apply Qle_refl].
  - split; [assumption|]. eapply Forall_impl; [exact Hb|].
    intros q [Hq0 Hq]. cbv beta. split; [assumption|eapply Qle_trans; eassumption].
Qed.

Lemma climbs_updateProgress lo hi p msg :
  lo <= p -> p <= hi -> climbs (E:=E) lo hi (updateProgress p msg).
Proof.
  intros Hlo Hhi w Hw. eapply upTo_mono; [|exact Hhi].
  apply upTo_updateProgress with (b := lo); assumption.
Qed.

Lemma climbs_silent {A} lo hi (m : Eff (Proc E) A) :
  silent m -> lo <= hi -> climbs lo hi m.
Proof.
  intros Hm Hle w Hw. apply upTo_mono with (b := lo); [|assumption].
  unfold upTo, percentages in *. rewrite Hm. assumption.
Qed.

Lemma climbs_weaken {A} lo lo' hi hi' (m : Eff (Proc E) A) :
  climbs lo hi m -> lo' <= lo -> hi <= hi' -> climbs lo' hi' m.
Proof.
  intros Hm Hlo Hhi w Hw. eapply upTo_mono; [|exact Hhi].
  apply Hm. eapply upTo_mono; eassumption.
Qed.

Lemma climbs_bind {A B} lo mid hi (m : Eff (Proc E) A) (k : A -> Eff (Proc E) B) :
  climbs lo mid m -> (forall a, climbs mid hi (k a)) -> mid <= hi ->
  climbs lo hi (bind m k).
Proof.
  intros Hm Hk Hle w Hw. specialize (Hm w Hw). unfold bind.
  destruct (m w) as [[a|e] w1]; cbn [snd] in *.
  - apply Hk. assumption.
  - eapply upTo_mono; eassumption.
Qed.

Lemma climbs_try_catch {A} lo mid hi (m : Eff (Proc E) A) (h : Thrown -> Eff (Proc E) A) :
  climbs lo mid m -> (forall e, climbs mid hi (h e)) -> mid <= hi ->
  climbs lo hi (try_catch m h).
Proof.
  intros Hm Hh Hle w Hw. specialize (Hm w Hw). unfold try_catch.
  destruct (m w) as [[a|e] w1]; cbn [snd] in *.
  - eapply upTo_mono; eassumption.
  - apply Hh. assumption.
Qed.

(** *** What the primitives leave alone *)

Lemma silent_ret {A} (a : A) : silent (E:=E) (ret a).
Proof. intros w. reflexivity. Qed.

Lemma silent_throw {A} e : silent (E:=E) (A:=A) (throw e).
Proof. intros w. reflexivity. Qed.

Lemma silent_lift {A} (r : Res A) : silent (E:=E) (lift r).
Proof. intros w. reflexivity. Qed.

Lemma silent_await {A} (r : Res A) : silent (E:=E) (await r).
Proof. intros w. reflexivity. Qed.

Lemma silent_awaitCall {A} (m : Eff E A) : silent (awaitCall m).
Proof. intros w. unfold awaitCall. destruct (m (ext w)). reflexivity. Qed.

Lemma silent_awaitOn {H A} (h : H) (m : Eff H A) : silent (E:=E) (awaitOn h m).
Proof. intros w. unfold awaitOn. destruct (m h) as [[a|e] h']; reflexivity. Qed.

Lemma silent_locally {H A} (h : H) (m : Eff H A) : silent (E:=E) (locally h m).
Proof. intros w. unfold locally. destruct (m h) as [[a|e] h']; reflexivity. Qed.

Lemma silent_checkCancelled : silent (E:=E) checkCancelled.
Proof. intros w. reflexivity. Qed.

Lemma silent_bind {A B} (m : Eff (Proc E) A) (k : A -> Eff (Proc E) B) :
  silent m -> (forall a, silent (k a)) -> silent (bind m k).
Proof.
  intros Hm Hk w. specialize (Hm w). unfold bind.
  destruct (m w) as [[a|e] w1]; cbn [snd] in *; [rewrite Hk|]; assumption.
Qed.

Lemma nopoll_ret {A} (a : A) : nopoll (E:=E) (ret a).
Proof. intros w. reflexivity. Qed.

Lemma nopoll_throw {A} e : nopoll (E:=E) (A:=A) (throw e).
Proof. intros w. reflexivity. Qed.

Lemma nopoll_lift {A} (r : Res A) : nopoll (E:=E) (lift r).
Proof. intros w. reflexivity. Qed.

Lemma nopoll_await {A} (r : Res A) : nopoll (E:=E) (await r).
Proof. intros w. reflexivity. Qed.

Lemma nopoll_awaitCall {A} (m : Eff E A) : nopoll (awaitCall m).
Proof. intros w. unfold awaitCall. destruct (m (ext w)). reflexivity. Qed.

Lemma nopoll_awaitOn {H A} (h : H) (m : Eff H A) : nopoll (E:=E) (awaitOn h m).
Proof. intros w. unfold awaitOn. destruct (m h) as [[a|e] h']; reflexivity. Qed.

Lemma nopoll_locally {H A} (h : H) (m : Eff H A) : nopoll (E:=E) (locally h m).
Proof. intros w. unfold locally. destruct (m h) as [[a|e] h']; reflexivity. Qed.

Lemma nopoll_updateProgress p msg : nopoll (E:=E) (updateProgress p msg).
Proof. intros w. reflexivity. Qed.

Lemma nopoll_bind {A B} (m : Eff (Proc E) A) (k : A -> Eff (Proc E) B) :
  nopoll m -> (forall a, nopoll (k a)) -> nopoll (bind m k).
Proof.
  intros Hm Hk w. specialize (Hm w). unfold bind.
  destruct (m w) as [[a|e] w1]; cbn [snd] in *; [rewrite Hk|]; assumption.
Qed.

Lemma silent_if {A} (c : bool) (m1 m2 : Eff (Proc E) A) :
  silent m1 -> silent m2 -> silent (if c then m1 else m2).
Proof. destruct c; auto. Qed.

Lemma nopoll_if {A} (c : bool) (m1 m2 : Eff (Proc E) A) :
  nopoll m1 -> nopoll m2 -> nopoll (if c then m1 else m2).
Proof. destruct c; auto. Qed.

Lemma nopoll_try_catch {A} (m : Eff (Proc E) A) (h : Thrown -> Eff (Proc E) A) :
  nopoll m -> (forall e, nopoll (h e)) -> nopoll (try_catch m h).
Proof.
  intros Hm Hh w. specialize (Hm w). unfold try_catch.
  destruct (m w) as [[a|e] w1]; cbn [snd] in *; [|rewrite Hh]; assumption.
Qed.

(** *** Cancellation observed at a checkpoint *)

(** No poll of the invocation has seen the flag so far. *)
Definition calm w : Prop := ~ In true (polls w).

(** If a poll made while [m] runs sees the flag, [m] ends as [Q] says. *)
Definition onCancel {A} (Q : Res A -> Prop) (m : Eff (Proc E) A) : Prop :=
  forall w, calm w -> In true (polls (snd (m w))) -> Q (fst (m w)).

Lemma onCancel_nopoll {A} (Q : Res A -> Prop) (m : Eff (Proc E) A) :
  nopoll m -> onCancel Q m.
Proof. intros Hm w Hw Hin. rewrite Hm in Hin. contradiction. Qed.

Lemma onCancel_bind {A B} (Q : Res B -> Prop)
    (m : Eff (Proc E) A) (k : A -> Eff (Proc E) B) :
  nopoll m -> (forall a, onCancel Q (k a)) -> onCancel Q (bind m k).
Proof.
  intros Hm Hk w Hw. specialize (Hm w). unfold bind.
  destruct (m w) as [[a|e] w1]; cbn [snd fst] in *.
  - apply Hk. unfold calm. rewrite Hm. assumption.
  - intros Hin. rewrite Hm in Hin. contradiction.
Qed.

(** [if (this.checkCancelled()) return out; rest] *)
Lemma onCancel_checkpoint {A} (out : A) (rest : Eff (Proc E) A) :
  onCancel (eq (Ret out)) rest ->
  onCancel (eq (Ret out))
    (bind checkCancelled (fun stop : bool => if stop then ret out else rest)).
Proof.
  intros Hrest w Hw. unfold bind, checkCancelled.
  destruct (cancelled w) eqn:Hc; cbn [fst snd]; [reflexivity|].
  apply Hrest. unfold calm in *. cbn [polls].
  rewrite in_app_iff. intros [Hin|[Hin|[]]]; [contradiction|discriminate].
Qed.

(** [if (this.checkCancelled()) throw e0; rest] *)
Lemma onCancel_checkpoint_throw {A} (e0 : Thrown) (rest : Eff (Proc E) A) :
  onCancel (eq (Throw e0)) rest ->
  onCancel (eq (Throw e0))
    (bind checkCancelled (fun stop : bool => if stop then throw e0 else rest)).
Proof.
  intros Hrest w Hw. unfold bind, checkCancelled.
  destruct (cancelled w) eqn:Hc; cbn [fst snd]; [reflexivity|].
  apply Hrest. unfold calm in *. cbn [polls].
  rewrite in_app_iff. intros [Hin|[Hin|[]]]; [contradiction|discriminate].
Qed.

(** What follows a computation that threw is not run. *)
Lemma onCancel_then {A B} (e0 : Thrown)
    (m : Eff (Proc E) A) (k : A -> Eff (Proc E) B) :
  onCancel (eq (Throw e0)) m -> (forall a, nopoll (k a)) ->
  onCancel (eq (Throw e0)) (bind m k).
Proof.
  intros Hm Hk w Hw. specialize (Hm w Hw). unfold bind.
  destruct (m w) as [[a|e] w1]; cbn [fst snd] in *.
  - intros Hin. rewrite Hk in Hin. specialize (Hm Hin). discriminate.
  - intros Hin. specialize (Hm Hin). congruence.
Qed.

(** A [catch] clause turns the thrown value into its own result. *)
Lemma onCancel_caught {A} (e0 : Thrown) (m : Eff (Proc E) A) (f : Thrown -> A) :
  onCancel (eq (Throw e0)) m ->
  onCancel (eq (Ret (f e0))) (try_catch m (fun e => ret (f e))).
Proof.
  intros Hm w Hw. specialize (Hm w Hw). unfold try_catch.
  destruct (m w) as [[a|e] w1]; cbn [fst snd] in *.
  - intros Hin. specialize (Hm Hin). discriminate.
  - cbn. intros Hin. specialize (Hm Hin). congruence.
Qed.

(** A [catch] clause that polls nothing is not entered when the body ended
    on an observed cancellation by returning. *)
Lemma onCancel_try_catch {A} (out : A)
    (m : Eff (Proc E) A) (h : Thrown -> Eff (Proc E) A) :
  onCancel (eq (Ret out)) m -> (forall e, nopoll (h e)) ->
  onCancel (eq (Ret out)) (try_catch m h).
Proof.
  intros Hm Hh w Hw. specialize (Hm w Hw). unfold try_catch.
  destruct (m w) as [[a|e] w1]; cbn [fst snd] in *; [assumption|].
  intros Hin. rewrite Hh in Hin. specialize (Hm Hin). discriminate.
Qed.

(** *** Runs that nobody cancels *)

(** The flag is down and the caller will not raise it. *)
Definition undisturbed w : Prop :=
  cancelled w = false /\ forall n, cancelDuring w n = false.

(** Undisturbed, [m] returns [a] and stays undisturbed. *)
Definition runs {A} (m : Eff (Proc E) A) (a : A) : Prop :=
  forall w, undisturbed w -> fst (m w) = Ret a /\ undisturbed (snd (m w)).

(** Undisturbed, [m] returns [a]. *)
Definition returns {A} (m : Eff (Proc E) A) (a : A) : Prop :=
  forall w, undisturbed w -> fst (m w) = Ret a.

Lemma runs_ret {A} (a : A) : runs (ret a) a.
Proof. intros w Hw. split; [reflexivity|assumption]. Qed.

Lemma runs_updateProgress p msg : runs (updateProgress p msg) tt.
Proof. intros w Hw. split; [reflexivity|assumption]. Qed.

Lemma runs_await {A} (a : A) : runs (await (Ret a)) a.
Proof.
  intros w [Hflag Hsched]. split; [reflexivity|]. split; [|assumption].
  cbn. rewrite Hflag, Hsched. reflexivity.
Qed.

Lemma runs_checkCancelled : runs checkCancelled false.
Proof. intros w [Hflag Hsched]. cbn. rewrite Hflag. repeat split; assumption. Qed.

Lemma runs_bind {A B} (m : Eff (Proc E) A) (k : A -> Eff (Proc E) B) a b :
  runs m a -> runs (k a) b -> runs (bind m k) b.
Proof.
  intros Hm Hk w Hw. destruct (Hm w Hw) as [Hr Hu]. unfold bind.
  destruct (m w) as [r w1]. cbn [fst snd] in *. subst r. apply Hk. assumption.
Qed.

Lemma returns_runs {A} (m : Eff (Proc E) A) a : runs m a -> returns m a.
Proof. intros Hm w Hw. apply Hm. assumption. Qed.

Lemma returns_bind {A B} (m : Eff (Proc E) A) (k : A -> Eff (Proc E) B) a b :
  runs m a -> returns (k a) b -> returns (bind m k) b.
Proof.
  intros Hm Hk w Hw. destruct (Hm w Hw) as [Hr Hu]. unfold bind.
  destruct (m w) as [r w1]. cbn [fst snd] in *. subst r. apply Hk. assumption.
Qed.

Lemma returns_try_catch {A} (m : Eff (Proc E) A) (h : Thrown -> Eff (Proc E) A) a :
  returns m a -> returns (try_catch m h) a.
Proof.
  intros Hm w Hw. specialize (Hm w Hw). unfold try_catch.
  destruct (m w) as [r w1]. cbn [fst] in *. subst r. reflexivity.
Qed.

Lemma entered_undisturbed (supplied : bool) w :
  undisturbed w -> undisturbed (snd (bind reset (fun _ => setOnProgress supplied) w)).
Proof. intros Hw. exact Hw. Qed.

Lemma returns_run {A} (m : Eff (Proc E) A) a w :
  returns m a -> undisturbed w -> fst (m w) = Ret a.
Proof. intros Hm. apply Hm. Qed.

(** The instance once [process] has run [this.reset()] and attached the
    observer: no report and no poll yet. *)
Lemma entered_fresh (supplied : bool) w :
  let w' := snd (bind reset (fun _ => setOnProgress supplied) w) in
  upTo 0 w' /\ calm w'.
Proof.
  cbn. split.
  - split; [apply Qle_refl|]. split; constructor.
  - intros [].
Qed.

Lemma climbs_run {A} lo hi (m : Eff (Proc E) A) w :
  climbs lo hi m -> upTo lo w -> upTo hi (snd (m w)).
Proof. intros Hm. apply Hm. Qed.

Lemma onCancel_run {A} (Q : Res A -> Prop) (m : Eff (Proc E) A) w :
  onCancel Q m -> calm w -> In true (polls (snd (m w))) -> Q (fst (m w)).
Proof. intros Hm. apply Hm. Qed.

Lemma bind_assoc_entry {A} (supplied : bool) (body : Eff (Proc E) A) w :
  bind reset (fun _ => bind (setOnProgress supplied) (fun _ => body)) w =
  body (snd (bind reset (fun _ => setOnProgress supplied) w)).
Proof. reflexivity. Qed.

End Rules.

Create HintDb quiet.
#[export] Hint Resolve silent_ret silent_throw silent_lift silent_await
  silent_awaitCall silent_awaitOn silent_locally silent_checkCancelled
  silent_if : quiet.
#[export] Hint Resolve nopoll_ret nopoll_throw nopoll_lift nopoll_await
  nopoll_awaitCall nopoll_awaitOn nopoll_locally nopoll_updateProgress
  nopoll_if : quiet.

(** One step of a proof that the reports climb: a progress update moves the
    bound to its percentage, anything silent keeps it. *)
Ltac climb_step :=
  match goal with
  | |- climbs _ _ (bind (updateProgress ?p _) _) =>
      apply climbs_bind with (mid := p);
      [ apply climbs_updateProgress; qle | intros | qle ]
  | |- climbs ?lo _ (bind _ _) =>
      apply climbs_bind with (mid := lo);
      [ apply climbs_silent; [ solve [auto with quiet] | qle ] | intros | qle ]
  | |- climbs _ _ (ret _) => apply climbs_silent; [ apply silent_ret | qle ]
  | |- climbs _ _ (throw _) => apply climbs_silent; [ apply silent_throw | qle ]
  | |- climbs _ _ (if ?b then _ else _) => destruct b
  | |- climbs _ _ (let (_, _) := ?x in _) => destruct x
  | |- climbs _ _ (match ?x with _ => _ end) => destruct x
  | |- climbs _ _ _ => apply climbs_silent; [ solve [auto with quiet] | qle ]
  end.

Ltac nopoll_step :=
  match goal with
  | |- nopoll (bind _ _) => apply nopoll_bind; [ solve [auto with quiet] | intros ]
  | |- nopoll (let (_, _) := ?x in _) => destruct x
  | |- nopoll _ => solve [auto with quiet]
  end.

(** One step of a proof about an observed cancellation. *)
Ltac cancel_step :=
  match goal with
  | |- onCancel _ (bind checkCancelled _) => apply onCancel_checkpoint
  | |- onCancel _ (bind _ _) =>
      apply onCancel_bind; [ solve [auto with quiet] | intros ]
  | |- onCancel _ (ret _) => apply onCancel_nopoll, nopoll_ret
  | |- onCancel _ (throw _) => apply onCancel_nopoll, nopoll_throw
  | |- onCancel _ (if ?b then _ else _) => destruct b
  | |- onCancel _ (let (_, _) := ?x in _) => destruct x
  | |- onCancel _ (match ?x with _ => _ end) => destruct x
  end.

End ProcessorProps.

(** ** Sanitize *)

Module SanitizeProps.
Import Processor ProcessorProps Sanitize.

Local Open Scope Q_scope.

Section WithLibrary.

Context {E Doc : Type}.

Lemma loadDocument_silent (lib : PdfLib Doc) buf :
  silent (E:=E) (loadDocument lib buf).
Proof.
  intros w. unfold loadDocument, try_catch, bind, await.
  destruct (PDFDocument_load buf) as [d|e]; cbn; [reflexivity|].
  destruct e as [m|]; [|reflexivity].
  destruct (Str.includes m "encrypt"); reflexivity.
Qed.

Lemma loadDocument_nopoll (lib : PdfLib Doc) buf :
  nopoll (E:=E) (loadDocument lib buf).
Proof.
  intros w. unfold loadDocument, try_catch, bind, await.
  destruct (PDFDocument_load buf) as [d|e]; cbn; [reflexivity|].
  destruct e as [m|]; [|reflexivity].
  destruct (Str.includes m "encrypt"); reflexivity.
Qed.

#[local] Hint Resolve loadDocument_silent loadDocument_nopoll : quiet.

Lemma sanitizeLoaded_climbs (lib : PdfLib Doc) o name size doc :
  climbs (E:=E) 20 100 (sanitizeLoaded lib o name size doc).
Proof. unfold sanitizeLoaded. repeat climb_step. Qed.

Lemma sanitizeLoaded_onCancel (lib : PdfLib Doc) o name size doc :
  onCancel (E:=E) (eq (Ret cancelledOutput)) (sanitizeLoaded lib o name size doc).
Proof. unfold sanitizeLoaded. repeat cancel_step. Qed.

Lemma sanitize_reports_climb (loadPdfLib : Res (PdfLib Doc)) input obs (w : Proc E) :
  upTo 100 (snd (process loadPdfLib input obs w)).
Proof.
  unfold process. rewrite bind_assoc_entry.
  destruct (entered_fresh obs w) as [Hfresh _].
  apply (climbs_run 0 100); [|exact Hfresh].
  destruct (files input) as [|file [|file' rest]];
    try (apply climbs_silent; [apply silent_ret|qle]).
  apply climbs_try_catch with (mid := 100); [|intros; repeat climb_step|qle].
  repeat climb_step. apply sanitizeLoaded_climbs.
Qed.

Lemma sanitize_cancelled_outcome (loadPdfLib : Res (PdfLib Doc)) input obs (w : Proc E) :
  In true (polls (snd (process loadPdfLib input obs w))) ->
  fst (process loadPdfLib input obs w) = Ret cancelledOutput.
Proof.
  unfold process. rewrite bind_assoc_entry.
  destruct (entered_fresh obs w) as [_ Hcalm].
  intros Hin. symmetry. revert Hin.
  apply (onCancel_run (eq (Ret cancelledOutput))); [|exact Hcalm].
  destruct (files input) as [|file [|file' rest]];
    try (apply onCancel_nopoll, nopoll_ret).
  apply onCancel_try_catch; [|intros; apply nopoll_ret].
  repeat cancel_step. apply sanitizeLoaded_onCancel.
Qed.

End WithLibrary.

(** *** A run on a small document *)

(** A stand-in for pdf-lib: the document is its number of form fields
    (flattening removes them); it has one page, an empty catalog and no
    annotations. *)
#[local] Instance sampleLib : PdfLib nat := {
  PDFDocument_load buf := Ret 1%nat;
  save d := Ret [Byte.x25; Byte.x50; Byte.x44; Byte.x46];
  getPageCount d := 1%nat;
  getFormFields := fun d => (Ret d, d);
  flatten := fun d => (Ret tt, 0%nat);
  catalogHas k := ret false;
  catalogGet k := ret None;
  catalogDelete k := ret tt;
  infoKeys := ret ["Title"; "Author"];
  infoDelete k := ret tt;
  setTitle v := ret tt;
  setAuthor v := ret tt;
  setSubject v := ret tt;
  setKeywords v := ret tt;
  setCreator v := ret tt;
  setProducer v := ret tt;
  getPages := ret 1%nat;
  pageHas i k := ret false;
  pageGet i k := ret None;
  pageDelete i k := ret tt;
  pageSetAnnots i refs := ret tt;
  objHas r k := ret false;
  objDelete r k := ret tt;
  asArray r := ret [];
  subtypeOf r := ret None
}.

Definition onePage : File :=
  {| fileName := "form.v2.pdf"; fileArrayBuffer := Ret [Byte.x25; Byte.x50];
     fileText := Ret "" |}.

Definition noOptions : PartialOptions :=
  {| p_removeJavaScript := None; p_removeAttachments := None; p_removeLinks := None;
     p_flattenForms := None; p_removeMetadata := None; p_removeAnnotations := None |}.

Definition idle (schedule : nat -> bool) : Proc unit :=
  {| cancelled := false; progress := 0; observer := false; observed := [];
     polls := []; suspensions := 0; cancelDuring := schedule; ext := tt |}.

(** Default options, nobody cancels. *)
Example sanitize_run :
  let run := process (Ret sampleLib) {| files := [onePage]; options := noOptions |}
               true (idle (fun _ => false)) in
  percentages (snd run) = [5; 10; 20; 30; 40; 50; 60; 70; 80; 90; 100] /\
  polls (snd run) = [false; false; false] /\
  fst run = Ret (Success (pdfBlob [Byte.x25; Byte.x50; Byte.x44; Byte.x46])
                   "form.v2_sanitized.pdf"
                   [("pageCount", MNum 1); ("originalSize", MNum 2);
                    ("newSize", MNum 4);
                    ("removedItems",
                      MStrings ["form fields (flattened)"; "metadata"; "JavaScript";
                                "embedded files"; "links"]);
                    ("sanitized", MBool true)]).
Proof. repeat split; reflexivity. Qed.

(** The caller cancels while the document is being loaded. *)
Example sanitize_cancelled_run :
  let run := process (Ret sampleLib) {| files := [onePage]; options := noOptions |}
               true (idle (fun n => Nat.eqb n 2)) in
  percentages (snd run) = [5; 10; 20] /\
  polls (snd run) = [false; true] /\
  fst run = Ret cancelledOutput.
Proof. repeat split; reflexivity. Qed.

End SanitizeProps.

(** ** Text to PDF *)

Module TextToPDFProps.
Import Processor ProcessorProps FontCache TextToPDF.

Local Open Scope Q_scope.

Section WithLibrary.

Context {Doc Font : Type}.

Lemma readAll_silent fs acc : silent (readAll fs acc).
Proof.
  revert acc. induction fs as [|f fs IH]; intros acc; simpl.
  - apply silent_ret.
  - apply silent_bind; [apply silent_await|intros; apply IH].
Qed.

Lemma readAll_nopoll fs acc : nopoll (readAll fs acc).
Proof.
  revert acc. induction fs as [|f fs IH]; intros acc; simpl.
  - apply nopoll_ret.
  - apply nopoll_bind; [apply nopoll_await|intros; apply IH].
Qed.

#[local] Hint Resolve readAll_silent readAll_nopoll : quiet.

Lemma textToPDF_reports_climb (env : Collaborators Doc Font) input obs (w : Proc FontWorld) :
  upTo 100 (snd (process env input obs w)).
Proof.
  unfold process. rewrite bind_assoc_entry.
  destruct (entered_fresh obs w) as [Hfresh _].
  apply (climbs_run 0 100); [|exact Hfresh].
  climb_step.
  destruct ((length (files input) <? 1)%nat && _);
    [apply climbs_silent; [apply silent_ret|qle]|].
  apply climbs_try_catch with (mid := 100); [|intros; repeat climb_step|qle].
  repeat climb_step.
  apply climbs_bind with (mid := 40); [|intros; repeat climb_step|qle].
  destruct (font_kind _); repeat climb_step.
Qed.

Lemma textToPDF_cancelled_outcome (env : Collaborators Doc Font) input obs (w : Proc FontWorld) :
  In true (polls (snd (process env input obs w))) ->
  fst (process env input obs w)
    = Ret (createErrorOutput PROCESSING_CANCELLED "Processing was cancelled." None).
Proof.
  unfold process. rewrite bind_assoc_entry.
  destruct (entered_fresh obs w) as [_ Hcalm].
  intros Hin. symmetry. revert Hin.
  apply (onCancel_run (eq (Ret _))); [|exact Hcalm].
  cancel_step.
  destruct ((length (files input) <? 1)%nat && _);
    [apply onCancel_nopoll, nopoll_ret|].
  apply onCancel_try_catch; [|intros; apply nopoll_ret].
  repeat cancel_step.
  apply onCancel_bind; [|intros; repeat cancel_step].
  destruct (font_kind _); repeat nopoll_step.
Qed.

End WithLibrary.

(** *** A run with a downloaded font *)

#[local] Instance sampleLib : PdfLib nat string := {
  PDFDocument_create := Ret 0%nat;
  embedStandardFont n := ret n;
  registerFontkit := ret tt;
  embedFont bytes := ret "embedded";
  save d := Ret [Byte.x25; Byte.x50; Byte.x44; Byte.x46];
  getPageCount d := d
}.

Definition sampleEnv : Collaborators nat string :=
  {| loadPdfLib := Ret sampleLib; importFontkit := Ret tt;
     createPdfFromText := fun text o font => fun d => (Ret tt, 1%nat) |}.

Definition notes : File :=
  {| fileName := "notes.txt"; fileArrayBuffer := Ret []; fileText := Ret "hello" |}.

Definition withFont (fid : string) : PartialOptions :=
  {| p_pageSize := None; p_customWidth := None; p_customHeight := None;
     p_orientation := None; p_fontId := Some fid; p_fontSize := None;
     p_lineHeight := None; p_textColor := None; p_margin := None;
     p_preserveLineBreaks := None; p_wrapLines := None; p_directText := None |}.

Definition idle (fonts : FontWorld) : Proc FontWorld :=
  {| cancelled := false; progress := 0; observer := false; observed := [];
     polls := []; suspensions := 0; cancelDuring := fun _ => false; ext := fonts |}.

Example textToPDF_run :
  let run := process sampleEnv {| files := [notes]; options := withFont "noto-sans" |}
               true (idle (FontCacheProps.coldWorld true)) in
  percentages (snd run) = [5; 10; 20; 30; 40; 50; 90; 100] /\
  fst run = Ret (Success (pdfBlob [Byte.x25; Byte.x50; Byte.x44; Byte.x46]) "notes.pdf"
                   [("pageCount", MNum 1); ("fileCount", MNum 1)]) /\
  fontDB (ext (snd run)) !! "noto-sans" = Some FontCacheProps.fontBytes.
Proof. repeat split; reflexivity. Qed.

(** With the put request failing, the conversion fails although the font
    was fetched. *)
Example textToPDF_run_failed_put :
  let run := process sampleEnv {| files := [notes]; options := withFont "noto-sans" |}
               true (idle (FontCacheProps.coldWorld false)) in
  percentages (snd run) = [5; 10; 20; 30] /\
  fst run = Ret (Failure PROCESSING_FAILED "Failed to convert text to PDF."
                   (Some "put request failed"%string)).
Proof. repeat split; reflexivity. Qed.

End TextToPDFProps.

(** ** Crop *)

Module CropProps.
Import Processor ProcessorProps Crop.

Local Open Scope Q_scope.

(** The report before the entry of index [i] is handled. *)
Definition cropLow (i totalToProcess : nat) : Q :=
  30 + 60 * inject_Z (Z.of_nat i) / inject_Z (Z.of_nat totalToProcess).

Lemma cropProgress_cropLow i t : cropProgress i t = cropLow (i + 1) t.
Proof. reflexivity. Qed.

Lemma cropLow_mono i j t : (i <= j)%nat -> cropLow i t <= cropLow j t.
Proof.
  intros Hij. unfold cropLow. apply Qplus_le_r. unfold Qdiv.
  apply Qmult_le_compat_r.
  - apply Qmult_le_l; [reflexivity|]. rewrite <- Zle_Qle. lia.
  - apply Qinv_le_0_compat. change 0 with (inject_Z 0). rewrite <- Zle_Qle. lia.
Qed.

Lemma cropLow_ge_30 i t : 30 <= cropLow i t.
Proof.
  unfold cropLow. rewrite <- (Qplus_0_r 30) at 1. apply Qplus_le_r.
  unfold Qdiv. apply Qmult_le_0_compat.
  - apply Qmult_le_0_compat; [discriminate|].
    change 0 with (inject_Z 0). rewrite <- Zle_Qle. lia.
  - apply Qinv_le_0_compat. change 0 with (inject_Z 0). rewrite <- Zle_Qle. lia.
Qed.

Lemma cropLow_le_90 i t : (i <= t)%nat -> cropLow i t <= 90.
Proof.
  intros Hit. unfold cropLow. change 90 with (30 + 60). apply Qplus_le_r.
  destruct t as [|t].
  - assert (i = 0)%nat as -> by lia. discriminate.
  - apply Qle_shift_div_r.
    + change 0 with (inject_Z 0). rewrite <- Zlt_Qlt. lia.
    + apply Qmult_le_l; [reflexivity|]. rewrite <- Zle_Qle. lia.
Qed.

Section WithLibrary.

Context {E Doc : Type}.

Lemma cropPages_climbs (lib : PdfLib Doc) cd total pageNumbers :
  forall i pdf,
    (i + length pageNumbers <= total)%nat ->
    climbs (E:=E) (cropLow i total) 90 (cropPages lib cd total pageNumbers i pdf).
Proof.
  induction pageNumbers as [|pageNum rest IH]; intros i pdf Hlen; cbn [cropPages].
  - apply climbs_silent; [apply silent_ret|]. apply cropLow_le_90. cbn in Hlen. lia.
  - cbn [length] in Hlen.
    assert (cropLow i total <= 90) as H90 by (apply cropLow_le_90; lia).
    assert (cropLow i total <= cropLow (S i) total) as Hstep by (apply cropLow_mono; lia).
    assert (forall pdf', climbs (E:=E) (cropLow i total) 90
                           (cropPages lib cd total rest (S i) pdf')) as Hskip.
    { intros pdf'. eapply climbs_weaken; [apply IH; lia|assumption|apply Qle_refl]. }
    repeat climb_step; try apply Hskip.
    apply climbs_bind with (mid := cropProgress i total).
    + apply climbs_updateProgress; [|apply Qle_refl].
      rewrite cropProgress_cropLow. apply cropLow_mono. lia.
    + intros _. eapply climbs_weaken; [apply IH; lia| |apply Qle_refl].
      rewrite cropProgress_cropLow. apply cropLow_mono. lia.
    + rewrite cropProgress_cropLow. apply cropLow_le_90. lia.
Qed.

Lemma performMetadataCrop_climbs (lib : PdfLib Doc) buf cd :
  climbs (E:=E) 20 90 (performMetadataCrop lib buf cd).
Proof.
  unfold performMetadataCrop. climb_step.
  apply climbs_bind with (mid := 90); [|intros; repeat climb_step|qle].
  eapply climbs_weaken; [apply cropPages_climbs; cbn; lia| |apply Qle_refl].
  eapply Qle_trans; [|apply cropLow_ge_30]. qle.
Qed.

Lemma crop_reports_climb (loadPdfLib : Res (PdfLib Doc)) input obs (w : Proc E) :
  upTo 100 (snd (process loadPdfLib input obs w)).
Proof.
  unfold process. rewrite bind_assoc_entry.
  destruct (entered_fresh obs w) as [Hfresh _].
  apply (climbs_run 0 100); [|exact Hfresh].
  destruct (files input) as [|file [|file' rest]];
    try (apply climbs_silent; [apply silent_ret|qle]).
  destruct (cropData (options input)) as [[|entry cd]|];
    try (apply climbs_silent; [apply silent_ret|qle]).
  apply climbs_try_catch with (mid := 100); [|intros; repeat climb_step|qle].
  repeat climb_step.
  apply climbs_bind with (mid := 90); [|intros; repeat climb_step|qle].
  unfold performDestructiveCrop.
  destruct (isDestructive _); apply performMetadataCrop_climbs.
Qed.

(** *** Cancellation in the crop loop *)

Definition cancelError : Thrown := ErrorObject "Processing cancelled".

Lemma cropPages_onCancel (lib : PdfLib Doc) cd total pageNumbers :
  forall i pdf,
    onCancel (E:=E) (eq (Throw cancelError)) (cropPages lib cd total pageNumbers i pdf).
Proof.
  induction pageNumbers as [|pageNum rest IH]; intros i pdf; cbn [cropPages].
  - apply onCancel_nopoll, nopoll_ret.
  - apply onCancel_checkpoint_throw. repeat cancel_step; apply IH.
Qed.

Lemma performMetadataCrop_onCancel (lib : PdfLib Doc) buf cd :
  onCancel (E:=E) (eq (Throw cancelError)) (performMetadataCrop lib buf cd).
Proof.
  unfold performMetadataCrop. cancel_step.
  apply onCancel_then; [apply cropPages_onCancel|intros; apply nopoll_await].
Qed.

(** Where the loop's checkpoint sees the flag, [process] resolves with
    [PROCESSING_FAILED], the thrown message as detail. *)
Lemma crop_cancel_is_failure (loadPdfLib : Res (PdfLib Doc)) input obs (w : Proc E) :
  In true (polls (snd (process loadPdfLib input obs w))) ->
  fst (process loadPdfLib input obs w)
    = Ret (createErrorOutput PROCESSING_FAILED "Failed to crop PDF."
             (Some "Processing cancelled"%string)).
Proof.
  unfold process. rewrite bind_assoc_entry.
  destruct (entered_fresh obs w) as [_ Hcalm].
  intros Hin. symmetry. revert Hin.
  apply (onCancel_run (eq (Ret _))); [|exact Hcalm].
  destruct (files input) as [|file [|file' rest]];
    try (apply onCancel_nopoll, nopoll_ret).
  destruct (cropData (options input)) as [[|entry cd]|];
    try (apply onCancel_nopoll, nopoll_ret).
  apply (onCancel_caught cancelError _
           (fun error => createErrorOutput PROCESSING_FAILED "Failed to crop PDF."
                           (Some (messageOf error)))).
  repeat cancel_step.
  apply onCancel_then; [|intros; repeat nopoll_step].
  unfold performDestructiveCrop.
  destruct (isDestructive _); apply performMetadataCrop_onCancel.
Qed.

(** *** The two modes *)

Definition withMode (input : ProcessInput) (m : CropMode) : ProcessInput :=
  {| files := files input;
     options := {| cropData := cropData (options input); mode := Some m |} |}.

(** Two outputs that differ at most in the file name. *)
Definition sameButName (o1 o2 : ProcessOutput) : Prop :=
  match o1, o2 with
  | Success blob1 _ meta1, Success blob2 _ meta2 => blob1 = blob2 /\ meta1 = meta2
  | Failure c1 m1 d1, Failure c2 m2 d2 => c1 = c2 /\ m1 = m2 /\ d1 = d2
  | _, _ => False
  end.

Definition filenameOf (o : ProcessOutput) : option string :=
  match o with
  | Success _ n _ => Some n
  | Failure _ _ _ => None
  end.

(** C8. On the same input and in the same circumstances, the destructive
    mode and the metadata mode leave the processor in the same state and
    resolve with outputs that agree on the blob and on the metadata (and are
    the same failure when they fail); the file names are the input name
    with [.pdf] replaced by [_cropped_flattened.pdf] and [_cropped.pdf]. *)
Theorem destructive_crop_is_metadata_crop
    (loadPdfLib : Res (PdfLib Doc)) (input : ProcessInput) (obs : bool) (w : Proc E) :
  let d := process loadPdfLib (withMode input destructive) obs w in
  let m := process loadPdfLib (withMode input metadata) obs w in
  snd d = snd m /\
  exists outD outM,
    fst d = Ret outD /\ fst m = Ret outM /\ sameButName outD outM /\
    forall file, files input = [file] ->
      (forall n, filenameOf outD = Some n ->
                 n = Str.replaceFirst (fileName file) ".pdf" "_cropped_flattened.pdf") /\
      (forall n, filenameOf outM = Some n ->
                 n = Str.replaceFirst (fileName file) ".pdf" "_cropped.pdf").
Proof.
  cbv zeta. unfold process. rewrite !bind_assoc_entry.
  generalize (snd (bind reset (fun _ => setOnProgress obs) w)). intros w0.
  cbn [files options cropData withMode isDestructive mode suffixFor].
  destruct (files input) as [|file [|file' rest]];
    try (split; [reflexivity|]; do 2 eexists; cbn;
         repeat split; try reflexivity; intros ? [=]).
  destruct (cropData (options input)) as [[|entry cd]|];
    try (split; [reflexivity|]; do 2 eexists; cbn;
         repeat split; try reflexivity; intros ? [=]).
  unfold performDestructiveCrop, try_catch, bind.
  destruct (updateProgress 10 _ w0) as [[[]|e] w1]; cbn [fst snd];
    [|split; [reflexivity|]; do 2 eexists; repeat split; intros ? [=]].
  destruct (await loadPdfLib w1) as [[lib|e] w2]; cbn [fst snd];
    [|split; [reflexivity|]; do 2 eexists; repeat split; intros ? [=]].
  destruct (updateProgress 20 _ w2) as [[[]|e] w3]; cbn [fst snd];
    [|split; [reflexivity|]; do 2 eexists; repeat split; intros ? [=]].
  destruct (await (fileArrayBuffer file) w3) as [[buf|e] w4]; cbn [fst snd];
    [|split; [reflexivity|]; do 2 eexists; repeat split; intros ? [=]].
  destruct (performMetadataCrop lib buf (entry :: cd) w4) as [[bytes|e] w5];
    cbn [fst snd];
    [|split; [reflexivity|]; do 2 eexists; repeat split; intros ? [=]].
  split; [reflexivity|]. do 2 eexists. cbn.
  repeat split; intros n [= <-]; congruence.
Qed.

(** *** Entries outside the document *)

(** The page number of the entry lies in [1..n]. *)
Definition inRange (n : nat) (entry : Z * CropData) : bool :=
  (1 <=? fst entry)%Z && (fst entry <=? Z.of_nat n)%Z.

(** Cropping one page as the entry asks: the crop box in points, from the
    fractions of the page size, measured from the top left corner. *)
Definition applyCrop (lib : PdfLib Doc) (d : Doc) (entry : Z * CropData) : Res Doc :=
  let page := Z.to_nat (fst entry - 1) in
  let crop := snd entry in
  match getSize d page with
  | Throw e => Throw e
  | Ret (w, h) =>
      setCropBox d page (x crop * w) (h - y crop * h - height crop * h)
        (width crop * w) (height crop * h)
  end.

Fixpoint applyCrops (lib : PdfLib Doc) (d : Doc) (entries : list (Z * CropData))
  : Res Doc :=
  match entries with
  | [] => Ret d
  | entry :: rest =>
      match applyCrop lib d entry with
      | Throw e => Throw e
      | Ret d' => applyCrops lib d' rest
      end
  end.

(** [setCropBox] adds no page and removes none. *)
Definition keepsPageCount (lib : PdfLib Doc) : Prop :=
  forall d i a b c e d', setCropBox d i a b c e = Ret d' -> getPageCount d' = getPageCount d.

Lemma lookupCrop_In cd : forall k c,
  NoDup (map fst cd) -> In (k, c) cd -> lookupCrop k cd = Some c.
Proof.
  induction cd as [|[k' c'] cd IH]; intros k c Hnd Hin; [destruct Hin|].
  cbn [map fst] in Hnd. apply NoDup_cons in Hnd as [Hfresh Hnd].
  cbn [lookupCrop]. destruct Hin as [[= -> ->]|Hin].
  - rewrite Z.eqb_refl. reflexivity.
  - destruct (Z.eqb_spec k' k) as [->|Hne]; [|apply IH; assumption].
    exfalso. apply Hfresh. apply list_elem_of_In, in_map_iff.
    exists (k, c). split; [reflexivity|assumption].
Qed.

(** Undisturbed, the loop crops the entries in range, in order, and passes
    over the others. *)
Lemma cropPages_applyCrops (lib : PdfLib Doc) cd total n :
  keepsPageCount lib ->
  forall entries i pdf d',
    (forall k c, In (k, c) entries -> lookupCrop k cd = Some c) ->
    getPageCount pdf = n ->
    applyCrops lib pdf (List.filter (inRange n) entries) = Ret d' ->
    runs (E:=E) (cropPages lib cd total (map fst entries) i pdf) d'.
Proof.
  intros Hkeep. induction entries as [|[k c] entries IH];
    intros i pdf d' Hlook Hn Happly.
  - cbn in *. injection Happly as <-. apply runs_ret.
  - cbn [map fst cropPages].
    apply runs_bind with (a := false); [apply runs_checkCancelled|].
    cbn [List.filter] in Happly.
    rewrite (Hlook k c) by (left; reflexivity). rewrite Hn.
    unfold inRange at 1 in Happly. cbn [fst] in Happly.
    assert (forall k' c', In (k', c') entries -> lookupCrop k' cd = Some c') as Hlook'.
    { intros k' c' Hin. apply Hlook. right. assumption. }
    destruct ((k - 1 <? 0)%Z || (Z.of_nat n <=? k - 1)%Z) eqn:Hout.
    + replace ((1 <=? k)%Z && (k <=? Z.of_nat n)%Z) with false in Happly by lia.
      apply IH; assumption.
    + replace ((1 <=? k)%Z && (k <=? Z.of_nat n)%Z) with true in Happly by lia.
      cbn [applyCrops] in Happly. unfold applyCrop in Happly. cbn [fst snd] in Happly.
      destruct (getSize pdf (Z.to_nat (k - 1))) as [[pw ph]|e]; [|discriminate].
      destruct (setCropBox pdf (Z.to_nat (k - 1)) (x c * pw)
                  (ph - y c * ph - height c * ph) (width c * pw) (height c * ph))
        as [pdf1|e] eqn:Hset; [|discriminate].
      apply runs_bind with (a := (pw, ph)); [apply runs_ret|].
      apply runs_bind with (a := pdf1); [rewrite Hset; apply runs_ret|].
      apply runs_bind with (a := tt); [apply runs_updateProgress|].
      apply IH; try assumption.
      rewrite (Hkeep _ _ _ _ _ _ _ Hset). assumption.
Qed.

(** C9. Take a crop call on one file whose library, file and document
    load, that is not cancelled, and whose entries in range crop and save
    without error. Then the call resolves with Success: the entries whose
    page number is outside [1..pageCount] are passed over, the saved
    document being the loaded one with only the entries in range applied;
    and [pagesCropped] is the number of entries of [cropData], those passed
    over included. *)
Theorem crop_skips_out_of_range_pages
    (lib : PdfLib Doc) (file : File) (cd : list (Z * CropData))
    (m : option CropMode) (obs : bool) (w : Proc E)
    (buf out : ArrayBuffer) (d d' : Doc) :
  keepsPageCount lib ->
  cd <> [] ->
  NoDup (map fst cd) ->
  fileArrayBuffer file = Ret buf ->
  PDFDocument_load buf = Ret d ->
  cancelled w = false ->
  (forall n, cancelDuring w n = false) ->
  applyCrops lib d (List.filter (inRange (getPageCount d)) cd) = Ret d' ->
  save d' = Ret out ->
  fst (process (Ret lib)
         {| files := [file]; options := {| cropData := Some cd; mode := m |} |} obs w)
  = Ret (Success (pdfBlob out)
           (Str.replaceFirst (fileName file) ".pdf"
              (suffixFor (isDestructive {| cropData := Some cd; mode := m |})))
           [("pagesCropped", MNum (Z.of_nat (length cd)))]).
Proof.
  intros Hkeep Hne Hnd Hbuf Hload Hflag Hsched Happly Hsave.
  unfold process. rewrite bind_assoc_entry.
  apply returns_run; [|apply entered_undisturbed; split; assumption].
  cbn [files options cropData].
  destruct cd as [|entry cd0]; [congruence|]. set (cd := entry :: cd0) in *.
  apply returns_try_catch.
  apply returns_bind with (a := tt); [apply runs_updateProgress|].
  apply returns_bind with (a := lib); [apply runs_await|].
  apply returns_bind with (a := tt); [apply runs_updateProgress|].
  apply returns_bind with (a := buf); [rewrite Hbuf; apply runs_await|].
  apply returns_bind with (a := out).
  - assert (runs (E:=E) (performMetadataCrop lib buf cd) out) as Hcrop.
    { unfold performMetadataCrop.
      apply runs_bind with (a := d); [rewrite Hload; apply runs_await|].
      apply runs_bind with (a := d'); [|rewrite Hsave; apply runs_await].
      apply (cropPages_applyCrops lib cd _ (getPageCount d) Hkeep cd);
        [|reflexivity|assumption].
      intros k c Hin. apply lookupCrop_In; assumption. }
    unfold performDestructiveCrop. destruct (isDestructive _); exact Hcrop.
  - apply returns_bind with (a := tt); [apply runs_updateProgress|].
    apply returns_runs, runs_ret.
Qed.

End WithLibrary.

(** *** A page-list library *)

(** A stand-in for pdf-lib: a document is its list of pages, a page its
    media box size and crop box; loading gives one Letter page per byte,
    saving one byte per page, 1 for a page with a crop box. *)
Record SamplePage : Type := {
  mediaWidth : Q;
  mediaHeight : Q;
  cropBox : option (Q * Q * Q * Q)
}.

Definition letterPage : SamplePage :=
  {| mediaWidth := 612; mediaHeight := 792; cropBox := None |}.

#[local] Instance sampleLib : PdfLib (list SamplePage) := {
  PDFDocument_load buf := Ret (map (fun _ => letterPage) buf);
  getPageCount d := length d;
  getSize d i :=
    match d !! i with
    | Some p => Ret (mediaWidth p, mediaHeight p)
    | None => Throw (ErrorObject "index out of range")
    end;
  setCropBox d i bx by_ bw bh :=
    match d !! i with
    | Some p =>
        Ret (<[i := {| mediaWidth := mediaWidth p; mediaHeight := mediaHeight p;
                       cropBox := Some (bx, by_, bw, bh) |}]> d)
    | None => Throw (ErrorObject "index out of range")
    end;
  save d := Ret (map (fun p => match cropBox p with
                               | Some _ => Byte.x01
                               | None => Byte.x00
                               end) d)
}.

Lemma sampleLib_keepsPageCount : keepsPageCount sampleLib.
Proof.
  intros d i a b c e d'. cbn. destruct (d !! i); [|discriminate].
  intros [= <-]. apply length_insert.
Qed.

Definition twoPages : File :=
  {| fileName := "report.pdf"; fileArrayBuffer := Ret [Byte.x25; Byte.x50];
     fileText := Ret "" |}.

Definition centre : CropData :=
  {| x := 1 # 4; y := 1 # 4; width := 1 # 2; height := 1 # 2 |}.

(** Page 1 is in the document, page 5 is not. *)
Definition onePresentOneAbsent : list (Z * CropData) := [(1%Z, centre); (5%Z, centre)].

(** An instance nobody has touched; [schedule] is the caller's. *)
Definition idle (schedule : nat -> bool) : Proc unit :=
  {| cancelled := false; progress := 0; observer := false; observed := [];
     polls := []; suspensions := 0; cancelDuring := schedule; ext := tt |}.

Lemma crop_skips_out_of_range_pages_witness :
  fst (process (Ret sampleLib)
         {| files := [twoPages];
            options := {| cropData := Some onePresentOneAbsent; mode := None |} |}
         true (idle (fun _ => false)))
  = Ret (Success (pdfBlob [Byte.x01; Byte.x00]) "report_cropped.pdf"
           [("pagesCropped", MNum 2)]).
Proof.
  apply (crop_skips_out_of_range_pages sampleLib twoPages onePresentOneAbsent None true
           (idle (fun _ => false)) [Byte.x25; Byte.x50] [Byte.x01; Byte.x00]
           [letterPage; letterPage]
           [{| mediaWidth := 612; mediaHeight := 792;
               cropBox := Some ((1 # 4) * 612, 792 - (1 # 4) * 792 - (1 # 2) * 792,
                                (1 # 2) * 612, (1 # 2) * 792) |};
            letterPage]).
  - apply sampleLib_keepsPageCount.
  - discriminate.
  - apply (bool_decide_unpack _). vm_compute. exact I.
  - reflexivity.
  - reflexivity.
  - reflexivity.
  - reflexivity.
  - reflexivity.
  - reflexivity.
Defined.

(** The reports of that run: the entry passed over reports nothing. *)
Example crop_reports :
  percentages (snd (process (Ret sampleLib)
         {| files := [twoPages];
            options := {| cropData := Some onePresentOneAbsent; mode := None |} |}
         true (idle (fun _ => false))))
  = [10; 20; 30 + 60 * inject_Z 1 / inject_Z 2; 100].
Proof. reflexivity. Qed.

(** C1 fails on the code for [CropProcessor]: the caller cancels while
    pdf-lib is being loaded; the first checkpoint of the crop loop sees the
    flag, and the call resolves with [PROCESSING_FAILED], not with
    [PROCESSING_CANCELLED]. *)
Lemma crop_cancellation_reported_as_failure :
  let run := process (Ret sampleLib)
               {| files := [twoPages];
                  options := {| cropData := Some onePresentOneAbsent; mode := None |} |}
               true (idle (fun n => Nat.eqb n 0)) in
  polls (snd run) = [true] /\
  fst run = Ret (Failure PROCESSING_FAILED "Failed to crop PDF."
                   (Some "Processing cancelled"%string)).
Proof. split; reflexivity. Qed.

End CropProps.

(** ** The contract across the processors *)

Module Contract.
Import Processor ProcessorProps.

Local Open Scope Q_scope.

(** The percentages passed to the observer never decrease and lie within
    0 and 100. *)
Definition reportsInOrder {E} (w : Proc E) : Prop :=
  StronglySorted Qle (percentages w) /\
  Forall (fun p => 0 <= p /\ p <= 100) (percentages w).

(** C7. Whatever the input, the library, the files and the caller do, the
    percentages that [process] of the sanitize, crop and text-to-PDF
    processors passes to a supplied observer never decrease and lie within
    0 and 100. *)
Theorem progress_reports_never_decrease :
  (forall (E Doc : Type) (loadPdfLib : Res (Sanitize.PdfLib Doc))
          (input : Sanitize.ProcessInput) (w : Proc E),
     reportsInOrder (snd (Sanitize.process loadPdfLib input true w))) /\
  (forall (E Doc : Type) (loadPdfLib : Res (Crop.PdfLib Doc))
          (input : Crop.ProcessInput) (w : Proc E),
     reportsInOrder (snd (Crop.process loadPdfLib input true w))) /\
  (forall (Doc Font : Type) (env : TextToPDF.Collaborators Doc Font)
          (input : TextToPDF.ProcessInput) (w : Proc FontCache.FontWorld),
     reportsInOrder (snd (TextToPDF.process env input true w))).
Proof.
  split; [|split]; intros.
  - destruct (SanitizeProps.sanitize_reports_climb loadPdfLib input true w)
      as (_ & Hsorted & Hbound).
    split; assumption.
  - destruct (CropProps.crop_reports_climb loadPdfLib input true w)
      as (_ & Hsorted & Hbound).
    split; assumption.
  - destruct (TextToPDFProps.textToPDF_reports_climb env input true w)
      as (_ & Hsorted & Hbound).
    split; assumption.
Qed.

End Contract.

(** * Further properties *)

(** ** Recent files: insertion, removal, clearing, display *)

Module RecentFilesLaws.
Import RecentFiles RecentFilesProps.

Section WithParser.

Variable JSON_parse_text : string -> option JsonValue.

#[local] Abbreviation getRecentFiles := (getRecentFiles JSON_parse_text).
#[local] Abbreviation addRecentFile := (addRecentFile JSON_parse_text).
#[local] Abbreviation removeRecentFile := (removeRecentFile JSON_parse_text).
#[local] Abbreviation storedList := (storedList JSON_parse_text).

(** The probe of [isLocalStorageAvailable] leaves every key but its own. *)
Lemma isLocalStorageAvailable_frame st k :
  k <> testKey ->
  items (snd (isLocalStorageAvailable st)) !! k = items st !! k.
Proof.
  intros Hk. destruct st as [wd ad wr it].
  unfold isLocalStorageAvailable, try_catch, bind, setItem, removeItem, ret. cbn.
  destruct wd, ad; cbn; try reflexivity.
  destruct (wr testKey (Literal testKey)); cbn; [|reflexivity].
  rewrite lookup_delete_ne by congruence. rewrite lookup_insert_ne by congruence.
  reflexivity.
Qed.

Lemma getRecentFiles_frame st k :
  k <> testKey ->
  items (snd (getRecentFiles st)) !! k = items st !! k.
Proof.
  intros Hk. pose proof (isLocalStorageAvailable_frame st k Hk) as Hprobe.
  unfold RecentFiles.getRecentFiles, bind.
  destruct (isLocalStorageAvailable st) as [[ok|e] st1]; cbn [snd] in *; [|assumption].
  destruct ok; cbn [negb]; [|assumption].
  unfold try_catch, bind, getItem.
  destruct (access_denied st1); cbn; [assumption|].
  destruct (items st1 !! STORAGE_KEY) as [t|]; cbn; [|assumption].
  destruct (falsy t); cbn; [assumption|].
  unfold lift. destruct (JSON_parse JSON_parse_text t); cbn; assumption.
Qed.

Lemma addRecentFile_run (c : AddCall) (st : Storage) :
  exists st', addRecentFile c st = (Ret (newFileOf c), st') /\
    forall k, k <> STORAGE_KEY -> k <> testKey -> items st' !! k = items st !! k.
Proof.
  unfold RecentFiles.addRecentFile, bind.
  pose proof (isLocalStorageAvailable_frame st) as Hprobe.
  destruct (isLocalStorageAvailable_usable st) as [Hr _].
  destruct (isLocalStorageAvailable st) as [r st1]; cbn [fst snd] in *. subst r.
  destruct (storageUsable st); cbn [negb];
    [|eexists; split; [reflexivity|intros; apply Hprobe; assumption]].
  unfold try_catch, bind.
  pose proof (getRecentFiles_frame st1) as Hread.
  destruct (getRecentFiles st1) as [[files|e] st2]; cbn [fst snd] in *;
    [|eexists; split; [reflexivity|intros; rewrite Hread, Hprobe by assumption; reflexivity]].
  unfold lift.
  destruct (filterOut (arg_name c) (arg_toolUsed c) files) as [kept|e];
    [|eexists; split; [reflexivity|intros; rewrite Hread, Hprobe by assumption; reflexivity]].
  unfold setItem. destruct (access_denied st2);
    [eexists; split; [reflexivity|intros; rewrite Hread, Hprobe by assumption; reflexivity]|].
  destruct (writable st2 STORAGE_KEY _);
    (eexists; split; [reflexivity|intros k Hk1 Hk2; cbn [items with_items]]).
  - rewrite lookup_insert_ne by congruence. rewrite Hread, Hprobe by assumption.
    reflexivity.
  - rewrite Hread, Hprobe by assumption. reflexivity.
Qed.

(** X1. Whatever the state of the storage (absent, refusing access, full,
    holding text that is not JSON or an array with [null] in it),
    [addRecentFile] does not throw and returns the entry it built; and it
    leaves every key other than its own and the probe key as it was. *)
Theorem addRecentFile_fails_soft (c : AddCall) (st : Storage) :
  fst (addRecentFile c st) = Ret (newFileOf c) /\
  forall k, k <> STORAGE_KEY -> k <> testKey ->
    items (snd (addRecentFile c st)) !! k = items st !! k.
Proof.
  destruct (addRecentFile_run c st) as (st' & Hrun & Hframe).
  rewrite Hrun. split; [reflexivity|exact Hframe].
Qed.

Lemma filter_take_length {A} (q : A -> bool) n (l : list A) :
  length (List.filter q (take n l)) <= length (List.filter q l).
Proof.
  revert n. induction l as [|a l IH]; intros [|n]; cbn; try lia.
  specialize (IH n). destruct (q a); cbn; lia.
Qed.

Lemma filter_filter_length {A} (q p : A -> bool) (l : list A) :
  length (List.filter q (List.filter p l)) <= length (List.filter q l).
Proof.
  induction l as [|a l IH]; cbn; [lia|].
  destruct (p a) eqn:Hp, (q a) eqn:Hq; cbn; try rewrite Hq; cbn; lia.
Qed.

Lemma filter_none {A} (q : A -> bool) (l : list A) :
  Forall (fun a => q a = false) l -> List.filter q l = [].
Proof.
  induction 1 as [|a l Ha Hl IH]; cbn; [reflexivity|]. rewrite Ha. assumption.
Qed.

Lemma matchesKey_entryOf nm tool c :
  matchesKey nm tool (entryOf c) = true <-> (nm, tool) = keyOf c.
Proof.
  unfold entryOf. rewrite matchesKey_toJson. cbn [name toolUsed newFileOf].
  rewrite andb_true_iff, !String.eqb_eq. unfold keyOf.
  split; [intros [-> ->]; reflexivity|intros [= -> ->]; split; reflexivity].
Qed.

(** X2. With storage that takes the writes, after [addRecentFile] the stored
    list has at most ten entries and exactly one entry with the inserted
    [(name, toolUsed)] pair, whatever was stored before; and if no pair
    occurred twice before, none does afterwards. *)
Theorem addRecentFile_bounded_and_distinct (c : AddCall) (st : Storage) :
  JSON_parse_text "" = None ->
  accepting st ->
  Forall (fun f => f <> JNull) (storedList st) ->
  let after := storedList (snd (addRecentFile c st)) in
  length after <= 10 /\
  length (List.filter (matchesKey (arg_name c) (arg_toolUsed c)) after) = 1 /\
  ((forall nm tool, length (List.filter (matchesKey nm tool) (storedList st)) <= 1) ->
   forall nm tool, length (List.filter (matchesKey nm tool) after) <= 1).
Proof.
  intros Hempty Hacc Hnn after.
  destruct (addRecentFile_stored JSON_parse_text c st Hempty Hacc Hnn) as (_ & _ & Hs).
  subst after. rewrite Hs. unfold inserted, MAX_RECENT_FILES.
  set (p := fun f => negb (matchesKey (arg_name c) (arg_toolUsed c) f)).
  set (F := List.filter p (storedList st)).
  change (take 10 (entryOf c :: F)) with (entryOf c :: take 9 F).
  assert (List.filter (matchesKey (arg_name c) (arg_toolUsed c)) (take 9 F) = []) as Hnone.
  { apply filter_none, Forall_take. rewrite Forall_forall. intros f Hf.
    apply list_elem_of_In, filter_In in Hf as [_ Hf]. unfold p in Hf.
    destruct (matchesKey _ _ f); [discriminate|reflexivity]. }
  assert (matchesKey (arg_name c) (arg_toolUsed c) (entryOf c) = true) as Hself
    by (apply matchesKey_entryOf; reflexivity).
  split; [|split].
  - cbn [length]. rewrite length_take. lia.
  - cbn [List.filter]. rewrite Hself, Hnone. reflexivity.
  - intros Hdistinct nm tool. cbn [List.filter].
    destruct (matchesKey nm tool (entryOf c)) eqn:Hm.
    + apply matchesKey_entryOf in Hm. injection Hm as -> ->.
      rewrite Hnone. cbn. lia.
    + pose proof (filter_take_length (matchesKey nm tool) 9 F).
      pose proof (filter_filter_length (matchesKey nm tool) p (storedList st)).
      specialize (Hdistinct nm tool). fold F in H0. lia.
Qed.

(** *** Removal *)

(** [f.id === ident] where it does not throw. *)
Definition hasId (ident : string) (f : JsonValue) : bool :=
  match f with
  | JObj fields => strictEqString (assoc "id" fields) ident
  | _ => false
  end.

Lemma filterOtherIds_filter ident l :
  Forall (fun f => f <> JNull) l ->
  filterOtherIds ident l = Ret (List.filter (fun f => negb (hasId ident f)) l).
Proof.
  induction 1 as [|f l Hf Hl IH]; cbn [filterOtherIds List.filter]; [reflexivity|].
  rewrite IH. unfold hasOtherId, getProp, hasId.
  destruct f; try congruence; reflexivity.
Qed.

Lemma removeRecentFile_accepting ident st :
  JSON_parse_text "" = None ->
  accepting st ->
  Forall (fun f => f <> JNull) (storedList st) ->
  removeRecentFile ident st =
    (Ret tt,
     with_items st
       (<[STORAGE_KEY :=
            Serialized (JArr (List.filter (fun f => negb (hasId ident f)) (storedList st)))]>
          (delete testKey (items st)))).
Proof.
  intros Hempty Hacc Hnn.
  set (st1 := with_items st (delete testKey (items st))).
  assert (accepting st1) as Hacc1 by (apply accepting_with_items; assumption).
  assert (storedList st1 = storedList st) as Hsl.
  { apply storedList_with_items; [assumption|].
    apply lookup_delete_ne, testKey_ne_STORAGE_KEY. }
  unfold RecentFiles.removeRecentFile, bind.
  rewrite (isLocalStorageAvailable_accepting st Hacc). fold st1. cbn [negb].
  unfold try_catch, bind.
  rewrite (getRecentFiles_accepting JSON_parse_text st1 Hempty Hacc1), Hsl.
  unfold lift. rewrite filterOtherIds_filter by assumption.
  unfold setItem. destruct Hacc as (Hw & Ha & Hq).
  cbn [access_denied writable with_items st1].
  rewrite Ha, Hq. unfold st1. cbn [items with_items window_defined access_denied writable].
  rewrite delete_delete_eq. reflexivity.
Qed.

(** X3. [removeRecentFile] never throws. With storage that takes the writes,
    it leaves the stored list without the entries whose [id] is the given
    one, the others in the order they had; so the list does not grow, and a
    second removal of the same id changes nothing further. *)
Theorem removeRecentFile_removes_by_id (ident : string) :
  (forall st, fst (removeRecentFile ident st) = Ret tt) /\
  (JSON_parse_text "" = None ->
   forall st,
     accepting st ->
     Forall (fun f => f <> JNull) (storedList st) ->
     let st' := snd (removeRecentFile ident st) in
     storedList st' = List.filter (fun f => negb (hasId ident f)) (storedList st) /\
     Forall (fun f => hasId ident f = false) (storedList st') /\
     length (storedList st') <= length (storedList st) /\
     storedList (snd (removeRecentFile ident st')) = storedList st').
Proof.
  split.
  - intros st. unfold RecentFiles.removeRecentFile, bind.
    destruct (isLocalStorageAvailable_usable st) as [Hr _].
    destruct (isLocalStorageAvailable st) as [r st1]; cbn [fst] in *. subst r.
    destruct (storageUsable st); cbn [negb]; [|reflexivity].
    unfold try_catch, bind.
    destruct (getRecentFiles st1) as [[files|e] st2]; [|reflexivity].
    unfold lift. destruct (filterOtherIds ident files); [|reflexivity].
    unfold setItem. destruct (access_denied st2); [reflexivity|].
    destruct (writable st2 _ _); reflexivity.
  - intros Hempty st Hacc Hnn st'.
    assert (forall s, accepting s -> Forall (fun f => f <> JNull) (storedList s) ->
              storedList (snd (removeRecentFile ident s))
              = List.filter (fun f => negb (hasId ident f)) (storedList s)) as Hstep.
    { intros s Hs Hsn. rewrite (removeRecentFile_accepting ident s Hempty Hs Hsn).
      cbn [snd]. unfold RecentFilesProps.storedList at 1, backingState.
      rewrite (accepting_usable _ (accepting_with_items s _ Hs)).
      cbn [items with_items]. rewrite lookup_insert_eq. reflexivity. }
    assert (accepting st') as Hacc'.
    { subst st'. rewrite (removeRecentFile_accepting ident st Hempty Hacc Hnn).
      apply accepting_with_items. assumption. }
    pose proof (Hstep st Hacc Hnn) as Hs. fold st' in Hs.
    assert (Forall (fun f => f <> JNull) (storedList st')) as Hnn'.
    { rewrite Hs. rewrite Forall_forall in *. intros f Hf. apply Hnn.
      apply list_elem_of_In. apply list_elem_of_In, filter_In in Hf. tauto. }
    split; [exact Hs|]. split; [|split].
    + rewrite Hs, Forall_forall. intros f Hf.
      apply list_elem_of_In, filter_In in Hf as [_ Hf].
      destruct (hasId ident f); [discriminate|reflexivity].
    + rewrite Hs. apply List.filter_length_le.
    + rewrite (Hstep st' Hacc' Hnn'), Hs.
      clear. induction (storedList st) as [|f l IH]; [reflexivity|].
      cbn [List.filter]. destruct (negb (hasId ident f)) eqn:Hf; [|exact IH].
      cbn [List.filter]. rewrite Hf, IH. reflexivity.
Qed.

(** *** Clearing *)

Lemma storageUsable_probe st :
  storageUsable (snd (isLocalStorageAvailable st)) = storageUsable st.
Proof.
  destruct (isLocalStorageAvailable_usable st) as (_ & _ & Hw & Ha & Hq).
  unfold storageUsable. rewrite Hw, Ha, Hq. reflexivity.
Qed.

(** X4. [clearRecentFiles] never throws, and a read made after it finds the
    empty list, whatever was stored and whatever the state of the storage. *)
Theorem clearRecentFiles_empties (st : Storage) :
  fst (clearRecentFiles st) = Ret tt /\
  fst (getRecentFiles (snd (clearRecentFiles st))) = Ret [].
Proof.
  assert (exists st',
            clearRecentFiles st = (Ret tt, st') /\
            (storageUsable st' = true -> items st' !! STORAGE_KEY = None))
    as (st' & Hrun & Hgone).
  { unfold clearRecentFiles, bind.
    pose proof (storageUsable_probe st) as Hu.
    destruct (isLocalStorageAvailable_usable st) as [Hr _].
    destruct (isLocalStorageAvailable st) as [r st1]; cbn [fst snd] in *. subst r.
    destruct (storageUsable st) eqn:Hus; cbn [negb].
    - unfold try_catch, removeItem.
      assert (access_denied st1 = false) as Had.
      { unfold storageUsable in Hu. destruct (access_denied st1); [|reflexivity].
        rewrite andb_false_r in Hu. discriminate. }
      rewrite Had. eexists. split; [reflexivity|]. intros _.
      cbn [items with_items]. apply lookup_delete_eq.
    - eexists. split; [reflexivity|]. congruence. }
  rewrite Hrun. cbn [fst snd]. split; [reflexivity|].
  destruct (isLocalStorageAvailable_usable st') as (Hr & Hi & _ & Ha & _).
  unfold RecentFiles.getRecentFiles, bind.
  destruct (isLocalStorageAvailable st') as [r st2]; cbn [fst snd] in *. subst r.
  destruct (storageUsable st') eqn:Hus; cbn [negb]; [|reflexivity].
  unfold try_catch, bind, getItem.
  destruct (access_denied st2); [reflexivity|].
  rewrite Hi, (Hgone eq_refl). reflexivity.
Qed.

End WithParser.

(** *** Witnesses *)

Lemma addRecentFile_bounded_and_distinct_witness :
  let after := RecentFilesProps.storedList sampleParser
                 (snd (RecentFiles.addRecentFile sampleParser
                         (sampleCall "a.pdf" "merge" "id-3") twoStored)) in
  length after <= 10 /\
  length (List.filter (matchesKey "a.pdf" "merge") after) = 1.
Proof.
  destruct (addRecentFile_bounded_and_distinct sampleParser
              (sampleCall "a.pdf" "merge" "id-3") twoStored eq_refl
              (sampleStorage_accepting _)) as (Hlen & Hone & _).
  - repeat constructor; discriminate.
  - exact (conj Hlen Hone).
Defined.

Lemma removeRecentFile_removes_by_id_witness :
  RecentFilesProps.storedList sampleParser
    (snd (RecentFiles.removeRecentFile sampleParser "id-1" twoStored))
  = [entryOf (sampleCall "b.pdf" "crop" "id-2")].
Proof.
  destruct (removeRecentFile_removes_by_id sampleParser "id-1") as [_ Hrem].
  destruct (Hrem eq_refl twoStored (sampleStorage_accepting _)) as (Hs & _).
  - repeat constructor; discriminate.
  - exact Hs.
Defined.

(** *** Display of a date *)

(** X5. For a valid date, [formatDate] shows "Just now" for anything less
    than a minute old, dates in the future included; then whole minutes
    from 1 to 59, whole hours from 1 to 23, whole days from 1 to 6; and the
    locale date from seven days on. *)
Theorem formatDate_bands (parseDate : string -> option Z)
    (toLocaleDateString : Z -> string) (now date : Z) (iso : string) :
  parseDate iso = Some date ->
  let shown := RecentFilesDisplay.formatDate parseDate toLocaleDateString now iso in
  let age := (now - date)%Z in
  ((age < 60000)%Z -> shown = "Just now") /\
  ((60000 <= age < 3600000)%Z ->
     shown = (Str.ofZ (age / 60000) ++ "m ago")%string /\ (1 <= age / 60000 <= 59)%Z) /\
  ((3600000 <= age < 86400000)%Z ->
     shown = (Str.ofZ (age / 3600000) ++ "h ago")%string /\ (1 <= age / 3600000 <= 23)%Z) /\
  ((86400000 <= age < 604800000)%Z ->
     shown = (Str.ofZ (age / 86400000) ++ "d ago")%string /\ (1 <= age / 86400000 <= 6)%Z) /\
  ((604800000 <= age)%Z -> shown = toLocaleDateString date).
Proof.
  intros Hdate shown age. subst shown.
  unfold RecentFilesDisplay.formatDate. rewrite Hdate. fold age.
  pose proof (Z.mul_div_le age 60000 eq_refl) as Hm1.
  pose proof (Z.mul_succ_div_gt age 60000 eq_refl) as Hm2.
  pose proof (Z.mul_div_le age 3600000 eq_refl) as Hh1.
  pose proof (Z.mul_succ_div_gt age 3600000 eq_refl) as Hh2.
  pose proof (Z.mul_div_le age 86400000 eq_refl) as Hd1.
  pose proof (Z.mul_succ_div_gt age 86400000 eq_refl) as Hd2.
  destruct (Z.ltb_spec (age / 60000) 1);
    [repeat split; intros; try reflexivity; lia|].
  destruct (Z.ltb_spec (age / 60000) 60);
    [repeat split; intros; try reflexivity; lia|].
  destruct (Z.ltb_spec (age / 3600000) 24);
    [repeat split; intros; try reflexivity; lia|].
  destruct (Z.ltb_spec (age / 86400000) 7);
    repeat split; intros; try reflexivity; lia.
Qed.

(** A clock for the witness: dates are written as their milliseconds. *)
Definition sampleParseDate (iso : string) : option Z :=
  if String.eqb iso "90000" then Some 90000%Z
  else if String.eqb iso "0" then Some 0%Z
  else None.

Lemma formatDate_bands_witness :
  RecentFilesDisplay.formatDate sampleParseDate (fun _ => "1/1/1970") 100000 "90000"
    = "Just now" /\
  RecentFilesDisplay.formatDate sampleParseDate (fun _ => "1/1/1970") 7290000 "90000"
    = "2h ago" /\
  RecentFilesDisplay.formatDate sampleParseDate (fun _ => "1/1/1970") 10 "90000"
    = "Just now".
Proof.
  refine (conj _ (conj _ _)).
  - apply (formatDate_bands sampleParseDate (fun _ => "1/1/1970") 100000 90000 "90000"
             eq_refl). cbn. lia.
  - apply (formatDate_bands sampleParseDate (fun _ => "1/1/1970") 7290000 90000 "90000"
             eq_refl). cbn. lia.
  - apply (formatDate_bands sampleParseDate (fun _ => "1/1/1970") 10 90000 "90000"
             eq_refl). cbn. lia.
Defined.

End RecentFilesLaws.

(** ** Project store: saving, listing, deleting *)

Module ProjectDBLaws.
Import ProjectDB.

(** *** The stable sort *)

Lemma insertSorted_Permutation {A} (before : A -> A -> bool) a (l : list A) :
  Permutation (insertSorted before a l) (a :: l).
Proof.
  induction l as [|b l IH]; cbn; [reflexivity|].
  destruct (before a b); [reflexivity|].
  rewrite IH. apply perm_swap.
Qed.

Lemma sortBy_Permutation {A} (before : A -> A -> bool) (l : list A) :
  Permutation (sortBy before l) l.
Proof.
  induction l as [|a l IH]; cbn; [reflexivity|].
  rewrite insertSorted_Permutation. constructor. exact IH.
Qed.

Section Sorted.

Context {A : Type} (before : A -> A -> bool).
Hypothesis before_total : forall a b, before a b = true \/ before b a = true.
Hypothesis before_trans :
  forall a b c, before a b = true -> before b c = true -> before a c = true.

Lemma insertSorted_sorted a (l : list A) :
  StronglySorted (fun x y => before x y = true) l ->
  StronglySorted (fun x y => before x y = true) (insertSorted before a l).
Proof.
  induction 1 as [|b l Hl IH Hb]; cbn; [repeat constructor|].
  destruct (before a b) eqn:Hab.
  - constructor; [constructor; assumption|].
    constructor; [assumption|].
    eapply Forall_impl; [exact Hb|]. intros c Hc. cbv beta. eauto.
  - constructor; [exact IH|].
    assert (before b a = true) as Hba by (destruct (before_total a b); congruence).
    rewrite (insertSorted_Permutation before a l). constructor; assumption.
Qed.

Lemma sortBy_sorted (l : list A) :
  StronglySorted (fun x y => before x y = true) (sortBy before l).
Proof.
  induction l as [|a l IH]; cbn; [constructor|].
  apply insertSorted_sorted. exact IH.
Qed.

End Sorted.

Lemma newerFirst_total a b : newerFirst a b = true \/ newerFirst b a = true.
Proof. unfold newerFirst. lia. Qed.

Lemma newerFirst_trans a b c :
  newerFirst a b = true -> newerFirst b c = true -> newerFirst a c = true.
Proof. unfold newerFirst. lia. Qed.

Lemma filter_Permutation_compat {A} (f : A -> bool) (l1 l2 : list A) :
  Permutation l1 l2 -> Permutation (List.filter f l1) (List.filter f l2).
Proof.
  induction 1 as [|a l1 l2 H IH|a b l|l1 l2 l3 H1 IH1 H2 IH2]; cbn.
  - reflexivity.
  - destruct (f a); [constructor|]; assumption.
  - destruct (f a), (f b); try reflexivity. apply perm_swap.
  - etransitivity; eassumption.
Qed.

Lemma Permutation_In_iff {A} (l1 l2 : list A) (a : A) :
  Permutation l1 l2 -> In a l1 <-> In a l2.
Proof.
  intros H. split; apply Permutation_in; [exact H | symmetry; exact H].
Qed.

(** The projects the store holds, each once. *)
Definition stored (db : Database) : list ProjectState :=
  map snd (map_to_list (projects db)).

Lemma allRecords_Permutation db : Permutation (allRecords db) (stored db).
Proof.
  unfold allRecords, stored. apply Permutation_map, sortBy_Permutation.
Qed.

Lemma stored_In db p : In p (stored db) <-> exists k, projects db !! k = Some p.
Proof.
  unfold stored. rewrite in_map_iff. split.
  - intros ([k q] & <- & Hin). exists k.
    apply list_elem_of_In, elem_of_map_to_list in Hin. exact Hin.
  - intros (k & Hk). exists (k, p). split; [reflexivity|].
    apply list_elem_of_In, elem_of_map_to_list. exact Hk.
Qed.

(** Most recently updated first. *)
Definition newestFirst (l : list ProjectState) : Prop :=
  StronglySorted (fun a b => (updatedAt b <= updatedAt a)%Z) l.

Lemma sortBy_newerFirst_newestFirst l : newestFirst (sortBy newerFirst l).
Proof.
  pose proof (sortBy_sorted newerFirst newerFirst_total newerFirst_trans l) as Hs.
  unfold newestFirst. induction Hs as [|a l' Hl IH Ha]; constructor; [assumption|].
  eapply Forall_impl; [exact Ha|]. intros b Hb. cbv beta in *. unfold newerFirst in Hb. lia.
Qed.

Lemma getAllProjects_opened db :
  opening db = Opened ->
  getAllProjects true db = (Ret (sortBy newerFirst (allRecords db)), db).
Proof.
  intros Ho. unfold getAllProjects, bind, openDatabase, get, ret. rewrite Ho. reflexivity.
Qed.

(** X6. With the database open, [getAllProjects] returns every stored
    project exactly once, most recently updated first, and leaves the store
    as it was. *)
Theorem getAllProjects_lists_store (db : Database) :
  opening db = Opened ->
  exists l,
    getAllProjects true db = (Ret l, db) /\
    Permutation l (stored db) /\
    newestFirst l.
Proof.
  intros Ho. eexists. split; [|split].
  - apply getAllProjects_opened. exact Ho.
  - rewrite sortBy_Permutation. apply allRecords_Permutation.
  - apply sortBy_newerFirst_newestFirst.
Qed.

(** X7. With the database open, [getProjectsByTool] returns exactly the
    stored projects of that tool, and [getInProgressProjects] exactly those
    whose status is [in_progress], each once and most recently updated
    first. *)
Theorem filtered_listings (db : Database) (tool : string) :
  opening db = Opened ->
  (exists l,
     getProjectsByTool tool true db = (Ret l, db) /\
     Permutation l (List.filter (fun p => String.eqb (toolId p) tool) (stored db)) /\
     (forall p, In p l <-> In p (stored db) /\ toolId p = tool) /\
     newestFirst l) /\
  (exists l,
     getInProgressProjects true db = (Ret l, db) /\
     Permutation l (List.filter isInProgress (stored db)) /\
     (forall p, In p l <-> In p (stored db) /\ status p = in_progress) /\
     newestFirst l).
Proof.
  intros Ho. split.
  - eexists. split; [|split; [|split]].
    + unfold getProjectsByTool, bind, openDatabase, get, ret. rewrite Ho. reflexivity.
    + rewrite sortBy_Permutation.
      apply filter_Permutation_compat, allRecords_Permutation.
    + intros p. rewrite (Permutation_In_iff _ _ p (sortBy_Permutation _ _)).
      rewrite filter_In, String.eqb_eq.
      rewrite (Permutation_In_iff _ _ p (allRecords_Permutation db)).
      reflexivity.
    + apply sortBy_newerFirst_newestFirst.
  - eexists. split; [|split; [|split]].
    + unfold getInProgressProjects, bind, openDatabase, get, ret. rewrite Ho. reflexivity.
    + rewrite sortBy_Permutation.
      apply filter_Permutation_compat, allRecords_Permutation.
    + intros p. rewrite (Permutation_In_iff _ _ p (sortBy_Permutation _ _)).
      rewrite filter_In.
      rewrite (Permutation_In_iff _ _ p (allRecords_Permutation db)).
      unfold isInProgress. destruct (status p); split; intros [? ?]; split;
        try assumption; try reflexivity; discriminate.
    + apply sortBy_newerFirst_newestFirst.
Qed.

(** *** A store with three projects *)

Definition draft : ProjectState :=
  {| id := "project_2"; name := "Scan"; toolId := "crop-pdf";
     toolName := None; createdAt := 1500%Z; updatedAt := 2500%Z;
     status := in_progress; options := []; fileMetadata := []; progress := 40%Q |}.

Definition shelved : ProjectState :=
  {| id := "project_3"; name := "Invoices"; toolId := "merge-pdf";
     toolName := Some "Merge PDF"; createdAt := 1200%Z; updatedAt := 1800%Z;
     status := paused; options := []; fileMetadata := []; progress := 10%Q |}.

Definition threeDB : Database :=
  {| opening := Opened; get_succeeds := fun _ => true; put_succeeds := fun _ => true;
     projects := <[ "project_3" := shelved ]>
                   (<[ "project_2" := draft ]>
                      {[ "project_1" := ProjectDBProps.doneProject ]}) |}.

Definition brokenDB : Database :=
  {| opening := OpenFailed; get_succeeds := fun _ => true; put_succeeds := fun _ => true;
     projects := {[ "project_1" := ProjectDBProps.doneProject ]} |}.

Definition newScan : NewProject :=
  {| n_name := "Scan 2"; n_toolId := "crop-pdf"; n_toolName := None;
     n_status := in_progress; n_options := []; n_fileMetadata := [];
     n_progress := 0%Q |}.

Lemma getAllProjects_lists_store_witness :
  exists l,
    getAllProjects true threeDB = (Ret l, threeDB) /\
    Permutation l (stored threeDB) /\
    newestFirst l.
Proof. exact (getAllProjects_lists_store threeDB eq_refl). Defined.

Lemma filtered_listings_witness :
  (exists l,
     getProjectsByTool "merge-pdf" true threeDB = (Ret l, threeDB) /\
     Permutation l
       (List.filter (fun p => String.eqb (toolId p) "merge-pdf") (stored threeDB)) /\
     (forall p, In p l <-> In p (stored threeDB) /\ toolId p = "merge-pdf") /\
     newestFirst l) /\
  (exists l,
     getInProgressProjects true threeDB = (Ret l, threeDB) /\
     Permutation l (List.filter isInProgress (stored threeDB)) /\
     (forall p, In p l <-> In p (stored threeDB) /\ status p = in_progress) /\
     newestFirst l).
Proof. exact (filtered_listings threeDB "merge-pdf" eq_refl). Defined.

(** *** Saving *)

(** The record [saveProject] builds. *)
Definition saved (project : NewProject) (generatedId : string) (now : Timestamp)
  : ProjectState :=
  {| id := generatedId; name := n_name project; toolId := n_toolId project;
     toolName := n_toolName project; createdAt := now; updatedAt := now;
     status := n_status project; options := n_options project;
     fileMetadata := n_fileMetadata project; progress := n_progress project |}.

Lemma saveProject_fresh db project gid now :
  opening db = Opened ->
  projects db !! gid = None ->
  saveProject project gid now true db =
    (Ret (saved project gid now),
     with_projects db (<[gid := saved project gid now]> (projects db))).
Proof.
  intros Ho Hfree.
  unfold saveProject, bind, openDatabase, get, put, ret.
  rewrite Ho. cbn. rewrite Hfree. reflexivity.
Qed.

Lemma getProject_opened db pid :
  opening db = Opened ->
  get_succeeds db pid = true ->
  getProject pid db = (Ret (projects db !! pid), db).
Proof.
  intros Ho Hget. unfold getProject, bind, openDatabase, get, ret, throw.
  rewrite Ho, Hget. reflexivity.
Qed.

(** X8. A project saved under an id the store does not hold is returned
    with that id and both timestamps set to the time of the call; the store
    then holds it under that id and every other record as before, so that
    [getProject] reads it back and [getAllProjects] lists it; it is listed
    first when no stored project was updated later. *)
Theorem saveProject_round_trip
    (db : Database) (project : NewProject) (gid : string) (now : Timestamp) :
  opening db = Opened ->
  projects db !! gid = None ->
  get_succeeds db gid = true ->
  exists r db',
    saveProject project gid now true db = (Ret r, db') /\
    id r = gid /\ createdAt r = now /\ updatedAt r = now /\
    getProject gid db' = (Ret (Some r), db') /\
    (forall k, k <> gid -> projects db' !! k = projects db !! k) /\
    (exists l, getAllProjects true db' = (Ret l, db') /\
               Permutation l (r :: stored db) /\
               ((forall p, In p (stored db) -> (updatedAt p < now)%Z) ->
                head l = Some r)).
Proof.
  intros Ho Hfree Hget.
  exists (saved project gid now),
         (with_projects db (<[gid := saved project gid now]> (projects db))).
  split; [apply saveProject_fresh; assumption|].
  split; [reflexivity|]. split; [reflexivity|]. split; [reflexivity|].
  split.
  { rewrite getProject_opened by assumption. cbn [projects with_projects].
    rewrite lookup_insert_eq. reflexivity. }
  split.
  { intros k Hk. cbn. apply lookup_insert_ne. congruence. }
  set (db' := with_projects db _).
  pose proof (getAllProjects_opened db' Ho) as Hl.
  pose proof (sortBy_newerFirst_newestFirst (allRecords db')) as Hsorted.
  assert (Permutation (sortBy newerFirst (allRecords db')) (stored db')) as Hperm
    by (rewrite sortBy_Permutation; apply allRecords_Permutation).
  revert Hl Hsorted Hperm. generalize (sortBy newerFirst (allRecords db')).
  intros l Hl Hsorted Hperm.
  assert (Permutation l (saved project gid now :: stored db)) as Hperm'.
  { rewrite Hperm. unfold stored, db'. cbn [projects with_projects].
    rewrite (map_to_list_insert _ _ _ Hfree). reflexivity. }
  exists l. split; [exact Hl|]. split; [exact Hperm'|].
  intros Hnewer.
  destruct l as [|a l']; [apply Permutation_nil_cons in Hperm'; contradiction|].
  cbn. f_equal.
  assert (In a (saved project gid now :: stored db)) as [Ha|Ha]
    by (eapply Permutation_in; [exact Hperm'|left; reflexivity]);
    [symmetry; exact Ha|].
  exfalso.
  assert (In (saved project gid now) (a :: l')) as [Hs|Hs]
    by (eapply Permutation_in; [symmetry; exact Hperm'|left; reflexivity]).
  - specialize (Hnewer a Ha). rewrite Hs in Hnewer. cbn in Hnewer. lia.
  - inversion Hsorted as [|? ? _ Hall]; subst.
    rewrite Forall_forall in Hall.
    apply list_elem_of_In in Hs. specialize (Hall _ Hs). cbn in Hall.
    specialize (Hnewer a Ha). lia.
Qed.

Lemma saveProject_round_trip_witness :
  exists r db',
    saveProject newScan "project_4" 3000%Z true threeDB = (Ret r, db') /\
    id r = "project_4" /\ createdAt r = 3000%Z /\ updatedAt r = 3000%Z /\
    getProject "project_4" db' = (Ret (Some r), db') /\
    (forall k, k <> "project_4" -> projects db' !! k = projects threeDB !! k) /\
    (exists l, getAllProjects true db' = (Ret l, db') /\
               Permutation l (r :: stored threeDB) /\
               ((forall p, In p (stored threeDB) -> (updatedAt p < 3000)%Z) ->
                head l = Some r)).
Proof.
  exact (saveProject_round_trip threeDB newScan "project_4" 3000%Z
           eq_refl eq_refl eq_refl).
Defined.

(** X9. [saveProject] never replaces a record: on an id the store holds,
    or when the add request fails, it rejects with 'Failed to save project'
    and the store is as it was. *)
Theorem saveProject_never_overwrites
    (db : Database) (project : NewProject) (gid : string) (now : Timestamp)
    (requestSucceeds : bool) :
  opening db = Opened ->
  is_Some (projects db !! gid) \/ requestSucceeds = false ->
  saveProject project gid now requestSucceeds db =
    (Throw (ErrorObject "Failed to save project"), db).
Proof.
  intros Ho Hcase.
  unfold saveProject, bind, openDatabase, get, put, ret, throw.
  rewrite Ho. cbn.
  destruct (projects db !! gid) as [p|] eqn:Hp; [reflexivity|].
  destruct Hcase as [[q Hq]|Hfail]; [discriminate|]. rewrite Hfail. reflexivity.
Qed.

Lemma saveProject_never_overwrites_witness :
  saveProject newScan "project_2" 3000%Z true threeDB =
    (Throw (ErrorObject "Failed to save project"), threeDB).
Proof.
  apply (saveProject_never_overwrites threeDB newScan "project_2" 3000%Z true eq_refl).
  left. vm_compute. eauto.
Defined.

(** *** Deleting *)

(** X10. [deleteProject] removes the record of that id and no other: with
    the database open it resolves, after which [getProject] of that id
    yields [null], every other record is as before, and the projects listed
    are those listed before whose key is not that id; on an id the store
    does not hold the records are unchanged. *)
Theorem deleteProject_removes_one (db : Database) (pid : string) :
  opening db = Opened ->
  get_succeeds db pid = true ->
  exists db',
    deleteProject pid true db = (Ret tt, db') /\
    getProject pid db' = (Ret None, db') /\
    (forall k, k <> pid -> projects db' !! k = projects db !! k) /\
    (forall p, In p (stored db') <->
               exists k, k <> pid /\ projects db !! k = Some p) /\
    (projects db !! pid = None -> projects db' = projects db).
Proof.
  intros Ho Hget. exists (with_projects db (delete pid (projects db))).
  split.
  { unfold deleteProject, bind, openDatabase, get, put. rewrite Ho. reflexivity. }
  split.
  { rewrite getProject_opened by assumption. cbn [projects with_projects].
    rewrite lookup_delete_eq. reflexivity. }
  split.
  { intros k Hk. cbn. apply lookup_delete_ne. congruence. }
  split.
  { intros p. rewrite stored_In. cbn. split.
    - intros (k & Hk). apply lookup_delete_Some in Hk as [Hne Hk]. eauto.
    - intros (k & Hne & Hk). exists k. apply lookup_delete_Some. auto. }
  intros Habsent. cbn. apply delete_id. exact Habsent.
Qed.

Lemma deleteProject_removes_one_witness :
  exists db',
    deleteProject "project_2" true threeDB = (Ret tt, db') /\
    getProject "project_2" db' = (Ret None, db') /\
    (forall k, k <> "project_2" -> projects db' !! k = projects threeDB !! k) /\
    (forall p, In p (stored db') <->
               exists k, k <> "project_2" /\ projects threeDB !! k = Some p) /\
    (projects threeDB !! "project_2" = None -> projects db' = projects threeDB).
Proof. exact (deleteProject_removes_one threeDB "project_2" eq_refl eq_refl). Defined.

(** X11. After [clearAllProjects] resolves, every listing is empty and no
    id is found. *)
Theorem clearAllProjects_empties (db : Database) (tool pid : string) :
  opening db = Opened ->
  get_succeeds db pid = true ->
  exists db',
    clearAllProjects true db = (Ret tt, db') /\
    getAllProjects true db' = (Ret [], db') /\
    getProjectsByTool tool true db' = (Ret [], db') /\
    getInProgressProjects true db' = (Ret [], db') /\
    getProject pid db' = (Ret None, db').
Proof.
  intros Ho Hget. exists (with_projects db ∅).
  rewrite getProject_opened by assumption.
  unfold clearAllProjects, getAllProjects, getProjectsByTool, getInProgressProjects,
    bind, openDatabase, get, put, ret, allRecords.
  cbn [opening with_projects projects]. rewrite Ho.
  change (projects (with_projects db ∅)) with (∅ : gmap string ProjectState).
  rewrite map_to_list_empty, lookup_empty. repeat split; reflexivity.
Qed.

Lemma clearAllProjects_empties_witness :
  exists db',
    clearAllProjects true threeDB = (Ret tt, db') /\
    getAllProjects true db' = (Ret [], db') /\
    getProjectsByTool "merge-pdf" true db' = (Ret [], db') /\
    getInProgressProjects true db' = (Ret [], db') /\
    getProject "project_1" db' = (Ret None, db').
Proof.
  exact (clearAllProjects_empties threeDB "merge-pdf" "project_1" eq_refl eq_refl).
Defined.

(** *** A database that does not open *)

(** The error with which [openDatabase] rejects. *)
Definition openError (db : Database) : Thrown :=
  ErrorObject (if isIndexedDBAvailable db then "Failed to open database"
               else "IndexedDB not available").

(** X12. When the database does not open, every operation of the store
    rejects, whatever its arguments, with 'IndexedDB not available' if
    [isIndexedDBAvailable] is false and 'Failed to open database' otherwise,
    and leaves the store untouched. *)
Theorem closed_database_rejects (db : Database) :
  opening db <> Opened ->
  (forall project gid now ok, saveProject project gid now ok db = (Throw (openError db), db)) /\
  (forall pid u now, updateProject pid u now db = (Throw (openError db), db)) /\
  (forall pid, getProject pid db = (Throw (openError db), db)) /\
  (forall ok, getAllProjects ok db = (Throw (openError db), db)) /\
  (forall tool ok, getProjectsByTool tool ok db = (Throw (openError db), db)) /\
  (forall ok, getInProgressProjects ok db = (Throw (openError db), db)) /\
  (forall pid ok, deleteProject pid ok db = (Throw (openError db), db)) /\
  (forall ok, clearAllProjects ok db = (Throw (openError db), db)).
Proof.
  intros Hclosed.
  unfold saveProject, updateProject, getProject, getAllProjects, getProjectsByTool,
    getInProgressProjects, deleteProject, clearAllProjects, bind, openDatabase,
    openError, isIndexedDBAvailable.
  destruct (opening db); [contradiction| |]; repeat split.
Qed.

Lemma closed_database_rejects_witness :
  (forall project gid now ok,
     saveProject project gid now ok brokenDB = (Throw (openError brokenDB), brokenDB)) /\
  (forall pid u now, updateProject pid u now brokenDB = (Throw (openError brokenDB), brokenDB)) /\
  (forall pid, getProject pid brokenDB = (Throw (openError brokenDB), brokenDB)) /\
  (forall ok, getAllProjects ok brokenDB = (Throw (openError brokenDB), brokenDB)) /\
  (forall tool ok, getProjectsByTool tool ok brokenDB = (Throw (openError brokenDB), brokenDB)) /\
  (forall ok, getInProgressProjects ok brokenDB = (Throw (openError brokenDB), brokenDB)) /\
  (forall pid ok, deleteProject pid ok brokenDB = (Throw (openError brokenDB), brokenDB)) /\
  (forall ok, clearAllProjects ok brokenDB = (Throw (openError brokenDB), brokenDB)).
Proof. apply (closed_database_rejects brokenDB). discriminate. Defined.

(** *** The key path *)

(** The store is keyed by the [id] of its records ([keyPath: 'id']). *)
Definition wellKeyed (db : Database) : Prop :=
  forall k p, projects db !! k = Some p -> id p = k.

(** X13. Keying by [id] is an invariant of the store: whatever the outcome
    of its requests, [saveProject], [updateProject], [deleteProject] and
    [clearAllProjects] leave every record under its own id; and
    [updateProject] changes no record other than the one of the id it is
    given. *)
Theorem store_stays_keyed (db : Database) :
  wellKeyed db ->
  (forall project gid now ok, wellKeyed (snd (saveProject project gid now ok db))) /\
  (forall pid u now,
     wellKeyed (snd (updateProject pid u now db)) /\
     forall k, k <> pid ->
       projects (snd (updateProject pid u now db)) !! k = projects db !! k) /\
  (forall pid ok, wellKeyed (snd (deleteProject pid ok db))) /\
  (forall ok, wellKeyed (snd (clearAllProjects ok db))).
Proof.
  intros Hkeyed. repeat split.
  - intros project gid now ok.
    unfold saveProject, bind, openDatabase, get, put, ret, throw.
    destruct (opening db); cbn; try exact Hkeyed.
    destruct (projects db !! gid) eqn:Hg; cbn; [exact Hkeyed|].
    destruct ok; cbn; [|exact Hkeyed].
    intros k p Hk. cbn in Hk. apply lookup_insert_Some in Hk as [[<- <-]|[_ Hk]];
      [reflexivity|eauto].
  - unfold updateProject, bind, openDatabase, get, put, ret, throw.
    destruct (opening db); cbn; try exact Hkeyed.
    destruct (get_succeeds db pid); cbn; [|exact Hkeyed].
    destruct (projects db !! pid) as [p|] eqn:Hp; cbn; [|exact Hkeyed].
    destruct (put_succeeds db (merge p u now)); cbn; [|exact Hkeyed].
    intros k q Hk. cbn in Hk. apply lookup_insert_Some in Hk as [[<- <-]|[_ Hk]];
      [reflexivity|eauto].
  - intros k Hne.
    unfold updateProject, bind, openDatabase, get, put, ret, throw.
    destruct (opening db); cbn; try reflexivity.
    destruct (get_succeeds db pid); cbn; [|reflexivity].
    destruct (projects db !! pid) as [p|] eqn:Hp; cbn; [|reflexivity].
    destruct (put_succeeds db (merge p u now)); cbn; [|reflexivity].
    apply lookup_insert_ne. rewrite (Hkeyed _ _ Hp). congruence.
  - intros pid ok.
    unfold deleteProject, bind, openDatabase, get, put, ret, throw.
    destruct (opening db); cbn; try exact Hkeyed.
    destruct ok; cbn; [|exact Hkeyed].
    intros k p Hk. cbn in Hk. apply lookup_delete_Some in Hk as [_ Hk]. eauto.
  - intros ok.
    unfold clearAllProjects, bind, openDatabase, get, put, ret, throw.
    destruct (opening db); cbn; try exact Hkeyed.
    destruct ok; cbn; [|exact Hkeyed].
    intros k p Hk. cbn in Hk. rewrite lookup_empty in Hk. discriminate.
Qed.

Lemma threeDB_wellKeyed : wellKeyed threeDB.
Proof.
  intros k p Hk. cbn in Hk.
  repeat (apply lookup_insert_Some in Hk as [[<- <-]|[_ Hk]]; [reflexivity|]).
  apply lookup_singleton_Some in Hk as [<- <-]. reflexivity.
Qed.

Lemma store_stays_keyed_witness :
  (forall project gid now ok, wellKeyed (snd (saveProject project gid now ok threeDB))) /\
  (forall pid u now,
     wellKeyed (snd (updateProject pid u now threeDB)) /\
     forall k, k <> pid ->
       projects (snd (updateProject pid u now threeDB)) !! k = projects threeDB !! k) /\
  (forall pid ok, wellKeyed (snd (deleteProject pid ok threeDB))) /\
  (forall ok, wellKeyed (snd (clearAllProjects ok threeDB))).
Proof. exact (store_stays_keyed threeDB threeDB_wellKeyed). Defined.

End ProjectDBLaws.

(** ** Font cache: what a lookup leaves behind *)

Module FontCacheLaws.
Import FontCache FontCacheProps.

(** The buffer a successful download of [url] yields. *)
Definition downloaded (w : FontWorld) (url : string) : option ArrayBuffer :=
  match fetch w url with
  | Response true (Ret b) => Some b
  | _ => None
  end.

Lemma saveFontToDB_cases k b w :
  saveFontToDB k b w = (Ret tt, w) \/
  saveFontToDB k b w = (Ret tt, with_fontDB w (<[k := b]> (fontDB w))) \/
  exists e, saveFontToDB k b w = (Throw e, w).
Proof.
  unfold saveFontToDB. destruct (db_opens w) eqn:Ho.
  - rewrite tryOpenThenReturn_opens by assumption. unfold storePut.
    destruct (put_succeeds w k b); eauto.
  - rewrite tryOpenThenReturn_closed by assumption. auto.
Qed.

(** X14. Whatever the database and the network do: when [loadFont] returns
    a buffer, the memory tier holds that buffer under the font id, and a
    further lookup returns it without touching the database or the network;
    no entry of another font is changed in either tier; and the durable
    entry of the font changes only to the buffer returned. *)
Theorem loadFont_fills_memory (w : FontWorld) (k url : string) :
  let r := loadFont k url w in
  (forall b, fst r = Ret b ->
     fontCache (snd r) !! k = Some b /\
     forall url', loadFont k url' (snd r) = (Ret b, snd r)) /\
  (forall k', k' <> k ->
     fontCache (snd r) !! k' = fontCache w !! k' /\
     fontDB (snd r) !! k' = fontDB w !! k') /\
  (fontDB (snd r) !! k = fontDB w !! k \/
   exists b, fst r = Ret b /\ fontDB (snd r) !! k = Some b).
Proof.
  cbv zeta.
  assert (forall b, fst (loadFont k url w) = Ret b ->
                    fontCache (snd (loadFont k url w)) !! k = Some b) as Hmem.
  { intros b. unfold loadFont, bind, get.
    destruct (fontCache w !! k) as [b0|] eqn:Hhit; cbn [fst snd].
    - intros [= <-]. exact Hhit.
    - pose proof (getCachedFontFromDB_reads k w) as Hread.
      destruct (getCachedFontFromDB k w) as [[[b1|]|e] w1]; cbn [fst snd] in *; subst w1.
      + intros [= <-]. cbn. apply lookup_insert_eq.
      + unfold fetchFont, bind, get, lift, throw.
        destruct (fetch w url) as [|[|] [b2|e]]; cbn [negb fst snd]; try discriminate.
        pose proof (cachePut_memory k b2 w) as Hput.
        destruct (cachePut k b2 w) as [[[]|e] w2]; cbn [fst snd] in *;
          [intros [= <-]; exact Hput|discriminate].
      + discriminate. }
  split; [|split].
  - intros b Hb. split; [apply Hmem; exact Hb|].
    intros url'. apply loadFont_memory_hit, Hmem. exact Hb.
  - intros k' Hne. unfold loadFont, bind, get.
    destruct (fontCache w !! k) as [b0|] eqn:Hhit; cbn [fst snd]; [auto|].
    pose proof (getCachedFontFromDB_reads k w) as Hread.
    destruct (getCachedFontFromDB k w) as [[[b1|]|e] w1]; cbn [fst snd] in *; subst w1;
      [cbn; split; [apply lookup_insert_ne; congruence|reflexivity]| |auto].
    unfold fetchFont, bind, get, lift, throw.
    destruct (fetch w url) as [|[|] [b2|e]]; cbn [negb fst snd]; auto.
    rewrite cachePut_unfold.
    destruct (saveFontToDB_cases k b2 (with_fontCache w (<[k:=b2]> (fontCache w))))
      as [Hs|[Hs|[e Hs]]]; rewrite Hs; cbn;
      (split; [apply lookup_insert_ne; congruence|]);
      try reflexivity.
    apply lookup_insert_ne. congruence.
  - unfold loadFont, bind, get.
    destruct (fontCache w !! k) as [b0|] eqn:Hhit; cbn [fst snd]; [auto|].
    pose proof (getCachedFontFromDB_reads k w) as Hread.
    destruct (getCachedFontFromDB k w) as [[[b1|]|e] w1]; cbn [fst snd] in *; subst w1;
      [left; reflexivity| |auto].
    unfold fetchFont, bind, get, lift, throw.
    destruct (fetch w url) as [|[|] [b2|e]]; cbn [negb fst snd]; auto.
    rewrite cachePut_unfold.
    destruct (saveFontToDB_cases k b2 (with_fontCache w (<[k:=b2]> (fontCache w))))
      as [Hs|[Hs|[e Hs]]]; rewrite Hs; cbn; auto.
    right. exists b2. split; [reflexivity|apply lookup_insert_eq].
Qed.

(** X15. A download that fails caches nothing: when neither tier yields
    the font and the download does not deliver a buffer, [loadFont] rejects
    and both tiers are as they were; for a response that is not [ok] the
    error is 'Failed to load font: ' followed by the font id. *)
Theorem failed_download_caches_nothing (w : FontWorld) (k url : string) :
  fontCache w !! k = None ->
  fst (getCachedFontFromDB k w) = Ret None ->
  downloaded w url = None ->
  exists e,
    loadFont k url w = (Throw e, w) /\
    forall body, fetch w url = Response false body ->
                 e = ErrorObject ("Failed to load font: " ++ k).
Proof.
  intros Hmiss Hdb Hdown. unfold loadFont, bind, get. rewrite Hmiss.
  pose proof (getCachedFontFromDB_reads k w) as Hread.
  destruct (getCachedFontFromDB k w) as [r w1]. cbn [fst snd] in *. subst r w1.
  unfold fetchFont, bind, get, lift, throw. unfold downloaded in Hdown.
  destruct (fetch w url) as [|[|] [b|e]]; cbn [negb]; try discriminate;
    eexists; (split; [reflexivity|]); intros body [=]; reflexivity.
Qed.

Definition unreachable : FontWorld :=
  {| fontCache := ∅; fontDB := ∅; db_opens := false;
     get_succeeds := fun _ => true; put_succeeds := fun _ _ => true;
     fetch := fun _ => Response false (Ret []) |}.

Lemma failed_download_caches_nothing_witness :
  exists e,
    loadFont "noto-sans" notoUrl unreachable = (Throw e, unreachable) /\
    forall body, fetch unreachable notoUrl = Response false body ->
                 e = ErrorObject "Failed to load font: noto-sans".
Proof.
  exact (failed_download_caches_nothing unreachable "noto-sans" notoUrl
           eq_refl eq_refl eq_refl).
Defined.

(** X16. When the font was downloaded and the put into the durable store
    fails, [loadFont] rejects with the error of the put and the durable
    store is unchanged, but the memory tier has kept the buffer: the next
    lookup of the font returns it. *)
Theorem lookup_after_failed_put (w : FontWorld) (k url : string) (b : ArrayBuffer) :
  fontCache w !! k = None ->
  fst (getCachedFontFromDB k w) = Ret None ->
  downloaded w url = Some b ->
  db_opens w = true ->
  put_succeeds w k b = false ->
  let w' := snd (loadFont k url w) in
  fst (loadFont k url w) = Throw (ErrorObject "put request failed") /\
  fontDB w' = fontDB w /\
  forall url', loadFont k url' w' = (Ret b, w').
Proof.
  intros Hmiss Hdb Hdown Ho Hput.
  assert (fetch w url = Response true (Ret b)) as Hfetch.
  { unfold downloaded in Hdown.
    destruct (fetch w url) as [|[|] [b'|e]]; try discriminate. congruence. }
  assert (getCachedFontFromDB k w = (Ret None, w)) as Hdb'.
  { pose proof (getCachedFontFromDB_reads k w).
    destruct (getCachedFontFromDB k w); cbn [fst snd] in *; congruence. }
  cbv zeta. rewrite (loadFont_fetch_then_put k url b w Hmiss Hdb' Hfetch).
  rewrite cachePut_unfold.
  rewrite saveFontToDB_put_failure_rejects by assumption.
  cbn [fst snd]. split; [reflexivity|]. split; [reflexivity|].
  intros url'. apply loadFont_memory_hit. cbn. apply lookup_insert_eq.
Qed.

Lemma lookup_after_failed_put_witness :
  let w' := snd (loadFont "noto-sans" notoUrl (coldWorld false)) in
  fst (loadFont "noto-sans" notoUrl (coldWorld false))
    = Throw (ErrorObject "put request failed") /\
  fontDB w' = fontDB (coldWorld false) /\
  forall url', loadFont "noto-sans" url' w' = (Ret fontBytes, w').
Proof.
  exact (lookup_after_failed_put (coldWorld false) "noto-sans" notoUrl fontBytes
           eq_refl eq_refl eq_refl eq_refl eq_refl).
Defined.

End FontCacheLaws.

(** ** Colours *)

Module HexColorLaws.
Import TextToPDF HexColor.

Local Open Scope Q_scope.

Definition black : TextColor := {| r := 0; g := 0; b := 0 |}.

(** A channel value that pdf-lib's [rgb] accepts. *)
Definition unit_range (c : Q) : Prop := 0 <= c /\ c <= 1.

Lemma hexDigit_range c d : hexDigit c = Some d -> (0 <= d < 16)%Z.
Proof.
  unfold hexDigit.
  repeat match goal with
         | |- context [if ?t then _ else _] => destruct t eqn:?
         end; intros [= <-]; lia.
Qed.

Lemma hexPair_range hi lo v : hexPair hi lo = Some v -> (0 <= v <= 255)%Z.
Proof.
  unfold hexPair.
  destruct (hexDigit hi) as [h|] eqn:Hh; [|discriminate].
  destruct (hexDigit lo) as [l|] eqn:Hl; [|discriminate].
  intros [= <-]. apply hexDigit_range in Hh, Hl. lia.
Qed.

Lemma channel_unit_range v : (0 <= v <= 255)%Z -> unit_range (inject_Z v / 255).
Proof.
  intros Hv. unfold unit_range, Qdiv, Qle, Qmult, Qinv, inject_Z. cbn. lia.
Qed.

Lemma length_list_ascii_of_string s :
  length (list_ascii_of_string s) = String.length s.
Proof. induction s as [|c s IH]; cbn; congruence. Qed.

(** X17. Whatever the string, the three channels [hexToRgb] returns lie
    between 0 and 1; and a string that is not six characters long, or seven
    with a leading [#], gives black. *)
Theorem hexToRgb_unit_range (hex : string) :
  unit_range (r (hexToRgb hex)) /\
  unit_range (g (hexToRgb hex)) /\
  unit_range (b (hexToRgb hex)) /\
  (String.length hex <> 6%nat -> String.length hex <> 7%nat -> hexToRgb hex = black).
Proof.
  assert (forall red green blue, matchHex hex = Some (red, green, blue) ->
            (0 <= red <= 255)%Z /\ (0 <= green <= 255)%Z /\ (0 <= blue <= 255)%Z) as Hrange.
  { intros red green blue. unfold matchHex.
    destruct (list_ascii_of_string _) as [|r1 [|r2 [|g1 [|g2 [|b1 [|b2 [|]]]]]]];
      try discriminate.
    destruct (hexPair r1 r2) as [v1|] eqn:H1; [|discriminate].
    destruct (hexPair g1 g2) as [v2|] eqn:H2; [|discriminate].
    destruct (hexPair b1 b2) as [v3|] eqn:H3; [|discriminate].
    intros [= <- <- <-]. split; [|split]; eapply hexPair_range; eassumption. }
  unfold hexToRgb.
  destruct (matchHex hex) as [[[red green] blue]|] eqn:Hm.
  - destruct (Hrange _ _ _ eq_refl) as (Hr & Hg & Hb). cbn [r g b].
    repeat split; try (apply channel_unit_range; assumption).
    intros H6 H7. exfalso. revert Hm. unfold matchHex.
    destruct (list_ascii_of_string _) as [|r1 [|r2 [|g1 [|g2 [|b1 [|b2 [|]]]]]]] eqn:Hl;
      try discriminate.
    intros _. apply (f_equal (@length ascii)) in Hl.
    rewrite length_list_ascii_of_string in Hl. cbn in Hl.
    destruct hex as [|c rest]; [discriminate|].
    destruct (Ascii.eqb_spec c "#"%char) as [->|Hne].
    + cbn in H7. lia.
    + assert (String.length (String c rest) = 6%nat) as Hlen; [|contradiction].
      rewrite <- Hl. f_equal.
      destruct c as [[] [] [] [] [] [] [] []]; try reflexivity. contradiction.
  - cbn. repeat split; try discriminate.
Qed.

(** The digit [d] written in hexadecimal, in capitals or not. *)
Definition hexChar (capital : bool) (d : Z) : ascii :=
  ascii_of_nat (Z.to_nat (if (d <? 10)%Z then 48 + d
                          else if capital then 55 + d else 87 + d)).

(** A channel value of [0..255] as two hexadecimal digits. *)
Definition hexByte (capital : bool) (v : Z) : string :=
  String (hexChar capital (v / 16)) (String (hexChar capital (v mod 16)) EmptyString).

Lemma hexDigit_hexChar capital d : (0 <= d < 16)%Z -> hexDigit (hexChar capital d) = Some d.
Proof.
  intros Hd. unfold hexDigit, hexChar.
  rewrite nat_ascii_embedding by (destruct capital, (d <? 10)%Z eqn:?; lia).
  rewrite Z2Nat.id by (destruct capital, (d <? 10)%Z eqn:?; lia).
  destruct (d <? 10)%Z eqn:Hten.
  - replace ((48 <=? 48 + d)%Z && (48 + d <=? 57)%Z) with true by lia.
    f_equal. lia.
  - destruct capital.
    + replace ((48 <=? 55 + d)%Z && (55 + d <=? 57)%Z) with false by lia.
      replace ((97 <=? 55 + d)%Z && (55 + d <=? 102)%Z) with false by lia.
      replace ((65 <=? 55 + d)%Z && (55 + d <=? 70)%Z) with true by lia.
      f_equal. lia.
    + replace ((48 <=? 87 + d)%Z && (87 + d <=? 57)%Z) with false by lia.
      replace ((97 <=? 87 + d)%Z && (87 + d <=? 102)%Z) with true by lia.
      f_equal. lia.
Qed.

Lemma hexPair_hexByte capital v :
  (0 <= v <= 255)%Z ->
  hexPair (hexChar capital (v / 16)) (hexChar capital (v mod 16)) = Some v.
Proof.
  intros Hv. unfold hexPair.
  rewrite !hexDigit_hexChar.
  - f_equal. pose proof (Z.div_mod v 16). lia.
  - apply Z.mod_pos_bound. lia.
  - split; [apply Z.div_pos; lia|apply Z.div_lt_upper_bound; lia].
Qed.

Lemma hexChar_not_hash capital d : (0 <= d < 16)%Z -> hexChar capital d <> "#"%char.
Proof.
  intros Hd Heq. pose proof (hexDigit_hexChar capital d Hd) as Hdigit.
  rewrite Heq in Hdigit. discriminate.
Qed.

(** X18. [hexToRgb] reads back a colour written as six hexadecimal
    digits, in capitals or not, with or without a leading [#]: the channels
    are the three byte values divided by 255. *)
Theorem hexToRgb_decodes (capital hash : bool) (red green blue : Z) :
  (0 <= red <= 255)%Z -> (0 <= green <= 255)%Z -> (0 <= blue <= 255)%Z ->
  hexToRgb ((if hash then "#" else "")
            ++ hexByte capital red ++ hexByte capital green ++ hexByte capital blue)
  = {| r := inject_Z red / 255; g := inject_Z green / 255; b := inject_Z blue / 255 |}.
Proof.
  intros Hr Hg Hb.
  assert (matchHex ((if hash then "#" else "")
            ++ hexByte capital red ++ hexByte capital green ++ hexByte capital blue)
          = Some (red, green, blue)) as Hm.
  { unfold matchHex, hexByte.
    destruct hash; cbv [append].
    - cbn [list_ascii_of_string]. rewrite !hexPair_hexByte by assumption. reflexivity.
    - destruct (Ascii.eqb_spec (hexChar capital (red / 16)) "#"%char) as [Heq|Hne].
      + exfalso. revert Heq. apply hexChar_not_hash.
        split; [apply Z.div_pos; lia|apply Z.div_lt_upper_bound; lia].
      + destruct (hexChar capital (red / 16)) as [[] [] [] [] [] [] [] []] eqn:Hc;
          try (rewrite <- Hc; cbn [list_ascii_of_string];
               rewrite !hexPair_hexByte by assumption; reflexivity).
        contradiction. }
  unfold hexToRgb. rewrite Hm. reflexivity.
Qed.

Lemma hexToRgb_decodes_witness :
  hexToRgb "#FF8000" = {| r := inject_Z 255 / 255; g := inject_Z 128 / 255; b := inject_Z 0 / 255 |} /\
  hexToRgb "1a2b3c" = {| r := inject_Z 26 / 255; g := inject_Z 43 / 255; b := inject_Z 60 / 255 |}.
Proof.
  split.
  - apply (hexToRgb_decodes true true 255 128 0); lia.
  - apply (hexToRgb_decodes false false 26 43 60); lia.
Defined.

End HexColorLaws.

(** ** Outcomes of the processors *)

Module ProcessorLaws.
Import Processor ProcessorProps.

Local Open Scope Q_scope.

(** *** What a computation leaves alone *)

Section Frames.

Context {E X : Type} (f : Proc E -> X).

(** Running [m] does not change [f] of the instance. *)
Definition preserves {A} (m : Eff (Proc E) A) : Prop :=
  forall w, f (snd (m w)) = f w.

(** [f] does not change while the processor is suspended. *)
Definition atRest : Prop := forall w, f (suspend w (ext w)) = f w.

Lemma preserves_ret {A} (a : A) : preserves (ret a).
Proof. intros w. reflexivity. Qed.

Lemma preserves_throw {A} e : preserves (A:=A) (throw e).
Proof. intros w. reflexivity. Qed.

Lemma preserves_lift {A} (r : Res A) : preserves (lift r).
Proof. intros w. reflexivity. Qed.

Lemma preserves_locally {H A} (h : H) (m : Eff H A) : preserves (locally h m).
Proof. intros w. unfold locally. destruct (m h) as [[a|e] h']; reflexivity. Qed.

Lemma preserves_await {A} (r : Res A) : atRest -> preserves (await r).
Proof. intros Hrest w. apply Hrest. Qed.

Lemma preserves_awaitOn {H A} (h : H) (m : Eff H A) : atRest -> preserves (awaitOn h m).
Proof.
  intros Hrest w. unfold awaitOn. destruct (m h) as [[a|e] h']; apply Hrest.
Qed.

Lemma preserves_bind {A B} (m : Eff (Proc E) A) (k : A -> Eff (Proc E) B) :
  preserves m -> (forall a, preserves (k a)) -> preserves (bind m k).
Proof.
  intros Hm Hk w. specialize (Hm w). unfold bind.
  destruct (m w) as [[a|e] w1]; cbn [snd] in *; [rewrite Hk|]; assumption.
Qed.

Lemma preserves_try_catch {A} (m : Eff (Proc E) A) (h : Thrown -> Eff (Proc E) A) :
  preserves m -> (forall e, preserves (h e)) -> preserves (try_catch m h).
Proof.
  intros Hm Hh w. specialize (Hm w). unfold try_catch.
  destruct (m w) as [[a|e] w1]; cbn [snd] in *; [|rewrite Hh]; assumption.
Qed.

End Frames.

Ltac frame_step :=
  match goal with
  | |- preserves _ (bind _ _) => apply preserves_bind; [|intros]
  | |- preserves _ (try_catch _ _) => apply preserves_try_catch; [|intros]
  | |- preserves _ (ret _) => apply preserves_ret
  | |- preserves _ (throw _) => apply preserves_throw
  | |- preserves _ (lift _) => apply preserves_lift
  | |- preserves _ (locally _ _) => apply preserves_locally
  | |- preserves _ (await _) => apply preserves_await; intros ?; reflexivity
  | |- preserves _ (awaitOn _ _) => apply preserves_awaitOn; intros ?; reflexivity
  | |- preserves _ (awaitCall ?m) =>
      let w := fresh "w" in
      intros w; unfold awaitCall; destruct (m (ext w)); reflexivity
  | |- preserves _ checkCancelled => intros ?; reflexivity
  | |- preserves _ (updateProgress _ _) => intros ?; reflexivity
  | |- preserves _ (if ?b then _ else _) => destruct b
  | |- preserves _ (let (_, _) := ?x in _) => destruct x
  | |- preserves _ (match ?x with _ => _ end) => destruct x
  | |- preserves _ _ => solve [auto]
  end.

(** *** Invariants and results *)

Section Outcomes.

Context {E : Type}.
Implicit Types w : Proc E.

(** [I] holds after [m] if it held before, whether [m] returns or throws. *)
Definition keeps (I : Proc E -> Prop) {A} (m : Eff (Proc E) A) : Prop :=
  forall w, I w -> I (snd (m w)).

(** Started where [I] holds, [m] returns a value and a state that [Q]
    accepts, or throws where [I] holds. *)
Definition ends (I : Proc E -> Prop) {A} (Q : A -> Proc E -> Prop)
    (m : Eff (Proc E) A) : Prop :=
  forall w, I w -> match fst (m w) with
                   | Ret a => Q a (snd (m w))
                   | Throw _ => I (snd (m w))
                   end.

(** Started where [I] holds, [m] returns, with a value and a state that
    [Q] accepts. *)
Definition resolves (I : Proc E -> Prop) {A} (Q : A -> Proc E -> Prop)
    (m : Eff (Proc E) A) : Prop :=
  forall w, I w -> exists a, fst (m w) = Ret a /\ Q a (snd (m w)).

Lemma keeps_bind I {A B} (m : Eff (Proc E) A) (k : A -> Eff (Proc E) B) :
  keeps I m -> (forall a, keeps I (k a)) -> keeps I (bind m k).
Proof.
  intros Hm Hk w Hw. specialize (Hm w Hw). unfold bind.
  destruct (m w) as [[a|e] w1]; cbn [snd] in *; [apply Hk|]; assumption.
Qed.

Lemma ends_bind I {A B} (Q : B -> Proc E -> Prop)
    (m : Eff (Proc E) A) (k : A -> Eff (Proc E) B) :
  keeps I m -> (forall a, ends I Q (k a)) -> ends I Q (bind m k).
Proof.
  intros Hm Hk w Hw. specialize (Hm w Hw). unfold bind.
  destruct (m w) as [[a|e] w1]; cbn [fst snd] in *; [apply Hk|]; assumption.
Qed.

Lemma ends_try_catch I {A} (Q : A -> Proc E -> Prop)
    (m : Eff (Proc E) A) (h : Thrown -> Eff (Proc E) A) :
  ends I Q m -> (forall e, ends I Q (h e)) -> ends I Q (try_catch m h).
Proof.
  intros Hm Hh w Hw. specialize (Hm w Hw). unfold try_catch.
  destruct (m w) as [[a|e] w1]; cbn [fst snd] in *; [|apply Hh]; assumption.
Qed.

Lemma ends_ret I {A} (Q : A -> Proc E -> Prop) (a : A) :
  (forall w, I w -> Q a w) -> ends I Q (ret a).
Proof. intros HQ w Hw. apply HQ. exact Hw. Qed.

Lemma ends_throw I {A} (Q : A -> Proc E -> Prop) e : ends I Q (throw e).
Proof. intros w Hw. exact Hw. Qed.

Lemma resolves_ret I {A} (Q : A -> Proc E -> Prop) (a : A) :
  (forall w, I w -> Q a w) -> resolves I Q (ret a).
Proof. intros HQ w Hw. exists a. split; [reflexivity|]. apply HQ. exact Hw. Qed.

(** A [try] block whose [catch] clause returns: the call returns. *)
Lemma resolves_try_catch I {A} (Q : A -> Proc E -> Prop)
    (m : Eff (Proc E) A) (h : Thrown -> Eff (Proc E) A) :
  ends I Q m -> (forall e, resolves I Q (h e)) -> resolves I Q (try_catch m h).
Proof.
  intros Hm Hh w Hw. specialize (Hm w Hw). unfold try_catch.
  destruct (m w) as [[a|e] w1]; cbn [fst snd] in *; [eauto|].
  apply Hh. exact Hm.
Qed.

(** *** Reports short of completion *)

(** The fields the progress reports live in. *)
Definition reports w : list (Q * string) * bool * Q := (observed w, observer w, progress w).

(** The observer is the one of the call, and no report has reached 100. *)
Definition unfinished (obs : bool) w : Prop :=
  observer w = obs /\ progress w < 100 /\ Forall (fun p => p < 100) (percentages w).

(** How an invocation ends: a success after the report of 100, a failure
    short of it. *)
Definition settled (obs : bool) (out : ProcessOutput) w : Prop :=
  match out with
  | Success _ _ _ =>
      progress w = 100 /\ (obs = true -> last (observed w) = Some (100, "Complete!"%string))
  | Failure _ _ _ =>
      progress w < 100 /\ Forall (fun p => p < 100) (percentages w)
  end.

Lemma keeps_preserves obs {A} (m : Eff (Proc E) A) :
  preserves reports m -> keeps (unfinished obs) m.
Proof.
  intros Hm w Hw. specialize (Hm w). unfold reports in Hm.
  injection Hm as Hobserved Hobserver Hprogress.
  unfold unfinished, percentages in *. rewrite Hobserved, Hobserver, Hprogress. exact Hw.
Qed.

Lemma keeps_updateProgress obs p msg :
  p < 100 -> keeps (unfinished obs) (updateProgress p msg).
Proof.
  intros Hp w (Hobs & Hprog & Hall). unfold unfinished, percentages, updateProgress.
  cbn [snd observer progress observed]. split; [assumption|]. split; [assumption|].
  destruct (observer w); [|assumption].
  rewrite map_app. apply Forall_app. split; [assumption|]. repeat constructor. assumption.
Qed.

Lemma ends_complete obs blob name meta :
  ends (unfinished obs) (settled obs)
    (bind (updateProgress 100 "Complete!")
       (fun _ => ret (createSuccessOutput blob name meta))).
Proof.
  intros w (Hobs & _). cbn. split; [reflexivity|].
  intros ->. rewrite Hobs. apply last_snoc.
Qed.

Lemma ends_failure obs code msg details :
  ends (unfinished obs) (settled obs) (ret (createErrorOutput code msg details)).
Proof. intros w (_ & Hw). exact Hw. Qed.

Lemma resolves_failure obs code msg details :
  resolves (unfinished obs) (settled obs) (ret (createErrorOutput code msg details)).
Proof. intros w (_ & Hw). eexists. split; [reflexivity|exact Hw]. Qed.

Lemma resolves_run I {A} (Q : A -> Proc E -> Prop) (m : Eff (Proc E) A) w :
  resolves I Q m -> I w -> exists a, fst (m w) = Ret a /\ Q a (snd (m w)).
Proof. intros Hm. apply Hm. Qed.

Lemma entered_unfinished (obs : bool) w :
  unfinished obs (snd (bind reset (fun _ => setOnProgress obs) w)).
Proof. cbn. split; [reflexivity|]. split; [reflexivity|constructor]. Qed.

(** *** The shape of what is returned *)

Definition codeOf (out : ProcessOutput) : option PDFErrorCode :=
  match out with
  | Success _ _ _ => None
  | Failure code _ _ => Some code
  end.

(** Whatever [m] returns, [Q] accepts. *)
Definition always {A} (Q : A -> Prop) (m : Eff (Proc E) A) : Prop :=
  forall w, match fst (m w) with
            | Ret a => Q a
            | Throw _ => True
            end.

Lemma always_bind {A B} (Q : B -> Prop) (m : Eff (Proc E) A) (k : A -> Eff (Proc E) B) :
  (forall a, always Q (k a)) -> always Q (bind m k).
Proof.
  intros Hk w. unfold bind. destruct (m w) as [[a|e] w1]; cbn [fst]; [apply Hk|exact I].
Qed.

Lemma always_try_catch {A} (Q : A -> Prop)
    (m : Eff (Proc E) A) (h : Thrown -> Eff (Proc E) A) :
  always Q m -> (forall e, always Q (h e)) -> always Q (try_catch m h).
Proof.
  intros Hm Hh w. specialize (Hm w). unfold try_catch.
  destruct (m w) as [[a|e] w1]; cbn [fst] in *; [assumption|apply Hh].
Qed.

Lemma always_ret {A} (Q : A -> Prop) (a : A) : Q a -> always Q (ret a).
Proof. intros Ha w. exact Ha. Qed.

Lemma always_throw {A} (Q : A -> Prop) e : always Q (throw e).
Proof. intros w. exact I. Qed.

Lemma always_run {A} (Q : A -> Prop) (m : Eff (Proc E) A) w a :
  always Q m -> fst (m w) = Ret a -> Q a.
Proof. intros Hm Hr. specialize (Hm w). rewrite Hr in Hm. exact Hm. Qed.

(** The instance as [process] finds it after [this.reset()] and the
    attachment of the observer: nothing reported, nothing polled, never
    suspended. *)
Definition entered (obs : bool) w : Proc E :=
  snd (bind reset (fun _ => setOnProgress obs) w).

(** A checkpoint that follows the first [await] of the invocation does not
    see the flag when it was down at the start and the caller leaves it
    down during that [await]. *)
Lemma first_checkpoint_passed {A B} p msg (r : Res A) (early : Eff (Proc E) B)
    (rest : A -> Eff (Proc E) B) w :
  cancelled w = false ->
  cancelDuring w (suspensions w) = false ->
  bind (updateProgress p msg)
    (fun _ => bind (await r)
       (fun a => bind checkCancelled
          (fun stop : bool => if stop then early else rest a))) w
  = bind (updateProgress p msg)
      (fun _ => bind (await r)
         (fun a => bind checkCancelled (fun _ => rest a))) w.
Proof.
  intros Hflag Hsched. unfold bind, updateProgress, await, checkCancelled.
  destruct r as [a|e]; cbn; [|reflexivity]. rewrite Hflag, Hsched. reflexivity.
Qed.

End Outcomes.

Ltac qlt := first [ assumption | (unfold Qlt; simpl; lia) ].

Ltac keep_step :=
  match goal with
  | |- keeps _ (bind _ _) => apply keeps_bind; [|intros]
  | |- keeps _ (updateProgress _ _) => apply keeps_updateProgress; qlt
  | |- keeps _ (if ?b then _ else _) => destruct b
  | |- keeps _ (let (_, _) := ?x in _) => destruct x
  | |- keeps _ (match ?x with _ => _ end) => destruct x
  | |- keeps _ _ => solve [auto]
  | |- keeps _ _ => apply keeps_preserves; repeat frame_step
  end.

Ltac end_step :=
  match goal with
  | |- ends _ _ (bind (updateProgress 100 _) _) => apply ends_complete
  | |- ends _ _ (bind _ _) => apply ends_bind; [repeat keep_step|intros]
  | |- ends _ _ (try_catch _ _) => apply ends_try_catch; [|intros]
  | |- ends _ _ (ret _) => apply ends_failure
  | |- ends _ _ (throw _) => apply ends_throw
  | |- ends _ _ (if ?b then _ else _) => destruct b
  | |- ends _ _ (let (_, _) := ?x in _) => destruct x
  | |- ends _ _ (match ?x with _ => _ end) => destruct x
  end.

(** One step of a proof about the values a computation can return; the
    goals left are about the values themselves. *)
Ltac always_step :=
  match goal with
  | |- always _ (bind _ _) => apply always_bind; intros
  | |- always _ (try_catch _ _) => apply always_try_catch; [|intros]
  | |- always _ (ret _) => apply always_ret
  | |- always _ (throw _) => apply always_throw
  | |- always _ (if ?b then _ else _) => destruct b
  | |- always _ (let (_, _) := ?x in _) => destruct x
  | |- always _ (match ?x with _ => _ end) => destruct x
  end.

End ProcessorLaws.

(** ** Crop: outcomes *)

Module CropLaws.
Import Processor ProcessorProps ProcessorLaws Crop CropProps.

Local Open Scope Q_scope.

Section WithLibrary.

Context {E Doc : Type}.

Lemma cropPages_keeps obs (lib : PdfLib Doc) cd total pageNumbers :
  forall i pdf,
    (i + length pageNumbers <= total)%nat ->
    keeps (E:=E) (unfinished obs) (cropPages lib cd total pageNumbers i pdf).
Proof.
  induction pageNumbers as [|pageNum rest IH]; intros i pdf Hlen; cbn [cropPages].
  - keep_step.
  - cbn [length] in Hlen.
    assert (forall pdf', keeps (E:=E) (unfinished obs)
                           (cropPages lib cd total rest (S i) pdf')) as Hrest
      by (intros; apply IH; lia).
    assert (cropProgress i total < 100) as Hbelow.
    { rewrite cropProgress_cropLow.
      eapply Qle_lt_trans; [apply cropLow_le_90; lia|reflexivity]. }
    repeat keep_step.
Qed.

Lemma performMetadataCrop_keeps obs (lib : PdfLib Doc) buf cd :
  keeps (E:=E) (unfinished obs) (performMetadataCrop lib buf cd).
Proof.
  unfold performMetadataCrop.
  assert (forall pdf, keeps (E:=E) (unfinished obs)
                        (cropPages lib cd (length (map fst cd)) (map fst cd) 0 pdf)) as Hloop
    by (intros; apply cropPages_keeps; cbn; lia).
  repeat keep_step.
Qed.

Lemma crop_settles (loadPdfLib : Res (PdfLib Doc)) input obs (w : Proc E) :
  exists out,
    fst (process loadPdfLib input obs w) = Ret out /\
    settled obs out (snd (process loadPdfLib input obs w)).
Proof.
  unfold process. rewrite bind_assoc_entry.
  apply (resolves_run (unfinished obs)); [|apply entered_unfinished].
  destruct (files input) as [|file [|file' rest]]; try apply resolves_failure.
  destruct (cropData (options input)) as [[|entry cd]|]; try apply resolves_failure.
  apply resolves_try_catch; [|intros; apply resolves_failure].
  pose proof (performMetadataCrop_keeps obs) as Hcrop.
  assert (forall lib buf cd0, keeps (E:=E) (unfinished obs)
                                (performDestructiveCrop (Doc:=Doc) lib buf cd0)) as Hflat
    by (intros; apply Hcrop).
  repeat end_step.
Qed.

(** *** Validation *)

(** Lines 31-37: one file, and crop data for at least one page. *)
Definition acceptable (input : ProcessInput) : bool :=
  match files input, cropData (options input) with
  | [_], Some (_ :: _) => true
  | _, _ => false
  end.

Lemma crop_validation (loadPdfLib : Res (PdfLib Doc)) input obs (w : Proc E) :
  if acceptable input
  then forall out, fst (process loadPdfLib input obs w) = Ret out ->
                   codeOf out <> Some INVALID_OPTIONS
  else exists msg details,
         process loadPdfLib input obs w =
           (Ret (Failure INVALID_OPTIONS msg details), entered obs w).
Proof.
  unfold acceptable, process. rewrite bind_assoc_entry. fold (entered obs w).
  destruct (files input) as [|file [|file' rest]];
    [do 2 eexists; reflexivity| |do 2 eexists; reflexivity].
  destruct (cropData (options input)) as [[|entry cd]|];
    [do 2 eexists; reflexivity| |do 2 eexists; reflexivity].
  intros out. apply (always_run (fun o => codeOf o <> Some INVALID_OPTIONS)).
  repeat always_step; cbn; congruence.
Qed.

End WithLibrary.

End CropLaws.

(** ** Sanitize: outcomes *)

Module SanitizeLaws.
Import Processor ProcessorProps ProcessorLaws Sanitize.

Local Open Scope Q_scope.

Section WithLibrary.

Context {E Doc : Type}.

(** The load and the [return] in its [catch] clause: what is returned
    there is a failure. *)
Lemma ends_loadDocument obs (lib : PdfLib Doc) buf
    (k : Doc -> Eff (Proc E) ProcessOutput) :
  (forall doc, ends (unfinished obs) (settled obs) (k doc)) ->
  ends (unfinished obs) (settled obs)
    (bind (loadDocument lib buf)
       (fun loaded => match loaded with
                      | inr output => ret output
                      | inl doc => k doc
                      end)).
Proof.
  intros Hk w Hw.
  assert (unfinished obs (suspend w (ext w))) as Hs by exact Hw.
  unfold loadDocument, try_catch, bind, await.
  destruct (PDFDocument_load buf) as [doc|e]; cbn [fst snd ret].
  - apply (Hk doc _ Hs).
  - destruct e as [message|]; [destruct (Str.includes message "encrypt")|];
      cbn [fst snd ret throw]; try exact Hs.
    destruct Hs as (_ & Hbelow). exact Hbelow.
Qed.

Ltac sanitize_step := first [ apply ends_loadDocument; intros | end_step ].

Lemma sanitize_settles (loadPdfLib : Res (PdfLib Doc)) input obs (w : Proc E) :
  exists out,
    fst (process loadPdfLib input obs w) = Ret out /\
    settled obs out (snd (process loadPdfLib input obs w)).
Proof.
  unfold process. rewrite bind_assoc_entry.
  apply (resolves_run (unfinished obs)); [|apply entered_unfinished].
  destruct (files input) as [|file [|file' rest]]; try apply resolves_failure.
  apply resolves_try_catch; [|intros; apply resolves_failure].
  unfold sanitizeLoaded, cancelledOutput.
  repeat sanitize_step.
Qed.

(** *** Validation *)

(** Line 76: one file. *)
Definition acceptable (input : ProcessInput) : bool :=
  match files input with
  | [_] => true
  | _ => false
  end.

Lemma always_loadDocument (Q : ProcessOutput -> Prop) (lib : PdfLib Doc) buf
    (k : Doc -> Eff (Proc E) ProcessOutput) :
  (forall code msg details, code <> INVALID_OPTIONS -> Q (Failure code msg details)) ->
  (forall doc, always Q (k doc)) ->
  always Q
    (bind (loadDocument lib buf)
       (fun loaded => match loaded with
                      | inr output => ret output
                      | inl doc => k doc
                      end)).
Proof.
  intros HQ Hk w. unfold loadDocument, try_catch, bind, await.
  destruct (PDFDocument_load buf) as [doc|e]; cbn [fst snd ret].
  - apply Hk.
  - destruct e as [message|]; [destruct (Str.includes message "encrypt")|];
      cbn [fst snd ret throw]; try exact I.
    apply HQ. discriminate.
Qed.

Lemma sanitize_validation (loadPdfLib : Res (PdfLib Doc)) input obs (w : Proc E) :
  if acceptable input
  then forall out, fst (process loadPdfLib input obs w) = Ret out ->
                   codeOf out <> Some INVALID_OPTIONS
  else exists msg details,
         process loadPdfLib input obs w =
           (Ret (Failure INVALID_OPTIONS msg details), entered obs w).
Proof.
  unfold acceptable, process. rewrite bind_assoc_entry. fold (entered obs w).
  destruct (files input) as [|file [|file' rest]];
    [do 2 eexists; reflexivity| |do 2 eexists; reflexivity].
  intros out. apply (always_run (fun o => codeOf o <> Some INVALID_OPTIONS)).
  unfold sanitizeLoaded, cancelledOutput.
  repeat first [ apply always_loadDocument; [intros; cbn; congruence|intros]
               | always_step ]; cbn; congruence.
Qed.

End WithLibrary.


(** *** The steps *)

Section Steps.

Context {Doc : Type} (lib : PdfLib Doc).

(** [m] pushes nothing on [removedItems]. *)
Definition logkeep {A} (m : Eff (Work Doc) A) : Prop :=
  forall h, removedItems (snd (m h)) = removedItems h.

(** [removedItems] of [h'] is that of [h], with at most one of [labels]
    pushed. *)
Definition pushed (labels : list string) (h h' : Work Doc) : Prop :=
  removedItems h' = removedItems h \/
  exists label, In label labels /\ removedItems h' = removedItems h ++ [label].

(** [m] pushes at most one of [labels], and nothing when it throws. *)
Definition logs (labels : list string) {A} (m : Eff (Work Doc) A) : Prop :=
  forall h, pushed labels h (snd (m h)) /\
            (forall e, fst (m h) = Throw e -> removedItems (snd (m h)) = removedItems h).

(** [m] does not throw. *)
Definition guarded (m : Eff (Work Doc) unit) : Prop :=
  forall h, fst (m h) = Ret tt.

Lemma logkeep_ret {A} (a : A) : logkeep (ret a).
Proof. intros h. reflexivity. Qed.

Lemma logkeep_onDoc {A} (m : Eff Doc A) : logkeep (onDoc m).
Proof. intros h. unfold onDoc. destruct (m (pdfDoc h)). reflexivity. Qed.

Lemma logkeep_bind {A B} (m : Eff (Work Doc) A) (k : A -> Eff (Work Doc) B) :
  logkeep m -> (forall a, logkeep (k a)) -> logkeep (bind m k).
Proof.
  intros Hm Hk h. specialize (Hm h). unfold bind.
  destruct (m h) as [[a|e] h1]; cbn [snd] in *; [rewrite Hk|]; assumption.
Qed.

Lemma logkeep_try_catch {A} (m : Eff (Work Doc) A) (c : Thrown -> Eff (Work Doc) A) :
  logkeep m -> (forall e, logkeep (c e)) -> logkeep (try_catch m c).
Proof.
  intros Hm Hc h. specialize (Hm h). unfold try_catch.
  destruct (m h) as [[a|e] h1]; cbn [snd] in *; [|rewrite Hc]; assumption.
Qed.

Lemma logkeep_forEach {A} (l : list A) (body : A -> Eff (Work Doc) unit) :
  (forall a, logkeep (body a)) -> logkeep (forEach l body).
Proof.
  intros Hbody. induction l as [|a l IH]; cbn [forEach].
  - apply logkeep_ret.
  - apply logkeep_bind; [apply Hbody|intros; exact IH].
Qed.

Ltac logkeep_step :=
  match goal with
  | |- logkeep (bind _ _) => apply logkeep_bind; [|intros]
  | |- logkeep (try_catch _ _) => apply logkeep_try_catch; [|intros]
  | |- logkeep (forEach _ _) => apply logkeep_forEach; intros
  | |- logkeep (onDoc _) => apply logkeep_onDoc
  | |- logkeep (ret _) => apply logkeep_ret
  | |- logkeep (warn _) => apply logkeep_ret
  | |- logkeep (if ?b then _ else _) => destruct b
  | |- logkeep (match ?x with _ => _ end) => destruct x
  | |- logkeep _ => solve [auto]
  end.

Lemma logkeep_dropFromCatalog k : logkeep (dropFromCatalog lib k).
Proof. unfold dropFromCatalog. repeat logkeep_step. Qed.

Lemma logkeep_dropFromNames k : logkeep (dropFromNames lib k).
Proof. unfold dropFromNames. repeat logkeep_step. Qed.

Lemma logkeep_annotsToKeep refs : logkeep (annotsToKeep lib refs).
Proof.
  induction refs as [|ref rest IH]; cbn [annotsToKeep]; repeat logkeep_step.
Qed.

Lemma pushed_refl labels h : pushed labels h h.
Proof. left. reflexivity. Qed.

Lemma logs_ret labels {A} (a : A) : logs labels (ret a).
Proof. intros h. split; [apply pushed_refl|reflexivity]. Qed.

Lemma logs_push labels label : In label labels -> logs labels (push label).
Proof.
  intros Hin h. split; [right; exists label; split; [assumption|reflexivity]|].
  intros e [=].
Qed.

Lemma logs_bind labels {A B} (m : Eff (Work Doc) A) (k : A -> Eff (Work Doc) B) :
  logkeep m -> (forall a, logs labels (k a)) -> logs labels (bind m k).
Proof.
  intros Hm Hk h. specialize (Hm h). unfold bind.
  destruct (m h) as [[a|e] h1]; cbn [fst snd] in *.
  - destruct (Hk a h1) as [Hpushed Hthrow]. unfold pushed in *.
    rewrite Hm in *. split; assumption.
  - split; [left|intros _ _]; assumption.
Qed.

Lemma logs_try_catch labels {A} (m : Eff (Work Doc) A) (c : Thrown -> Eff (Work Doc) A) :
  logs labels m -> (forall e, logs labels (c e)) -> logs labels (try_catch m c).
Proof.
  intros Hm Hc h. destruct (Hm h) as [Hpushed Hthrow]. unfold try_catch.
  destruct (m h) as [[a|e] h1]; cbn [fst snd] in *.
  - split; [assumption|intros e [=]].
  - specialize (Hthrow e eq_refl). destruct (Hc e h1) as [Hpushed' Hthrow'].
    unfold pushed in *. rewrite Hthrow in *. split; assumption.
Qed.

Lemma logs_run labels {A} (m : Eff (Work Doc) A) h :
  logs labels m -> pushed labels h (snd (m h)).
Proof. intros Hm. apply Hm. Qed.

Lemma guarded_try_catch (m : Eff (Work Doc) unit) (c : Thrown -> Eff (Work Doc) unit) :
  (forall e, guarded (c e)) -> guarded (try_catch m c).
Proof.
  intros Hc h. unfold try_catch. destruct (m h) as [[[]|e] h1]; [reflexivity|apply Hc].
Qed.

Lemma guarded_warn e : guarded (warn e).
Proof. intros h. reflexivity. Qed.

Ltac logs_step :=
  match goal with
  | |- logs _ (bind _ _) => apply logs_bind; [repeat logkeep_step|intros]
  | |- logs _ (try_catch _ _) => apply logs_try_catch; [|intros]
  | |- logs _ (push _) => apply logs_push; cbn; auto
  | |- logs _ (ret _) => apply logs_ret
  | |- logs _ (warn _) => apply logs_ret
  | |- logs _ (if ?b then _ else _) => destruct b
  | |- logs _ (match ?x with _ => _ end) => destruct x
  end.

Lemma guarded_flattenFormsStep : guarded (flattenFormsStep lib).
Proof. apply guarded_try_catch. intros e. apply guarded_try_catch, guarded_warn. Qed.

Lemma guarded_removeMetadataStep : guarded (removeMetadataStep lib).
Proof. apply guarded_try_catch, guarded_warn. Qed.

Lemma guarded_removeJavaScriptStep : guarded (removeJavaScriptStep lib).
Proof. apply guarded_try_catch, guarded_warn. Qed.

Lemma guarded_removeAttachmentsStep : guarded (removeAttachmentsStep lib).
Proof. apply guarded_try_catch, guarded_warn. Qed.

Lemma guarded_removeLinksStep : guarded (removeLinksStep lib).
Proof. apply guarded_try_catch, guarded_warn. Qed.

(** The removal of annotations reads the pages outside of any [try]. *)
Lemma removeAnnotationsStep_cases (h : Work Doc) :
  match fst (getPages (pdfDoc h)) with
  | Ret _ =>
      fst (removeAnnotationsStep lib h) = Ret tt /\
      removedItems (snd (removeAnnotationsStep lib h))
        = removedItems h ++ ["annotations"%string]
  | Throw e => fst (removeAnnotationsStep lib h) = Throw e
  end.
Proof.
  destruct (getPages (pdfDoc h)) as [[pages|e] d] eqn:Hpages; cbn [fst];
    [|unfold removeAnnotationsStep, bind, onDoc; rewrite Hpages; reflexivity].
  set (h1 := {| pdfDoc := d; removedItems := removedItems h |}).
  set (loop := forEach (seq 0 pages)
                 (fun page => try_catch (onDoc (pageDelete page "Annots"))
                                (fun _ => ret tt))).
  assert (removeAnnotationsStep lib h =
          bind loop (fun _ => push "annotations") h1) as ->
    by (unfold removeAnnotationsStep, bind, onDoc; rewrite Hpages; reflexivity).
  assert (guarded loop) as Hloop.
  { unfold loop. generalize (seq 0 pages). intros l.
    induction l as [|a l IH]; intros h0; cbn [forEach].
    - reflexivity.
    - unfold bind, try_catch.
      destruct (onDoc (pageDelete a "Annots") h0) as [[[]|e] h2]; cbn; apply IH. }
  assert (logkeep loop) as Hquiet by (unfold loop; repeat logkeep_step).
  specialize (Hloop h1). specialize (Hquiet h1). unfold bind.
  destruct (loop h1) as [r h2]. cbn [fst snd] in *. subst r.
  cbn. rewrite Hquiet. split; reflexivity.
Qed.

(** X24. Five of the six sanitization steps never throw, whatever the
    calls on the document do, and each leaves [removedItems] as it was or
    with one label appended, its own (for the forms 'form fields
    (flattened)' or 'form fields'). The sixth, the removal of annotations,
    reads the pages outside of any [try]: it throws what that read throws,
    and when the read returns it does not throw and appends 'annotations',
    whether or not an annotation could be deleted. *)
Theorem sanitize_steps_are_best_effort (h : Work Doc) :
  (fst (flattenFormsStep lib h) = Ret tt /\
   pushed ["form fields (flattened)"; "form fields"]%string h (snd (flattenFormsStep lib h))) /\
  (fst (removeMetadataStep lib h) = Ret tt /\
   pushed ["metadata"%string] h (snd (removeMetadataStep lib h))) /\
  (fst (removeJavaScriptStep lib h) = Ret tt /\
   pushed ["JavaScript"%string] h (snd (removeJavaScriptStep lib h))) /\
  (fst (removeAttachmentsStep lib h) = Ret tt /\
   pushed ["embedded files"%string] h (snd (removeAttachmentsStep lib h))) /\
  (fst (removeLinksStep lib h) = Ret tt /\
   pushed ["links"%string] h (snd (removeLinksStep lib h))) /\
  match fst (getPages (pdfDoc h)) with
  | Ret _ =>
      fst (removeAnnotationsStep lib h) = Ret tt /\
      removedItems (snd (removeAnnotationsStep lib h))
        = removedItems h ++ ["annotations"%string]
  | Throw e => fst (removeAnnotationsStep lib h) = Throw e
  end.
Proof.
  pose proof logkeep_dropFromCatalog as Hcatalog.
  pose proof logkeep_dropFromNames as Hnames.
  pose proof logkeep_annotsToKeep as Hkeep.
  split; [split|split; [split|split; [split|split; [split|split; [split|]]]]].
  - apply guarded_flattenFormsStep.
  - apply (logs_run ["form fields (flattened)"; "form fields"]%string).
    unfold flattenFormsStep. repeat logs_step.
  - apply guarded_removeMetadataStep.
  - apply (logs_run ["metadata"%string]).
    unfold removeMetadataStep. repeat logs_step.
  - apply guarded_removeJavaScriptStep.
  - apply (logs_run ["JavaScript"%string]).
    unfold removeJavaScriptStep. repeat logs_step.
  - apply guarded_removeAttachmentsStep.
  - apply (logs_run ["embedded files"%string]).
    unfold removeAttachmentsStep. repeat logs_step.
  - apply guarded_removeLinksStep.
  - apply (logs_run ["links"%string]).
    unfold removeLinksStep. repeat logs_step.
  - apply removeAnnotationsStep_cases.
Qed.

End Steps.


(** *** Sanitization that cannot be done *)

Section BestEffort.

Context {E Doc : Type}.

(** Undisturbed, [m] returns a value that [P] accepts, and stays
    undisturbed. *)
Definition proceeds {A} (P : A -> Prop) (m : Eff (Proc E) A) : Prop :=
  forall w, undisturbed w ->
    exists a, fst (m w) = Ret a /\ P a /\ undisturbed (snd (m w)).

Lemma proceeds_runs {A} (P : A -> Prop) (m : Eff (Proc E) A) a :
  runs m a -> P a -> proceeds P m.
Proof. intros Hm Ha w Hw. destruct (Hm w Hw). eauto. Qed.

Lemma proceeds_bind {A B} (P : A -> Prop) (Q : B -> Prop)
    (m : Eff (Proc E) A) (k : A -> Eff (Proc E) B) :
  proceeds P m -> (forall a, P a -> proceeds Q (k a)) -> proceeds Q (bind m k).
Proof.
  intros Hm Hk w Hw. destruct (Hm w Hw) as (a & Hr & Ha & Hu). unfold bind.
  destruct (m w) as [r w1]. cbn [fst snd] in *. subst r. apply Hk; assumption.
Qed.

Lemma proceeds_try_catch {A} (P : A -> Prop)
    (m : Eff (Proc E) A) (h : Thrown -> Eff (Proc E) A) :
  proceeds P m -> proceeds P (try_catch m h).
Proof.
  intros Hm w Hw. destruct (Hm w Hw) as (a & Hr & Ha & Hu). unfold try_catch.
  destruct (m w) as [r w1]. cbn [fst snd] in *. subst r. eauto.
Qed.

Lemma proceeds_step {A B} (Q : B -> Prop)
    (m : Eff (Proc E) A) (k : A -> Eff (Proc E) B) a :
  runs m a -> proceeds Q (k a) -> proceeds Q (bind m k).
Proof.
  intros Hm Hk w Hw. destruct (Hm w Hw) as [Hr Hu]. unfold bind.
  destruct (m w) as [r w1]. cbn [fst snd] in *. subst r. apply Hk. assumption.
Qed.

(** A synchronous step that does not throw. *)
Lemma proceeds_locally {H B} (Q : B -> Prop) (h : H) (m : Eff H unit)
    (k : unit * H -> Eff (Proc E) B) :
  fst (m h) = Ret tt -> (forall h', proceeds Q (k (tt, h'))) ->
  proceeds Q (bind (locally h m) k).
Proof.
  intros Hm Hk w Hw. unfold bind, locally.
  destruct (m h) as [[[]|e] h']; [|discriminate]. apply Hk. exact Hw.
Qed.

Lemma runs_loadDocument (lib : PdfLib Doc) buf doc :
  PDFDocument_load buf = Ret doc -> runs (E:=E) (loadDocument lib buf) (inl doc).
Proof.
  intros Hload w [Hflag Hsched]. unfold loadDocument, try_catch, bind, await.
  rewrite Hload. split; [reflexivity|]. split; [|assumption].
  cbn. rewrite Hflag, Hsched. reflexivity.
Qed.

Lemma guarded_when (lib : PdfLib Doc) (enabled : bool) (step : Eff (Work Doc) unit) :
  guarded step -> guarded (when enabled step).
Proof. intros Hstep. destruct enabled; [exact Hstep|intros h; reflexivity]. Qed.

Ltac proceed_step :=
  match goal with
  | |- proceeds _ (bind (updateProgress _ _) _) =>
      apply proceeds_step with (a := tt); [apply runs_updateProgress|]
  | |- proceeds _ (bind (await (Ret ?v)) _) =>
      apply proceeds_step with (a := v); [apply runs_await|]
  | |- proceeds _ (bind checkCancelled _) =>
      apply proceeds_step with (a := false); [apply runs_checkCancelled|]
  | |- proceeds _ (bind (locally _ _) _) =>
      apply proceeds_locally; [|intros ?]
  end.

(** X25. Sanitization is best effort. When the library and the document
    load, the document has a page, saving works, nobody cancels, and the
    pages can be listed or annotations are to be kept, the call resolves
    with Success, under the name of the file with its last extension
    replaced by '_sanitized.pdf' and with [sanitized: true], whatever the
    calls that inspect and change the document do, throwing included. *)
Theorem sanitize_is_best_effort
    (lib : PdfLib Doc) (file : File) (o : PartialOptions) (obs : bool) (w : Proc E)
    (buf : ArrayBuffer) (doc : Doc) :
  fileArrayBuffer file = Ret buf ->
  PDFDocument_load buf = Ret doc ->
  getPageCount doc <> 0%nat ->
  (forall d, exists bytes, save d = Ret bytes) ->
  (removeAnnotations (mergeOptions DEFAULT_SANITIZE_OPTIONS o) = false \/
   forall d, exists pages, fst (getPages d) = Ret pages) ->
  cancelled w = false ->
  (forall n, cancelDuring w n = false) ->
  exists blob metadata,
    fst (process (Ret lib) {| files := [file]; options := o |} obs w)
      = Ret (Success blob (generateSanitizedFilename (fileName file)) metadata) /\
    In ("sanitized"%string, MBool true) metadata.
Proof.
  intros Hbuf Hload Hpages Hsave Hannots Hflag Hsched.
  assert (forall h,
            fst (when (removeAnnotations (mergeOptions DEFAULT_SANITIZE_OPTIONS o))
                   (removeAnnotationsStep lib) h) = Ret tt) as Hannots'.
  { intros h. destruct Hannots as [->|Hlist]; [reflexivity|].
    apply guarded_when; [exact lib|]. clear h. intros h.
    pose proof (removeAnnotationsStep_cases lib h) as Hstep.
    destruct (Hlist (pdfDoc h)) as [pages Hp]. rewrite Hp in Hstep. apply Hstep. }
  unfold process. rewrite bind_assoc_entry. cbn [files options].
  set (P := fun out : ProcessOutput =>
              exists blob metadata,
                out = Success blob (generateSanitizedFilename (fileName file)) metadata /\
                In ("sanitized"%string, MBool true) metadata).
  assert (forall m, proceeds P m ->
            exists a, fst (m (snd (bind reset (fun _ => setOnProgress obs) w))) = Ret a /\ P a)
    as Hrun.
  { intros m Hm. destruct (Hm _ (entered_undisturbed obs w (conj Hflag Hsched)))
      as (a & Hr & Ha & _). eauto. }
  match goal with
  | |- exists blob metadata, fst (?m _) = _ /\ _ =>
      destruct (Hrun m) as (out & Hout & blob & metadata & -> & Hin);
      [|exists blob, metadata; split; assumption]
  end.
  apply proceeds_try_catch. rewrite Hbuf.
  repeat proceed_step.
  apply proceeds_step with (a := inl doc); [apply runs_loadDocument; exact Hload|].
  unfold sanitizeLoaded.
  repeat proceed_step.
  destruct (getPageCount doc =? 0)%nat eqn:Hzero;
    [apply Nat.eqb_eq in Hzero; contradiction|].
  pose proof (guarded_when lib) as Hwhen.
  repeat (proceed_step;
          try solve [ apply Hannots'
                    | apply Hwhen;
                      first [ apply guarded_flattenFormsStep
                            | apply guarded_removeMetadataStep
                            | apply guarded_removeJavaScriptStep
                            | apply guarded_removeAttachmentsStep
                            | apply guarded_removeLinksStep ] ]).
  match goal with
  | |- proceeds _ (bind (await (save ?d)) _) => destruct (Hsave d) as [bytes ->]
  end.
  repeat proceed_step.
  eapply proceeds_runs; [apply runs_ret|].
  do 2 eexists. split; [reflexivity|]. cbn. auto 10.
Qed.

End BestEffort.


(** *** A document that cannot be inspected *)

Definition refuse {W A} : Eff W A := throw (ErrorObject "Expected instance of PDFDict").

(** A stand-in for pdf-lib on a damaged document of one page: it loads and
    saves, and every call that inspects or changes it throws. *)
#[local] Instance brittleLib : PdfLib nat := {
  PDFDocument_load buf := Ret 1%nat;
  save d := Ret [Byte.x25; Byte.x50; Byte.x44; Byte.x46];
  getPageCount d := d;
  getFormFields := refuse;
  flatten := refuse;
  catalogHas k := refuse;
  catalogGet k := refuse;
  catalogDelete k := refuse;
  infoKeys := refuse;
  infoDelete k := refuse;
  setTitle v := refuse;
  setAuthor v := refuse;
  setSubject v := refuse;
  setKeywords v := refuse;
  setCreator v := refuse;
  setProducer v := refuse;
  getPages := refuse;
  pageHas i k := refuse;
  pageGet i k := refuse;
  pageDelete i k := refuse;
  pageSetAnnots i refs := refuse;
  objHas r k := refuse;
  objDelete r k := refuse;
  asArray r := refuse;
  subtypeOf r := refuse
}.

Lemma sanitize_is_best_effort_witness :
  exists blob metadata,
    fst (process (Ret brittleLib)
           {| files := [SanitizeProps.onePage]; options := SanitizeProps.noOptions |}
           true (SanitizeProps.idle (fun _ => false)))
      = Ret (Success blob "form.v2_sanitized.pdf" metadata) /\
    In ("sanitized"%string, MBool true) metadata.
Proof.
  apply (sanitize_is_best_effort brittleLib SanitizeProps.onePage SanitizeProps.noOptions
           true (SanitizeProps.idle (fun _ => false)) [Byte.x25; Byte.x50] 1%nat).
  - reflexivity.
  - reflexivity.
  - discriminate.
  - intros d. eexists. reflexivity.
  - left. reflexivity.
  - reflexivity.
  - reflexivity.
Defined.

End SanitizeLaws.

(** ** Text to PDF: outcomes *)

Module TextToPDFLaws.
Import Processor ProcessorProps ProcessorLaws FontCache TextToPDF.

Local Open Scope Q_scope.

Section WithLibrary.

Context {Doc Font : Type}.

Lemma readAll_preserves {X} (f : Proc FontWorld -> X) fs :
  atRest f -> forall acc, preserves f (readAll fs acc).
Proof.
  intros Hrest. induction fs as [|file rest IH]; intros acc; cbn [readAll].
  - apply preserves_ret.
  - apply preserves_bind; [apply preserves_await; exact Hrest|intros; apply IH].
Qed.

(** What the evaluation of [hasDirectText] throws is thrown by [process],
    and nothing has happened by then. *)
Lemma process_rejects (env : Collaborators Doc Font) input obs (w : Proc FontWorld) e :
  hasDirectText (mergeOptions DEFAULT_OPTIONS (options input)) = Throw e ->
  process env input obs w = (Throw e, entered obs w).
Proof.
  intros Hthrow. unfold process. rewrite bind_assoc_entry. fold (entered obs w).
  cbv zeta. rewrite Hthrow. reflexivity.
Qed.

(** Otherwise [process] goes on with what [hasDirectText] gave. *)
Ltac pass_lift :=
  match goal with
  | |- context [bind (lift (Ret ?v)) ?k] =>
      change (bind (lift (Ret v)) k) with (k v); cbv beta
  end.

(** The only value of [directText] on which [hasDirectText] throws. *)
Lemma hasDirectText_throws (o : TextToPDFOptions) :
  (exists e, hasDirectText o = Throw e) <-> directText o = Some (NotText true).
Proof.
  unfold hasDirectText. split.
  - intros [e He]. destruct (directText o) as [[t|[|]]|]; [discriminate|reflexivity|discriminate..].
  - intros ->. eexists. reflexivity.
Qed.

Lemma textToPDF_settles (env : Collaborators Doc Font) input obs (w : Proc FontWorld) :
  match hasDirectText (mergeOptions DEFAULT_OPTIONS (options input)) with
  | Ret _ =>
      exists out,
        fst (process env input obs w) = Ret out /\
        settled obs out (snd (process env input obs w))
  | Throw e => process env input obs w = (Throw e, entered obs w)
  end.
Proof.
  destruct (hasDirectText _) as [direct|e] eqn:Hdirect;
    [|apply process_rejects; exact Hdirect].
  unfold process. rewrite bind_assoc_entry.
  apply (resolves_run (unfinished obs)); [|apply entered_unfinished].
  cbv zeta. rewrite Hdirect. pass_lift.
  destruct ((length (files input) <? 1)%nat && negb _); [apply resolves_failure|].
  apply resolves_try_catch; [|intros; apply resolves_failure].
  assert (forall fs acc, preserves (E:=FontWorld) reports (readAll fs acc)) as Hread
    by (intros; apply readAll_preserves; intros ?; reflexivity).
  repeat end_step.
Qed.

(** *** Validation *)

(** Lines 243-245: a file, or direct text that is not blank; the test
    itself throws when [directText] is a truthy value without [trim]. *)
Definition acceptable (input : ProcessInput) : Res bool :=
  match hasDirectText (mergeOptions DEFAULT_OPTIONS (options input)) with
  | Ret direct => Ret (negb ((length (files input) <? 1)%nat && negb direct))
  | Throw e => Throw e
  end.

Lemma textToPDF_validation (env : Collaborators Doc Font) input obs (w : Proc FontWorld) :
  match acceptable input with
  | Ret true =>
      forall out, fst (process env input obs w) = Ret out ->
                  codeOf out <> Some INVALID_OPTIONS
  | Ret false =>
      exists msg details,
        process env input obs w =
          (Ret (Failure INVALID_OPTIONS msg details), entered obs w)
  | Throw e => process env input obs w = (Throw e, entered obs w)
  end.
Proof.
  unfold acceptable.
  destruct (hasDirectText _) as [direct|e] eqn:Hdirect;
    [|apply process_rejects; exact Hdirect].
  unfold process. rewrite bind_assoc_entry. fold (entered obs w).
  cbv zeta. rewrite Hdirect. pass_lift.
  destruct ((length (files input) <? 1)%nat && negb _); cbn [negb];
    [do 2 eexists; reflexivity|].
  intros out. apply (always_run (fun o => codeOf o <> Some INVALID_OPTIONS)).
  repeat always_step; cbn; congruence.
Qed.

(** *** The one checkpoint *)

Lemma try_catch_congr {W A} (m m' : Eff W A) (h : Thrown -> Eff W A) w :
  m w = m' w -> try_catch m h w = try_catch m' h w.
Proof. intros Hm. unfold try_catch. rewrite Hm. reflexivity. Qed.

(** X21. The text converter polls the cancellation flag once, after the
    PDF library has loaded. When the flag is down at the start and is not
    raised while the library loads, the invocation never resolves with
    PROCESSING_CANCELLED, whenever the caller cancels afterwards. *)
Theorem textToPDF_late_cancel_ignored
    (env : Collaborators Doc Font) (input : ProcessInput) (obs : bool)
    (w : Proc FontWorld) :
  cancelled w = false ->
  cancelDuring w 0 = false ->
  forall out, fst (process env input obs w) = Ret out ->
              codeOf out <> Some PROCESSING_CANCELLED.
Proof.
  intros Hflag Hsched out.
  unfold process. rewrite bind_assoc_entry. fold (entered obs w). cbv zeta.
  destruct (hasDirectText _) as [direct|e]; [|intros [=]].
  pass_lift.
  destruct ((length (files input) <? 1)%nat && negb _);
    [intros [= <-]; discriminate|].
  erewrite try_catch_congr;
    [|apply first_checkpoint_passed; [exact Hflag|exact Hsched]].
  apply (always_run (fun o => codeOf o <> Some PROCESSING_CANCELLED)).
  repeat always_step; cbn; congruence.
Qed.

(** *** Fonts that need no download *)

Lemma preserves_run {E X A} (f : Proc E -> X) (m : Eff (Proc E) A) w :
  preserves f m -> f (snd (m w)) = f w.
Proof. intros Hm. apply Hm. Qed.

(** X22. With a standard font, or with a font id that is not in
    [AVAILABLE_FONTS] and so falls back to Helvetica, the conversion leaves
    the font caches as they are and downloads nothing, however it ends. *)
Theorem standard_font_leaves_cache
    (env : Collaborators Doc Font) (input : ProcessInput) (obs : bool)
    (w : Proc FontWorld) :
  font_kind (fontConfigFor (fontId (mergeOptions DEFAULT_OPTIONS (options input))))
    = standard ->
  ext (snd (process env input obs w)) = ext w.
Proof.
  intros Hstd. unfold process. rewrite bind_assoc_entry.
  change (ext w) with (ext (entered obs w)). fold (entered obs w).
  apply (preserves_run ext). cbv zeta. rewrite Hstd.
  assert (forall fs acc, preserves (E:=FontWorld) ext (readAll fs acc)) as Hread
    by (intros; apply readAll_preserves; intros ?; reflexivity).
  repeat frame_step.
Qed.

(** *** Direct text *)

(** What a conversion of direct text is called and counts. *)
Definition fromDirectText (out : ProcessOutput) : Prop :=
  match out with
  | Success _ filename metadata =>
      filename = "from_text.pdf"%string /\ In ("fileCount"%string, MNum 0) metadata
  | Failure _ _ _ => True
  end.

(** X23. Direct text that is not blank, that is a string with a character
    that [trim()] does not strip, wins over the files: the files are not
    read, the run is the same whatever files are passed along, and a
    success is named 'from_text.pdf' and counts no file. *)
Theorem direct_text_ignores_files
    (env : Collaborators Doc Font) (fs fs' : list File) (o : PartialOptions)
    (obs : bool) (w : Proc FontWorld) :
  hasDirectText (mergeOptions DEFAULT_OPTIONS o) = Ret true ->
  process env {| files := fs; options := o |} obs w
    = process env {| files := fs'; options := o |} obs w /\
  forall out, fst (process env {| files := fs; options := o |} obs w) = Ret out ->
              fromDirectText out.
Proof.
  intros Hdirect. split.
  - unfold process. rewrite !bind_assoc_entry. cbn [files options]. cbv zeta.
    rewrite Hdirect. do 2 pass_lift. cbn [negb]. rewrite !andb_false_r. reflexivity.
  - intros out. unfold process. rewrite bind_assoc_entry. cbn [files options]. cbv zeta.
    rewrite Hdirect. pass_lift. cbn [negb]. rewrite andb_false_r.
    apply (always_run fromDirectText). repeat always_step; cbn; auto.
Qed.

End WithLibrary.


(** *** Sample runs *)

(** Cancelled during every [await] but the first. *)
Definition cancelledLate : Proc FontWorld :=
  {| cancelled := false; progress := 0; observer := false; observed := [];
     polls := []; suspensions := 0; cancelDuring := fun n => (0 <? n)%nat;
     ext := FontCacheProps.coldWorld true |}.

Lemma textToPDF_late_cancel_ignored_witness :
  cancelDuring cancelledLate 1 = true /\
  forall out,
    fst (process TextToPDFProps.sampleEnv
           {| files := [TextToPDFProps.notes];
              options := TextToPDFProps.withFont "noto-sans" |} true cancelledLate)
      = Ret out ->
    codeOf out <> Some PROCESSING_CANCELLED.
Proof.
  refine (conj eq_refl _).
  exact (textToPDF_late_cancel_ignored TextToPDFProps.sampleEnv
           {| files := [TextToPDFProps.notes];
              options := TextToPDFProps.withFont "noto-sans" |} true cancelledLate
           eq_refl eq_refl).
Defined.

Lemma standard_font_leaves_cache_witness :
  ext (snd (process TextToPDFProps.sampleEnv
              {| files := [TextToPDFProps.notes];
                 options := TextToPDFProps.withFont "comic-sans" |} true cancelledLate))
  = FontCacheProps.coldWorld true.
Proof.
  exact (standard_font_leaves_cache TextToPDFProps.sampleEnv
           {| files := [TextToPDFProps.notes];
              options := TextToPDFProps.withFont "comic-sans" |} true cancelledLate
           eq_refl).
Defined.

Definition withDirectText (value : DirectText) : PartialOptions :=
  {| p_pageSize := None; p_customWidth := None; p_customHeight := None;
     p_orientation := None; p_fontId := None; p_fontSize := None;
     p_lineHeight := None; p_textColor := None; p_margin := None;
     p_preserveLineBreaks := None; p_wrapLines := None;
     p_directText := Some value |}.

Definition typed : PartialOptions := withDirectText (Text "Dear all,").

(** U+00A0 NO-BREAK SPACE, U+3000 IDEOGRAPHIC SPACE, U+FEFF and, for
    contrast, U+00A9 COPYRIGHT SIGN, in UTF-8. *)
Definition utf8 (bytes : list nat) : string :=
  string_of_list_ascii (map ascii_of_nat bytes).
Definition noBreakSpace : string := utf8 [194; 160]%nat.
Definition ideographicSpace : string := utf8 [227; 128; 128]%nat.
Definition byteOrderMark : string := utf8 [239; 187; 191]%nat.
Definition copyrightSign : string := utf8 [194; 169]%nat.

(** [trim()] strips the white space beyond ASCII as well. *)
Example blank_beyond_ascii :
  Str.hasInk (" " ++ noBreakSpace ++ ideographicSpace ++ byteOrderMark ++ newline) = false /\
  Str.hasInk (noBreakSpace ++ copyrightSign) = true /\
  Str.hasInk (ideographicSpace ++ "a") = true.
Proof. repeat split; reflexivity. Qed.

(** Direct text of one no-break space and no file: nothing to convert. *)
Example blank_direct_text_is_invalid :
  process TextToPDFProps.sampleEnv
    {| files := []; options := withDirectText (Text noBreakSpace) |} true cancelledLate
  = (Ret (Failure INVALID_OPTIONS
            "At least 1 text file or direct text input is required."
            (Some "Received 0 file(s) and no direct text."%string)),
     entered true cancelledLate).
Proof. reflexivity. Qed.

(** A number under [directText]: the invocation rejects, with a file or
    without. *)
Example direct_text_number_rejects :
  fst (process TextToPDFProps.sampleEnv
         {| files := [TextToPDFProps.notes]; options := withDirectText (NotText true) |}
         true cancelledLate)
  = Throw (ErrorObject "pdfOptions.directText.trim is not a function") /\
  exists out,
    fst (process TextToPDFProps.sampleEnv
           {| files := [TextToPDFProps.notes]; options := withDirectText (NotText false) |}
           true cancelledLate)
    = Ret out /\ codeOf out = None.
Proof. split; [reflexivity|]. eexists. split; reflexivity. Qed.

Lemma direct_text_ignores_files_witness :
  process TextToPDFProps.sampleEnv {| files := [TextToPDFProps.notes]; options := typed |}
    true cancelledLate
  = process TextToPDFProps.sampleEnv {| files := []; options := typed |}
      true cancelledLate /\
  forall out,
    fst (process TextToPDFProps.sampleEnv
           {| files := [TextToPDFProps.notes]; options := typed |} true cancelledLate)
      = Ret out ->
    fromDirectText out.
Proof.
  exact (direct_text_ignores_files TextToPDFProps.sampleEnv [TextToPDFProps.notes] []
           typed true cancelledLate eq_refl).
Defined.

End TextToPDFLaws.

(** ** The contract: how an invocation ends *)

Module ContractLaws.
Import Processor ProcessorProps ProcessorLaws.

Local Open Scope Q_scope.

(** X19. How an invocation ends. The crop and the sanitize processor
    always resolve. The text converter rejects when the option [directText]
    holds a truthy value that is not a string: [directText.trim()] is called
    before the [try] block is entered, what it throws is not caught, and
    nothing has been reported, polled or awaited by then. On every other
    input the text converter resolves. A processor that resolves with
    Success has its progress at 100, and the last report the observer
    received is 100, 'Complete!'; one that resolves with Failure has its
    progress below 100, and no report has reached 100. *)
Theorem completion_is_reported_on_success_only :
  (forall E Doc (loadPdfLib : Res (Crop.PdfLib Doc)) input obs (w : Proc E),
     exists out,
       fst (Crop.process loadPdfLib input obs w) = Ret out /\
       settled obs out (snd (Crop.process loadPdfLib input obs w))) /\
  (forall E Doc (loadPdfLib : Res (Sanitize.PdfLib Doc)) input obs (w : Proc E),
     exists out,
       fst (Sanitize.process loadPdfLib input obs w) = Ret out /\
       settled obs out (snd (Sanitize.process loadPdfLib input obs w))) /\
  (forall Doc Font (env : TextToPDF.Collaborators Doc Font) input obs w,
     match TextToPDF.directText
             (TextToPDF.mergeOptions TextToPDF.DEFAULT_OPTIONS (TextToPDF.options input))
     with
     | Some (TextToPDF.NotText true) =>
         exists e, TextToPDF.process env input obs w = (Throw e, entered obs w)
     | _ =>
         exists out,
           fst (TextToPDF.process env input obs w) = Ret out /\
           settled obs out (snd (TextToPDF.process env input obs w))
     end) /\
  (forall E obs (w : Proc E),
     observed (entered obs w) = [] /\ polls (entered obs w) = [] /\
     suspensions (entered obs w) = 0%nat /\ ext (entered obs w) = ext w).
Proof.
  split; [|split; [|split]]; intros.
  - apply CropLaws.crop_settles.
  - apply SanitizeLaws.sanitize_settles.
  - pose proof (TextToPDFLaws.textToPDF_settles env input obs w) as Hend.
    unfold TextToPDF.hasDirectText in Hend.
    destruct (TextToPDF.directText _) as [[t|[|]]|]; eauto.
  - repeat split.
Qed.


(** X20. Each processor resolves with INVALID_OPTIONS exactly when its
    input fails the validation (crop: one file and crop data for at least
    one page; sanitize: one file; text: a file, or direct text with a
    character that [trim()] does not strip), and it does so before anything
    else happens: no report is made, the flag is not polled, and nothing is
    awaited, so that neither the PDF library is loaded nor a file read. The
    validation of the text converter can itself throw, on a truthy
    [directText] that is not a string: the invocation then rejects with
    what was thrown, at that same point. *)
Theorem invalid_input_rejected_at_once :
  (forall E Doc (loadPdfLib : Res (Crop.PdfLib Doc)) input obs (w : Proc E),
     if CropLaws.acceptable input
     then forall out, fst (Crop.process loadPdfLib input obs w) = Ret out ->
                      codeOf out <> Some INVALID_OPTIONS
     else exists msg details,
            Crop.process loadPdfLib input obs w =
              (Ret (Failure INVALID_OPTIONS msg details), entered obs w)) /\
  (forall E Doc (loadPdfLib : Res (Sanitize.PdfLib Doc)) input obs (w : Proc E),
     if SanitizeLaws.acceptable input
     then forall out, fst (Sanitize.process loadPdfLib input obs w) = Ret out ->
                      codeOf out <> Some INVALID_OPTIONS
     else exists msg details,
            Sanitize.process loadPdfLib input obs w =
              (Ret (Failure INVALID_OPTIONS msg details), entered obs w)) /\
  (forall Doc Font (env : TextToPDF.Collaborators Doc Font) input obs w,
     match TextToPDFLaws.acceptable input with
     | Ret true =>
         forall out, fst (TextToPDF.process env input obs w) = Ret out ->
                     codeOf out <> Some INVALID_OPTIONS
     | Ret false =>
         exists msg details,
           TextToPDF.process env input obs w =
             (Ret (Failure INVALID_OPTIONS msg details), entered obs w)
     | Throw e => TextToPDF.process env input obs w = (Throw e, entered obs w)
     end) /\
  (forall E obs (w : Proc E),
     observed (entered obs w) = [] /\ polls (entered obs w) = [] /\
     suspensions (entered obs w) = 0%nat /\ ext (entered obs w) = ext w).
Proof.
  split; [|split; [|split]]; intros.
  - apply CropLaws.crop_validation.
  - apply SanitizeLaws.sanitize_validation.
  - apply TextToPDFLaws.textToPDF_validation.
  - repeat split.
Qed.

End ContractLaws.

(** ** Output file names *)

Module FilenameLaws.
Import Processor.

(** The character does not occur in the string. *)
Definition free (c : ascii) (s : string) : Prop := ~ In c (list_ascii_of_string s).

Lemma list_ascii_of_string_app (a b : string) :
  list_ascii_of_string (a ++ b) = (list_ascii_of_string a ++ list_ascii_of_string b)%list.
Proof.
  induction a as [|c a IH]; [reflexivity|].
  change (String c a ++ b)%string with (String c (a ++ b)%string). cbn. rewrite IH. reflexivity.
Qed.

Lemma rev_chars_split (base ext : string) :
  rev (list_ascii_of_string (base ++ "." ++ ext))
  = (rev (list_ascii_of_string ext) ++ "."%char :: rev (list_ascii_of_string base))%list.
Proof.
  rewrite !list_ascii_of_string_app. cbn [list_ascii_of_string].
  rewrite rev_app_distr. cbn [rev app]. rewrite <- app_assoc. reflexivity.
Qed.

Lemma string_of_rev_rev (s : string) :
  string_of_list_ascii (rev (rev (list_ascii_of_string s))) = s.
Proof. rewrite rev_involutive. apply string_of_list_ascii_of_string. Qed.

Lemma beforeLastDot_found (l base : list ascii) :
  ~ In "."%char l -> Sanitize.beforeLastDot (l ++ "."%char :: base) = Some base.
Proof.
  induction l as [|c l IH]; intros Hfree; cbn.
  - reflexivity.
  - destruct (Ascii.eqb_spec c "."%char) as [->|Hne]; [exfalso; apply Hfree; left; reflexivity|].
    apply IH. intros Hin. apply Hfree. right. exact Hin.
Qed.

Lemma beforeLastDot_none (l : list ascii) :
  ~ In "."%char l -> Sanitize.beforeLastDot l = None.
Proof.
  induction l as [|c l IH]; intros Hfree; cbn; [reflexivity|].
  destruct (Ascii.eqb_spec c "."%char) as [->|Hne]; [exfalso; apply Hfree; left; reflexivity|].
  apply IH. intros Hin. apply Hfree. right. exact Hin.
Qed.

Lemma extensionSplit_found (l base : list ascii) :
  ~ In "."%char l -> ~ In "/"%char l ->
  forall acc, l <> [] \/ acc <> [] ->
    Str.extensionSplit (l ++ "."%char :: base) acc = Some base.
Proof.
  induction l as [|c l IH]; intros Hdot Hslash acc Hne; cbn.
  - destruct acc; [destruct Hne; congruence|reflexivity].
  - destruct (Ascii.eqb_spec c "."%char) as [->|Hnd]; [exfalso; apply Hdot; left; reflexivity|].
    destruct (Ascii.eqb_spec c "/"%char) as [->|Hns]; [exfalso; apply Hslash; left; reflexivity|].
    apply IH.
    + intros Hin. apply Hdot. right. exact Hin.
    + intros Hin. apply Hslash. right. exact Hin.
    + right. discriminate.
Qed.

Lemma extensionSplit_none (l : list ascii) :
  ~ In "."%char l -> forall acc, Str.extensionSplit l acc = None.
Proof.
  induction l as [|c l IH]; intros Hdot acc; cbn; [reflexivity|].
  destruct (Ascii.eqb_spec c "."%char) as [->|Hnd]; [exfalso; apply Hdot; left; reflexivity|].
  destruct (Ascii.eqb c "/"%char); [reflexivity|].
  apply IH. intros Hin. apply Hdot. right. exact Hin.
Qed.

Lemma free_rev c s : free c s -> ~ In c (rev (list_ascii_of_string s)).
Proof. intros Hfree Hin. apply Hfree. apply in_rev. exact Hin. Qed.

(** X27. The names of the results. For a file called [base.ext], where
    [ext] holds no dot, the sanitized file is called [base_sanitized.pdf],
    also when [ext] is empty; and the converted text file is called
    [base.pdf] when [ext] is not empty and holds no slash, but keeps its whole
    name in front of [.pdf] when [ext] is empty. A name without any dot is
    kept whole by both. Several text files give [text_<n>_files.pdf]. *)
Theorem result_names (base ext : string) (file other : File) (others : list File) :
  free "." ext ->
  fileName file = (base ++ "." ++ ext)%string ->
  Sanitize.generateSanitizedFilename (fileName file) = (base ++ "_sanitized.pdf")%string /\
  (ext <> "" -> free "/" ext ->
   TextToPDF.generateOutputFilename [file] = (base ++ ".pdf")%string) /\
  (ext = "" -> TextToPDF.generateOutputFilename [file] = (fileName file ++ ".pdf")%string) /\
  (free "." (fileName other) ->
   Sanitize.generateSanitizedFilename (fileName other)
     = (fileName other ++ "_sanitized.pdf")%string /\
   TextToPDF.generateOutputFilename [other] = (fileName other ++ ".pdf")%string) /\
  TextToPDF.generateOutputFilename (file :: other :: others)
    = ("text_" ++ Str.ofNat (2 + length others) ++ "_files.pdf")%string.
Proof.
  intros Hext Hname. split; [|split; [|split; [|split]]].
  - unfold Sanitize.generateSanitizedFilename. rewrite Hname, rev_chars_split.
    rewrite beforeLastDot_found by (apply free_rev; exact Hext).
    rewrite string_of_rev_rev. reflexivity.
  - intros Hne Hslash. cbn [TextToPDF.generateOutputFilename].
    unfold Str.stripExtension. rewrite Hname, rev_chars_split.
    rewrite extensionSplit_found.
    + rewrite string_of_rev_rev. reflexivity.
    + apply free_rev. exact Hext.
    + apply free_rev. exact Hslash.
    + left. destruct ext as [|c ext']; [congruence|]. cbn.
      intros Hnil. apply app_eq_nil in Hnil as [_ [=]].
  - intros ->. cbn [TextToPDF.generateOutputFilename].
    unfold Str.stripExtension. rewrite Hname, rev_chars_split. reflexivity.
  - intros Hfree. split.
    + unfold Sanitize.generateSanitizedFilename.
      rewrite beforeLastDot_none by (apply free_rev; exact Hfree). reflexivity.
    + cbn [TextToPDF.generateOutputFilename]. unfold Str.stripExtension.
      rewrite extensionSplit_none by (apply free_rev; exact Hfree). reflexivity.
  - reflexivity.
Qed.

Definition archive : File :=
  {| fileName := "notes.v2.txt"; fileArrayBuffer := Ret []; fileText := Ret "" |}.

Definition readme : File :=
  {| fileName := "README"; fileArrayBuffer := Ret []; fileText := Ret "" |}.

Lemma result_names_witness :
  Sanitize.generateSanitizedFilename "notes.v2.txt" = "notes.v2_sanitized.pdf" /\
  TextToPDF.generateOutputFilename [archive] = "notes.v2.pdf" /\
  Sanitize.generateSanitizedFilename "README" = "README_sanitized.pdf" /\
  TextToPDF.generateOutputFilename [readme] = "README.pdf" /\
  TextToPDF.generateOutputFilename [archive; readme] = "text_2_files.pdf".
Proof.
  assert (free "." "txt") as Hext by (intros Hin; cbn in Hin; intuition discriminate).
  assert (free "/" "txt") as Hslash by (intros Hin; cbn in Hin; intuition discriminate).
  assert (free "." "README") as Hfree by (intros Hin; cbn in Hin; intuition discriminate).
  destruct (result_names "notes.v2" "txt" archive readme [] Hext eq_refl)
    as (Hsan & Htxt & _ & Hother & Hmany).
  destruct (Hother Hfree) as [Hsan' Htxt'].
  split; [exact Hsan|]. split; [apply Htxt; [discriminate|exact Hslash]|].
  split; [exact Hsan'|]. split; [exact Htxt'|exact Hmany].
Defined.

End FilenameLaws.

(** ** Page layout *)

Module TextLayoutLaws.
Import TextToPDF TextLayout.

Local Open Scope Q_scope.

(** A call the layout makes on the document. *)
Inductive Op : Type :=
| AddPage (width height : Q)
| DrawText (line : string) (y : Q).

(** The lines drawn, in order. *)
Definition linesOf (ops : list Op) : list string :=
  flat_map (fun op => match op with
                      | DrawText line _ => [line]
                      | AddPage _ _ => []
                      end) ops.


(** *** The calls, planned from the text, the options and the font metrics *)

Section Plan.

Variable options : TextToPDFOptions.
Variable measure : string -> Res Q.

Definition nextLinePlan (y : Q) : list Op * Q :=
  let y := y - lineAdvance options in
  if negb (Qle_bool (bottom (margin options)) y)
  then ([AddPage (pageWidth options) (pageHeight options)], firstLine options)
  else ([], y).

Fixpoint wrapPlan (words : list string) (currentLine : string) (y : Q)
  : list Op * (string * Q) :=
  match words with
  | [] => ([], (currentLine, y))
  | word :: rest =>
      if negb (nonEmpty word) then wrapPlan rest currentLine y
      else
        let testLine :=
          if nonEmpty currentLine then (currentLine ++ " " ++ word)%string else word in
        match measure testLine with
        | Throw _ => wrapPlan rest currentLine y
        | Ret testWidth =>
            if negb (Qle_bool testWidth (textWidth options)) && nonEmpty currentLine then
              (DrawText currentLine y
                 :: fst (nextLinePlan y)
                 ++ fst (wrapPlan rest word (snd (nextLinePlan y))),
               snd (wrapPlan rest word (snd (nextLinePlan y))))
            else wrapPlan rest testLine y
        end
  end.

Definition paragraphPlan (paragraph : string) (y : Q) : list Op * Q :=
  if negb (Str.hasInk paragraph) then nextLinePlan y
  else
    let wrapped := wrapPlan (splitOn " " paragraph) "" y in
    let currentLine := fst (snd wrapped) in
    let y' := snd (snd wrapped) in
    if nonEmpty currentLine
    then (fst wrapped ++ DrawText currentLine y' :: fst (nextLinePlan y'),
          snd (nextLinePlan y'))
    else (fst wrapped, y').

Fixpoint paragraphsPlan (paragraphs : list string) (y : Q) : list Op :=
  match paragraphs with
  | [] => []
  | paragraph :: rest =>
      fst (paragraphPlan paragraph y)
      ++ paragraphsPlan rest (snd (paragraphPlan paragraph y))
  end.

Definition plan (text : string) : list Op :=
  AddPage (pageWidth options) (pageHeight options)
  :: paragraphsPlan (splitOn (ascii_of_nat 10) text) (firstLine options).

(** **** Between the margins *)

(** A baseline at the first line of a page, or below it and not below the
    bottom margin. *)
Definition inBand (y : Q) : Prop :=
  y <= firstLine options /\ (y = firstLine options \/ bottom (margin options) <= y).

Definition drawnInBand (ops : list Op) : Prop :=
  Forall (fun op => match op with
                    | DrawText _ y => inBand y
                    | AddPage _ _ => True
                    end) ops.

Hypothesis advance_nonneg : 0 <= lineAdvance options.

Lemma nextLinePlan_band y :
  inBand y -> drawnInBand (fst (nextLinePlan y)) /\ inBand (snd (nextLinePlan y)).
Proof.
  intros [Htop _]. unfold nextLinePlan.
  destruct (Qle_bool (bottom (margin options)) (y - lineAdvance options)) eqn:Hfits;
    cbn [negb fst snd].
  - split; [constructor|]. split; [lra|]. right. apply Qle_bool_iff. exact Hfits.
  - split; [repeat constructor|]. split; [apply Qle_refl|left; reflexivity].
Qed.

Lemma wrapPlan_band words :
  forall cur y, inBand y ->
    drawnInBand (fst (wrapPlan words cur y)) /\ inBand (snd (snd (wrapPlan words cur y))).
Proof.
  induction words as [|word rest IH]; intros cur y Hy; cbn [wrapPlan].
  - split; [constructor|exact Hy].
  - destruct (negb (nonEmpty word)); [apply IH; exact Hy|].
    destruct (measure _) as [testWidth|e]; [|apply IH; exact Hy].
    destruct (negb (Qle_bool testWidth (textWidth options)) && nonEmpty cur);
      [|apply IH; exact Hy].
    destruct (nextLinePlan_band y Hy) as [Hturn Hy'].
    destruct (IH word _ Hy') as [Hops Hend]. cbn [fst snd].
    split; [|exact Hend]. constructor; [exact Hy|].
    apply Forall_app. split; assumption.
Qed.

Lemma paragraphPlan_band paragraph y :
  inBand y ->
  drawnInBand (fst (paragraphPlan paragraph y)) /\ inBand (snd (paragraphPlan paragraph y)).
Proof.
  intros Hy. unfold paragraphPlan.
  destruct (negb (Str.hasInk paragraph)); [apply nextLinePlan_band; exact Hy|].
  destruct (wrapPlan_band (splitOn " " paragraph) "" y Hy) as [Hops Hy'].
  cbv zeta. destruct (nonEmpty _); cbn [fst snd]; [|split; assumption].
  destruct (nextLinePlan_band _ Hy') as [Hturn Hend].
  split; [|exact Hend]. apply Forall_app. split; [exact Hops|].
  constructor; assumption.
Qed.

Lemma paragraphsPlan_band paragraphs :
  forall y, inBand y -> drawnInBand (paragraphsPlan paragraphs y).
Proof.
  induction paragraphs as [|paragraph rest IH]; intros y Hy; cbn [paragraphsPlan].
  - constructor.
  - destruct (paragraphPlan_band paragraph y Hy) as [Hops Hy'].
    apply Forall_app. split; [exact Hops|apply IH; exact Hy'].
Qed.

Lemma plan_band text : drawnInBand (plan text).
Proof.
  unfold plan. constructor; [exact I|].
  apply paragraphsPlan_band. split; [apply Qle_refl|left; reflexivity].
Qed.

End Plan.

(** **** Pages of one size *)


Section Pages.

Variable options : TextToPDFOptions.
Variable measure : string -> Res Q.





End Pages.

(** **** The font is consulted for the widths only *)



(** **** The words *)










Section Words.

Variable options : TextToPDFOptions.
Variable measure : string -> Res Q.


Hypothesis measure_total : forall line, exists w, measure line = Ret w.






End Words.

(** *** The layout makes the calls of the plan *)

Section Calls.

Context {Doc Font : Type} (canvas : Canvas Doc Font).
Variable options : TextToPDFOptions.
Variable font : Font.

(** The calls made one after the other: a page that cannot be added ends
    the layout, a line that cannot be drawn is passed over. *)
Fixpoint perform (ops : list Op) : Eff Doc unit :=
  match ops with
  | [] => ret tt
  | AddPage w h :: rest => let* _ := addPage w h in perform rest
  | DrawText line y :: rest =>
      let* _ := drawLine canvas options font line y in perform rest
  end.

(** The width of a line in the font and size of the options. *)
Definition measured : string -> Res Q :=
  fun line => widthOfTextAtSize font line (fontSize options).

Definition performThen {A} (planned : list Op * A) : Eff Doc A :=
  let* _ := perform (fst planned) in ret (snd planned).

Lemma perform_app ops1 ops2 d :
  perform (ops1 ++ ops2) d = (let* _ := perform ops1 in perform ops2) d.
Proof.
  revert d. induction ops1 as [|[w h|line y] ops1 IH]; intros d; cbn [perform app].
  - reflexivity.
  - unfold bind in *. destruct (addPage w h d) as [[[]|e] d1]; [apply IH|reflexivity].
  - unfold bind in *.
    destruct (drawLine canvas options font line y d) as [[[]|e] d1]; [apply IH|reflexivity].
Qed.

Lemma performThen_app {A} ops1 ops2 (r : A) d :
  performThen (ops1 ++ ops2, r) d
  = (let* _ := perform ops1 in performThen (ops2, r)) d.
Proof.
  unfold performThen. cbn [fst snd]. unfold bind at 1. rewrite perform_app.
  unfold bind. destruct (perform ops1 d) as [[[]|e] d1]; reflexivity.
Qed.

Lemma nextLine_plan y d :
  nextLine canvas options y d = performThen (nextLinePlan options y) d.
Proof.
  unfold nextLine, nextLinePlan, performThen.
  destruct (negb _); cbn [fst snd perform]; [|reflexivity].
  unfold bind. destruct (addPage _ _ d) as [[[]|e] d1]; reflexivity.
Qed.

Lemma wrapWords_plan words :
  forall cur y d,
    wrapWords canvas options font words cur y d
    = performThen (wrapPlan options measured words cur y) d.
Proof.
  induction words as [|word rest IH]; intros cur y d; cbn [wrapWords wrapPlan].
  - reflexivity.
  - destruct (negb (nonEmpty word)); [apply IH|].
    unfold measured at 1.
    destruct (widthOfTextAtSize font _ (fontSize options)) as [testWidth|e]; [|apply IH].
    destruct (negb (Qle_bool testWidth (textWidth options)) && nonEmpty cur); [|apply IH].
    unfold performThen at 1. cbn [fst snd perform].
    unfold bind at 1 3 4.
    destruct (drawLine canvas options font cur y d) as [[[]|e] d1]; [|reflexivity].
    unfold bind at 1. rewrite nextLine_plan. unfold performThen at 1.
    rewrite perform_app. unfold bind.
    destruct (perform (fst (nextLinePlan options y)) d1) as [[[]|e] d2]; [|reflexivity].
    unfold ret. cbn beta iota. rewrite IH. reflexivity.
Qed.

Lemma paragraph_plan paragraph (k : Q -> Eff Doc unit) y d :
  (if negb (Str.hasInk paragraph) then
     let* y := nextLine canvas options y in k y
   else
     let* (currentLine, y) := wrapWords canvas options font (splitOn " " paragraph) "" y in
     let* y :=
       if nonEmpty currentLine then
         let* _ := drawLine canvas options font currentLine y in
         nextLine canvas options y
       else ret y in
     k y) d
  = (let* y := performThen (paragraphPlan options measured paragraph y) in k y) d.
Proof.
  unfold paragraphPlan. destruct (negb (Str.hasInk paragraph)).
  - unfold bind. rewrite nextLine_plan. reflexivity.
  - cbv zeta. unfold bind at 1. rewrite wrapWords_plan.
    destruct (wrapPlan options measured (splitOn " " paragraph) "" y)
      as [ops [cur y1]].
    cbn [fst snd]. unfold performThen at 1. cbn [fst snd]. unfold bind at 1.
    destruct (perform ops d) as [[[]|e] d1] eqn:Hops.
    + unfold ret at 1. cbn beta iota.
      destruct (nonEmpty cur); unfold performThen; cbn [fst snd].
      * unfold bind. rewrite perform_app. unfold bind. rewrite Hops. cbn [perform].
        unfold bind.
        destruct (drawLine canvas options font cur y1 d1) as [[[]|e] d2]; [|reflexivity].
        rewrite nextLine_plan. unfold performThen, bind.
        destruct (perform _ d2) as [[[]|e] d3]; reflexivity.
      * unfold bind. rewrite Hops. reflexivity.
    + destruct (nonEmpty cur); unfold performThen; cbn [fst snd]; unfold bind.
      * rewrite perform_app. unfold bind. rewrite Hops. reflexivity.
      * rewrite Hops. reflexivity.
Qed.

Lemma drawParagraphs_plan paragraphs :
  forall y d,
    drawParagraphs canvas options font paragraphs y d
    = perform (paragraphsPlan options measured paragraphs y) d.
Proof.
  induction paragraphs as [|paragraph rest IH]; intros y d;
    cbn [drawParagraphs paragraphsPlan].
  - reflexivity.
  - rewrite (paragraph_plan paragraph
               (fun y => drawParagraphs canvas options font rest y)).
    rewrite perform_app. unfold performThen, bind.
    destruct (perform (fst (paragraphPlan options measured paragraph y)) d)
      as [[[]|e] d1]; [apply IH|reflexivity].
Qed.

Lemma createPdfFromText_plan text d :
  createPdfFromText canvas options font text d
  = perform (plan options measured text) d.
Proof.
  unfold createPdfFromText, plan. cbn [perform]. unfold bind.
  destruct (addPage _ _ d) as [[[]|e] d1]; [apply drawParagraphs_plan|reflexivity].
Qed.


End Calls.


Section Layout.

Context {Doc Font : Type} (canvas : Canvas Doc Font).
Variable options : TextToPDFOptions.
Variable font : Font.



(** X29. With a line height that is not negative, every line is drawn on
    a baseline that is the first of its page, or lies below it and not below
    the bottom margin. *)
Theorem lines_stay_between_margins (text : string) :
  0 <= lineAdvance options ->
  exists ops,
    (forall d, createPdfFromText canvas options font text d
               = perform canvas options font ops d) /\
    drawnInBand options ops.
Proof.
  intros Hadvance. exists (plan options (measured canvas options font) text).
  split; [apply createPdfFromText_plan|apply plan_band; exact Hadvance].
Qed.


End Layout.

(** *** A canvas that records *)

(** A stand-in for pdf-lib: the document is the list of the calls made on
    it, and every character is 6 points wide. *)
#[local] Instance recorder : Canvas (list Op) unit := {
  addPage w h := fun d => (Ret tt, d ++ [AddPage w h]);
  drawText line x y size font colour := fun d => (Ret tt, d ++ [DrawText line y]);
  widthOfTextAtSize font line size := Ret (inject_Z (Z.of_nat (String.length line)) * 6)
}.

Definition letter : string :=
  ("Dear all," ++ String (ascii_of_nat 10) "  the   report is attached.")%string.

(** The boxes of spaces are dropped, the words kept. *)
Example letter_lines :
  linesOf (snd (createPdfFromText recorder DEFAULT_OPTIONS tt letter []))
  = ["Dear all,"; "the report is attached."]%string.
Proof. vm_compute. reflexivity. Qed.

Lemma lines_stay_between_margins_witness :
  exists ops,
    (forall d, createPdfFromText recorder DEFAULT_OPTIONS tt letter d
               = perform recorder DEFAULT_OPTIONS tt ops d) /\
    drawnInBand DEFAULT_OPTIONS ops.
Proof.
  apply (lines_stay_between_margins recorder DEFAULT_OPTIONS tt letter).
  vm_compute. discriminate.
Defined.



(** *** The converter with its layout *)

(** pdf-lib on the recorded document: the pages are the pages added. *)
#[local] Instance paperLib : TextToPDF.PdfLib (list Op) unit := {
  PDFDocument_create := Ret [];
  embedStandardFont n := ret tt;
  registerFontkit := ret tt;
  embedFont bytes := ret tt;
  save d := Ret [Byte.x25; Byte.x50; Byte.x44; Byte.x46];
  getPageCount d :=
    length (List.filter (fun op => match op with
                                   | AddPage _ _ => true
                                   | DrawText _ _ => false
                                   end) d)
}.

Definition paperEnv : Collaborators (list Op) unit :=
  {| loadPdfLib := Ret paperLib; importFontkit := Ret tt;
     TextToPDF.createPdfFromText :=
       fun text options font => TextLayout.createPdfFromText recorder options font text |}.

Definition letterFile : Processor.File :=
  {| Processor.fileName := "letter.txt"; Processor.fileArrayBuffer := Ret [];
     Processor.fileText := Ret letter |}.

(** One file, default options: its text and two line feeds are laid out on
    one page. *)
Example letter_converted :
  fst (process paperEnv
         {| files := [letterFile]; options := TextToPDFProps.withFont "times" |} false
         (TextToPDFProps.idle (FontCacheProps.coldWorld true)))
  = Ret (Processor.Success
           (Processor.pdfBlob [Byte.x25; Byte.x50; Byte.x44; Byte.x46]) "letter.pdf"
           [("pageCount"%string, Processor.MNum 1); ("fileCount"%string, Processor.MNum 1)]).
Proof. vm_compute. reflexivity. Qed.

End TextLayoutLaws.
